(** * AH premium monitor: a shallow embedding and its checked properties

    The development follows the three scripts of the repository:
    - [get_ah_premium_data.py]  (module [Fetcher]): price and FX fetch, join,
      premium computation;
    - [continuous_monitor.py]   (module [Monitor]): pivot to wide tables and
      the incremental report update;
    - [get_history_premium_data.py] (module [History]): per-stock statistics.

    Conventions of the embedding.
    - A float cell is an [fval]: [NaN] (pandas null), a signed infinity, or a
      finite number carried as a canonical rational [Qc].  Arithmetic is
      exact on finite numbers (no rounding, no signed zero); division by zero
      follows IEEE (non-zero / 0 is an infinity, 0 / 0 is [NaN]).
    - A date is its proleptic ordinal ([datetime.date.toordinal]); the
      ['%Y-%m-%d'] strings the scripts compare are ordered as their ordinals.
    - A DataFrame in long format is the list of its rows, in row order. *)

From Stdlib Require Import List ZArith QArith Qcanon Qround String Bool Lia.
From Stdlib Require Import Permutation Sorted.
From Stdlib Require OrderedTypeEx.
From Stdlib Require Import Lqa.
Import ListNotations.
Local Open Scope Z_scope.

(** ** Float cells *)

Module Float.

Inductive fval : Type :=
| NaN
| Inf (neg : bool)
| Num (q : Qc).

Definition isnull (v : fval) : bool :=
  match v with NaN => true | _ => false end.

Definition notnull (v : fval) : bool := negb (isnull v).

Definition Qc_eqb (x y : Qc) : bool := Qeq_bool x y.

Definition Qc_ltb (x y : Qc) : bool :=
  match (x ?= y)%Qc with Lt => true | _ => false end.

Definition Qc_leb (x y : Qc) : bool :=
  match (x ?= y)%Qc with Gt => false | _ => true end.

(** [v == 0] as pandas evaluates it: false on null and on infinities. *)
Definition is_zero (v : fval) : bool :=
  match v with Num q => Qc_eqb q 0%Qc | _ => false end.

Definition fopp (a : fval) : fval :=
  match a with
  | NaN => NaN
  | Inf s => Inf (negb s)
  | Num q => Num (- q)%Qc
  end.

Definition fadd (a b : fval) : fval :=
  match a, b with
  | NaN, _ | _, NaN => NaN
  | Inf s, Inf t => if Bool.eqb s t then Inf s else NaN
  | Inf s, Num _ => Inf s
  | Num _, Inf t => Inf t
  | Num p, Num q => Num (p + q)%Qc
  end.

Definition fsub (a b : fval) : fval := fadd a (fopp b).

Definition fmul (a b : fval) : fval :=
  match a, b with
  | NaN, _ | _, NaN => NaN
  | Inf s, Inf t => Inf (xorb s t)
  | Inf s, Num q => if Qc_eqb q 0%Qc then NaN else Inf (xorb s (Qc_ltb q 0%Qc))
  | Num p, Inf t => if Qc_eqb p 0%Qc then NaN else Inf (xorb (Qc_ltb p 0%Qc) t)
  | Num p, Num q => Num (p * q)%Qc
  end.

Definition fdiv (a b : fval) : fval :=
  match a, b with
  | NaN, _ | _, NaN => NaN
  | Inf _, Inf _ => NaN
  | Inf s, Num q => Inf (xorb s (Qc_ltb q 0%Qc))
  | Num _, Inf _ => Num 0%Qc
  | Num p, Num q =>
      if Qc_eqb q 0%Qc
      then (if Qc_eqb p 0%Qc then NaN else Inf (Qc_ltb p 0%Qc))
      else Num (p / q)%Qc
  end.

(** Order of the non-null cells: -inf < finite < +inf. *)
Definition fleb (a b : fval) : bool :=
  match a, b with
  | NaN, _ => true
  | _, NaN => false
  | Inf true, _ => true
  | _, Inf true => false
  | _, Inf false => true
  | Inf false, _ => false
  | Num p, Num q => Qc_leb p q
  end.

Definition fval_eqb (a b : fval) : bool :=
  match a, b with
  | NaN, NaN => true
  | Inf s, Inf t => Bool.eqb s t
  | Num p, Num q => Qc_eqb p q
  | _, _ => false
  end.

Definition of_Z (z : Z) : fval := Num (Q2Qc (inject_Z z)).
Definition of_Q (q : Q) : fval := Num (Q2Qc q).

End Float.
Export Float.

(** ** Sorting helpers shared by the three scripts *)

Section Sorting.
Context {A : Type}.
Variable leb : A -> A -> bool.

(** Insertion before the first element that is not smaller: with
    [fold_right] this keeps equal keys in their original order, as the
    stable sort of [DataFrame.sort_values] on several keys does. *)
Fixpoint insert_sorted (x : A) (l : list A) : list A :=
  match l with
  | [] => [x]
  | y :: l' => if leb x y then x :: y :: l' else y :: insert_sorted x l'
  end.

Definition sort_values (l : list A) : list A :=
  fold_right insert_sorted [] l.

(** The order as a relation, and its strict part. *)
Definition le_rel (x y : A) : Prop := leb x y = true.

Definition slt (x y : A) : Prop := leb x y = true /\ x <> y.

Variable eqb : A -> A -> bool.

(** Insertion into a strictly increasing list of labels. *)
Fixpoint insert_uniq (x : A) (l : list A) : list A :=
  match l with
  | [] => [x]
  | y :: l' =>
      if eqb x y then l
      else if leb x y then x :: l
      else y :: insert_uniq x l'
  end.

(** The sorted distinct labels of a column (a sorted [Index]). *)
Definition sort_uniq (l : list A) : list A :=
  fold_right insert_uniq [] l.

Definition mem (x : A) (l : list A) : bool := existsb (eqb x) l.

End Sorting.

(** ** Rows shared by the scripts *)

(** A date as its ordinal; [strftime('%Y-%m-%d')] and [pd.to_datetime] are
    the two directions of the same bijection and are not represented. *)
Definition date_t := Z.

(** One row of the stock pool returned by [get_ah_shhk_connect_stocks]. *)
Record StockPoolEntry : Type := mkPool {
  pool_H_stock_code : string;
  pool_A_stock_code : string;
  pool_stock_name : string
}.

(** One row of the long-format table returned by [get_ah_premium_data]
    (columns in the order of the final column selection). *)
Record PriceObservation : Type := mkObs {
  date : date_t;
  stock_name : string;
  A_stock_code : string;
  H_stock_code : string;
  A_price : fval;
  H_price : fval;
  exchange_rate : fval;
  HA_premium_rate : fval
}.

Definition LongTable := list PriceObservation.

(** ** The market-data provider *)

(** The object [w.wsd] returns: [Data] has one list per code, each with one
    value per time. *)
Record WsdData : Type := mkWsd {
  ErrorCode : Z;
  Codes : list string;
  Times : list date_t;
  Data : list (list fval)
}.

(** A time-series query [w.wsd(codes, "close", start, end, "")]. *)
Record WsdQuery : Type := mkQuery {
  q_codes : list string;
  q_start : date_t;
  q_end : date_t
}.

Definition Provider := WsdQuery -> WsdData.

(** What a call does: it returns a value or lets an exception escape. *)
Inductive outcome (T : Type) : Type :=
| Returned (v : T)
| Raised.
Arguments Returned {T} v.
Arguments Raised {T}.

(** ** Reductions of a column, skipping nulls as pandas does *)

Definition dropna (l : list fval) : list fval := filter notnull l.

Definition fsum (l : list fval) : fval := fold_left fadd l (of_Z 0).

Definition of_nat (n : nat) : fval := of_Z (Z.of_nat n).

(** ['mean'], also the default [aggfunc] of [pivot_table]: null for a group
    without a value, otherwise the sum over the count.  The quotient is the
    exact one: it is the float result for a single value, as in the pivot of
    de-duplicated rows, and the float result up to rounding for several. *)
Definition mean (l : list fval) : fval :=
  match dropna l with
  | [] => NaN
  | xs => fdiv (fsum xs) (of_nat (List.length xs))
  end.

(** ** get_ah_premium_data.py *)

Module Fetcher.

Definition exchange_rate_code : string := "HKDCNYFIX.HKS".


(** The length of the longest list of [Data]. *)
Definition width (rows : list (list fval)) : nat :=
  fold_right (fun row k => Nat.max (List.length row) k) 0%nat rows.

Definition pad (k : nat) (row : list fval) : list fval :=
  row ++ repeat NaN (k - List.length row).

(** [pd.DataFrame(data.Data, index=data.Codes, columns=data.Times)] on a
    list of lists, under the answer's own labels: the shorter lists are
    filled up with nulls to the longest, and a single list is repeated under
    every code.  The constructor raises ([None]) when the longest list has
    not one cell per date, and when several lists are not one per code. *)
Definition frame (d : WsdData) : option WsdData :=
  let k := width (Data d) in
  let rows := map (pad k) (Data d) in
  if negb (k =? List.length (Times d))%nat then None
  else if (List.length rows =? List.length (Codes d))%nat
       then Some (mkWsd (ErrorCode d) (Codes d) (Times d) rows)
       else
         match rows with
         | [row] =>
             Some (mkWsd (ErrorCode d) (Codes d) (Times d)
                         (repeat row (List.length (Codes d))))
         | _ => None
         end.

(** [df.T.reset_index().melt(id_vars='date')]: one (date, code, value) row
    per cell, code by code. *)
Definition melt (d : WsdData) : list (date_t * string * fval) :=
  flat_map (fun cv : string * list fval =>
              map (fun tv : date_t * fval => (fst tv, fst cv, snd tv))
                  (combine (Times d) (snd cv)))
           (combine (Codes d) (Data d)).

Definition isin (c : string) (l : list string) : bool := mem String.eqb c l.

(** A row of [merged_a]: an A-share price joined to its pool entry. *)
Record MergedA : Type := mkMergedA {
  ma_date : date_t;
  ma_A_price : fval;
  ma_entry : StockPoolEntry
}.

(** [pd.merge(a_price_df, stock_pool_df, on='A_stock_code', how='inner')]. *)
Definition merge_inner_pool (a_price_df : list (date_t * string * fval))
           (stock_pool_df : list StockPoolEntry) : list MergedA :=
  flat_map (fun r : date_t * string * fval =>
              map (mkMergedA (fst (fst r)) (snd r))
                  (filter (fun e => String.eqb (pool_A_stock_code e) (snd (fst r)))
                          stock_pool_df))
           a_price_df.

(** The values a left join attaches to one left row: those of the matching
    right rows, or a single null when there is none. *)
Definition left_matches {R : Type} (p : R -> bool) (val : R -> fval)
           (right : list R) : list fval :=
  match filter p right with
  | [] => [NaN]
  | ms => map val ms
  end.

(** [pd.merge(merged_a, h_price_df, on=['date', 'H_stock_code'], how='left')]. *)
Definition merge_left_h (merged_a : list MergedA)
           (h_price_df : list (date_t * string * fval))
  : list (MergedA * fval) :=
  flat_map (fun m =>
              map (pair m)
                  (left_matches
                     (fun r : date_t * string * fval =>
                        (fst (fst r) =? ma_date m)
                        && String.eqb (snd (fst r))
                                      (pool_H_stock_code (ma_entry m)))
                     snd h_price_df))
           merged_a.

(** [pd.merge(merged_prices, exchange_rate_df.reset_index(), on='date',
    how='left')]. *)
Definition merge_left_fx (merged_prices : list (MergedA * fval))
           (fx : list (date_t * fval)) : list (MergedA * fval * fval) :=
  flat_map (fun mh =>
              map (pair mh)
                  (left_matches
                     (fun r : date_t * fval => fst r =? ma_date (fst mh))
                     snd fx))
           merged_prices.

(** The [np.where] of step 4. *)
Definition premium (a_price h_price rate : fval) : fval :=
  if isnull a_price || is_zero a_price
  then NaN
  else fsub (fdiv (fdiv h_price rate) a_price) (of_Z 1).

Definition with_premium (r : MergedA * fval * fval) : PriceObservation :=
  let m := fst (fst r) in
  let h := snd (fst r) in
  let fx := snd r in
  {| date := ma_date m;
     stock_name := pool_stock_name (ma_entry m);
     A_stock_code := pool_A_stock_code (ma_entry m);
     H_stock_code := pool_H_stock_code (ma_entry m);
     A_price := ma_A_price m;
     H_price := h;
     exchange_rate := fx;
     HA_premium_rate := premium (ma_A_price m) h fx |}.

(** [dropna(subset=['A_price', 'H_price', 'exchange_rate'])]. *)
Definition complete (r : PriceObservation) : bool :=
  notnull (A_price r) && notnull (H_price r) && notnull (exchange_rate r).

(** The key of [sort_values(by=['date', 'stock_name'])]. *)
Definition by_date_name (r s : PriceObservation) : bool :=
  (date r <? date s)
  || ((date r =? date s) && String.leb (stock_name r) (stock_name s)).

(** [not data.Data or not data.Data[0]]. *)
Definition no_payload (d : WsdData) : bool :=
  match Data d with
  | [] => true
  | [] :: _ => true
  | _ => false
  end.

Definition failed (d : WsdData) : bool :=
  negb (ErrorCode d =? 0) || no_payload d.

(** The column of the FX frame after the rename; [None] when the provider
    answered under another code, and selecting ['exchange_rate'] raises. *)
Definition exchange_rate_column (d : WsdData) : option (list (date_t * fval)) :=
  match find (fun cv : string * list fval => String.eqb (fst cv) exchange_rate_code)
             (combine (Codes d) (Data d)) with
  | Some cv => Some (combine (Times d) (snd cv))
  | None => None
  end.

(** Steps 3 and 4 and the clean-up, on the two frames already fetched. *)
Definition integrate (stock_pool_df : list StockPoolEntry)
           (price_data : WsdData) (fx : list (date_t * fval)) : LongTable :=
  let all_a_codes := map pool_A_stock_code stock_pool_df in
  let all_h_codes := map pool_H_stock_code stock_pool_df in
  let price_long_df := melt price_data in
  let a_price_df := filter (fun r => isin (snd (fst r)) all_a_codes) price_long_df in
  let h_price_df := filter (fun r => isin (snd (fst r)) all_h_codes) price_long_df in
  let merged_a := merge_inner_pool a_price_df stock_pool_df in
  let merged_prices := merge_left_h merged_a h_price_df in
  let final_data := map with_premium (merge_left_fx merged_prices fx) in
  let final_data := filter complete final_data in
  sort_values by_date_name final_data.

(** [get_ah_premium_data(stock_pool_df, start_date, end_date)].  The pool is
    [None] for Python's [None]; the result comes with the provider queries
    issued, in order.  An empty list is the empty DataFrame. *)
Definition get_ah_premium_data (WIND_AVAILABLE : bool) (w : Provider)
           (stock_pool_df : option (list StockPoolEntry))
           (start_date : date_t) (end_date : option date_t)
  : outcome LongTable * list WsdQuery :=
  if negb WIND_AVAILABLE then (Returned [], [])
  else
    match stock_pool_df with
    | None => (Returned [], [])
    | Some [] => (Returned [], [])
    | Some pool =>
        let end_date := match end_date with Some e => e | None => start_date end in
        let all_codes := map pool_A_stock_code pool ++ map pool_H_stock_code pool in
        let q1 := mkQuery all_codes start_date end_date in
        let price_data := w q1 in
        if failed price_data then (Returned [], [q1])
        else
          match frame price_data with
          | None => (Raised, [q1])
          | Some price_df =>
              let q2 := mkQuery [exchange_rate_code] start_date end_date in
              let exchange_rate_data := w q2 in
              if failed exchange_rate_data then (Returned [], [q1; q2])
              else
                match frame exchange_rate_data with
                | None => (Raised, [q1; q2])
                | Some exchange_rate_df =>
                    match exchange_rate_column exchange_rate_df with
                    | None => (Raised, [q1; q2])
                    | Some fx =>
                        (Returned (integrate pool price_df fx), [q1; q2])
                    end
                end
          end
    end.

(** The rows a call hands to its caller: none when it raised. *)
Definition rows_of (res : outcome LongTable) : LongTable :=
  match res with
  | Returned df => df
  | Raised => []
  end.

End Fetcher.

(** ** continuous_monitor.py *)

Module Monitor.

(** A wide table: row labels (stock names), column labels (dates) and the
    cells, row by row. *)
Record WideReportTable : Type := mkWide {
  index : list string;
  columns : list date_t;
  values : list (list fval)
}.

Definition Column := PriceObservation -> fval.

Definition key_t : Type := string * date_t.

Definition key (r : PriceObservation) : key_t := (stock_name r, date r).

Definition key_eqb (k1 k2 : key_t) : bool :=
  String.eqb (fst k1) (fst k2) && (snd k1 =? snd k2).

(** [df.drop_duplicates(subset=['stock_name', 'date'])]: of the rows with
    one key, the first stays. *)
Fixpoint drop_duplicates (df : LongTable) : LongTable :=
  match df with
  | [] => []
  | r :: rest =>
      r :: filter (fun s => negb (key_eqb (key s) (key r))) (drop_duplicates rest)
  end.

(** The distinct keys of the frame, by first appearance.  ([groupby] sorts
    them; the order is immaterial below, where groups are looked up by key
    and both axes of the result are sorted.) *)
Fixpoint group_keys (ks : list key_t) : list key_t :=
  match ks with
  | [] => []
  | k :: rest => k :: filter (fun k' => negb (key_eqb k' k)) (group_keys rest)
  end.

(** The aggregate of one group. *)
Definition group_mean (df : LongTable) (value_col : Column) (k : key_t) : fval :=
  mean (map value_col (filter (fun r => key_eqb (key r) k) df)).

(** [data.groupby(['stock_name', 'date']).agg('mean')] on the value column,
    followed by [agged.dropna(how='all')]. *)
Definition agged (df : LongTable) (value_col : Column) : list (key_t * fval) :=
  filter (fun kv => notnull (snd kv))
         (map (fun k => (k, group_mean df value_col k))
              (group_keys (map key df))).

(** A cell of the unstacked frame: the group's value, null for a
    (stock, date) pair without a group. *)
Definition cell (g : list (key_t * fval)) (s : string) (d : date_t) : fval :=
  match find (fun kv => key_eqb (fst kv) (s, d)) g with
  | Some kv => snd kv
  | None => NaN
  end.

(** [df.pivot_table(index='stock_name', columns='date', values=value_col)]
    with the defaults [aggfunc='mean'], [dropna=True]: both axes sorted; no
    column is entirely null, since every remaining group has a value. *)
Definition pivot_table (df : LongTable) (value_col : Column) : WideReportTable :=
  let g := agged df value_col in
  let idx := sort_uniq String.leb String.eqb (map (fun kv => fst (fst kv)) g) in
  let cols := sort_uniq Z.leb Z.eqb (map (fun kv => snd (fst kv)) g) in
  {| index := idx;
     columns := cols;
     values := map (fun s => map (fun d => cell g s d) cols) idx |}.

Definition create_pivot_table (df : LongTable) (value_col : Column)
  : WideReportTable :=
  let df_dedup := drop_duplicates df in
  pivot_table df_dedup value_col.

(** The call as [main] performs it, with the frame object it is given: the
    de-duplication is not in place and the column relabelling touches the
    new pivot only, so the caller's frame comes back as it went in. *)
Definition create_pivot_table_call (value_col : Column) (df : LongTable)
  : WideReportTable * LongTable :=
  let df_dedup := drop_duplicates df in
  let pivot := pivot_table df_dedup value_col in
  (pivot, df).

(** The value of the first row of the frame with a given (stock, date),
    null when there is no such row. *)
Definition first_value (df : LongTable) (value_col : Column)
           (s : string) (d : date_t) : fval :=
  match find (fun r => key_eqb (key r) (s, d)) df with
  | Some r => value_col r
  | None => NaN
  end.

(** The row of a table under a label; a label the table lacks gets nulls
    when frames are aligned. *)
Definition row_of (t : WideReportTable) (s : string) : list fval :=
  match find (fun lv : string * list fval => String.eqb (fst lv) s)
             (combine (index t) (values t)) with
  | Some lv => snd lv
  | None => repeat NaN (List.length (columns t))
  end.

Definition cell_at (t : WideReportTable) (s : string) (d : date_t) : fval :=
  match find (fun cv : date_t * fval => fst cv =? d)
             (combine (columns t) (row_of t s)) with
  | Some cv => snd cv
  | None => NaN
  end.

(** [pd.concat([a, b], axis=1)] (outer join, [sort=False]) on frames with
    unique row labels: the rows of [a], then the labels only [b] has, in
    [b]'s order; the columns of [a], then those of [b]. *)
Definition concat_axis1 (a b : WideReportTable) : WideReportTable :=
  let idx := index a
             ++ filter (fun s => negb (mem String.eqb s (index a))) (index b) in
  {| index := idx;
     columns := columns a ++ columns b;
     values := map (fun s => row_of a s ++ row_of b s) idx |}.

(** The rows of a long table with dates in [lo, hi]. *)
Definition between (lo hi : date_t) (df : LongTable) : LongTable :=
  filter (fun r => (lo <=? date r) && (date r <=? hi)) df.

Inductive Sheet : Type := PremiumSheet | APriceSheet | HPriceSheet | RateSheet.

Definition sheet_name (s : Sheet) : string :=
  match s with
  | PremiumSheet => "溢价率"
  | APriceSheet => "A股收盘价"
  | HPriceSheet => "H股收盘价"
  | RateSheet => "汇率"
  end.

Definition Sheet_eqb (a b : Sheet) : bool :=
  match a, b with
  | PremiumSheet, PremiumSheet | APriceSheet, APriceSheet
  | HPriceSheet, HPriceSheet | RateSheet, RateSheet => true
  | _, _ => false
  end.

Definition SHEET_NAMES : list Sheet :=
  [PremiumSheet; APriceSheet; HPriceSheet; RateSheet].

Definition value_columns : list Column :=
  [HA_premium_rate; A_price; H_price; exchange_rate].

(** The sheets of a report file, and of the dictionaries [existing_data],
    [new_pivots] and [final_pivots]. *)
Definition Workbook := list (Sheet * WideReportTable).

Definition lookup_sheet (wb : Workbook) (s : Sheet) : option WideReportTable :=
  match find (fun e => Sheet_eqb (fst e) s) wb with
  | Some e => Some (snd e)
  | None => None
  end.

(** [pd.read_excel(OUTPUT_FILENAME, sheet_name=s, index_col=0)]: raises on a
    sheet the file does not hold.  A sheet that reads comes back as it was
    saved, its header cells being the dates they spell; this is what pandas
    does when no header cell is repeated in the sheet (it renames a repeated
    one, to a label that is no date), and statements about what a run reads
    say so where it matters. *)
Definition read_excel (wb : Workbook) (s : Sheet) : outcome WideReportTable :=
  match lookup_sheet wb s with
  | Some t => Returned t
  | None => Raised
  end.

(** "2024-01-01". *)
Definition default_start_date : date_t := 738886.

(** The loop that saves all old sheets; [None] when a read raises. *)
Fixpoint read_all (wb : Workbook) (sheets : list Sheet) : option Workbook :=
  match sheets with
  | [] => Some []
  | s :: rest =>
      match read_excel wb s with
      | Raised => None
      | Returned t =>
          match read_all wb rest with
          | Some acc => Some ((s, t) :: acc)
          | None => None
          end
      end
  end.

(** The [try] block of step 2 on an existing file: the start date and
    [existing_data] as they stand after it.  [start_date_str] is assigned
    before the loop over the sheets, and the handler resets [existing_data]
    only. *)
Definition read_existing (wb : Workbook) : date_t * Workbook :=
  let start_date := default_start_date in
  match read_excel wb PremiumSheet with
  | Raised => (start_date, [])
  | Returned existing_premium =>
      match rev (columns existing_premium) with
      | [] => (start_date, [])
      | last_date_in_file :: _ =>
          let start_date := last_date_in_file + 1 in
          match read_all wb SHEET_NAMES with
          | Some existing_data => (start_date, existing_data)
          | None => (start_date, [])
          end
      end
  end.

(** The object [w.tdaysoffset] returns. *)
Record TdaysData : Type := mkTdays {
  td_ErrorCode : Z;
  td_Data : list (list date_t)
}.

(** What a run is given: the collaborators' answers and the file on disk.
    [stock_pool_result] is what [get_ah_shhk_connect_stocks()] returned in
    step 1, with a name for every entry. *)
Record World : Type := mkWorld {
  stock_pool_result : list StockPoolEntry;
  report_file : option Workbook;
  today : date_t;
  WIND_AVAILABLE : bool;
  tdaysoffset : date_t -> TdaysData;
  wsd : Provider;
  disk_writable : bool
}.

Inductive Event : Type :=
| EvTdays (d : date_t)
| EvWsd (q : WsdQuery)
| EvWrite (wb : Workbook) (succeeded : bool).

Inductive Exit : Type :=
| NoStockPool
| UpToDate
| NoNewData
| Saved
| SaveFailed
| Crashed.

(** Step 2: the start date and the old sheets. *)
Definition plan (w : World) : date_t * Workbook :=
  match report_file w with
  | Some wb => read_existing wb
  | None => (default_start_date, [])
  end.

Inductive TradeDayCheck : Type := Proceed | AlreadyCurrent | CheckRaised.

(** The check for a new trading day, given the provider's answer. *)
Definition check_trade_day (td : TdaysData) (start_date : date_t)
  : TradeDayCheck :=
  if (td_ErrorCode td =? 0) && negb (match td_Data td with [] => true | _ => false end)
  then
    match td_Data td with
    | (latest_available_date :: _) :: _ =>
        if start_date >? latest_available_date then AlreadyCurrent else Proceed
    | _ => CheckRaised
    end
  else Proceed.

(** Step 4: one pivot per sheet. *)
Definition make_new_pivots (long_df : LongTable) : Workbook :=
  map (fun sc : Sheet * Column => (fst sc, create_pivot_table long_df (snd sc)))
      (combine SHEET_NAMES value_columns).

(** Step 5; [None] stands for the [KeyError] of a missing sheet. *)
Fixpoint merge_sheets (existing_data new_pivots : Workbook)
         (sheets : list Sheet) : option Workbook :=
  match sheets with
  | [] => Some []
  | s :: rest =>
      match lookup_sheet existing_data s, lookup_sheet new_pivots s with
      | Some old, Some new =>
          match merge_sheets existing_data new_pivots rest with
          | Some acc => Some ((s, concat_axis1 old new) :: acc)
          | None => None
          end
      | _, _ => None
      end
  end.

Definition final_pivots (existing_data new_pivots : Workbook) : option Workbook :=
  match existing_data with
  | [] => Some new_pivots
  | _ => merge_sheets existing_data new_pivots SHEET_NAMES
  end.

(** Steps 3 to 6. *)
Definition fetch_and_save (w : World) (start_date : date_t)
           (existing_data : Workbook) : Exit * list Event :=
  let end_date := today w in
  let '(res, queries) :=
    Fetcher.get_ah_premium_data (WIND_AVAILABLE w) (wsd w)
                                (Some (stock_pool_result w))
                                start_date (Some end_date) in
  let evs := map EvWsd queries in
  match res with
  | Raised => (Crashed, evs)
  | Returned [] => (NoNewData, evs)
  | Returned long_df =>
      match final_pivots existing_data (make_new_pivots long_df) with
      | None => (Crashed, evs)
      | Some wb =>
          if disk_writable w
          then (Saved, evs ++ [EvWrite wb true])
          else (SaveFailed, evs ++ [EvWrite wb false])
      end
  end.

(** [main()] from the pool on: how the run ends and, in order, the calls
    [main] itself makes (its trading-day check, the price queries of the
    fetcher, the write).  The queries of the pool function in step 1 are the
    trace of [StockPool.get_ah_shhk_connect_stocks] and are not listed
    again here. *)
Definition main (w : World) : Exit * list Event :=
  match stock_pool_result w with
  | [] => (NoStockPool, [])
  | _ =>
      let '(start_date, existing_data) := plan w in
      let end_date := today w in
      let '(chk, evs) :=
        if WIND_AVAILABLE w
        then (check_trade_day (tdaysoffset w end_date) start_date,
              [EvTdays end_date])
        else (Proceed, []) in
      match chk with
      | CheckRaised => (Crashed, evs)
      | AlreadyCurrent => (UpToDate, evs)
      | Proceed =>
          if start_date >? end_date then (UpToDate, evs)
          else
            let '(ex, evs') := fetch_and_save w start_date existing_data in
            (ex, evs ++ evs')
      end
  end.

(** The report file after a run, as far as the events determine it. *)
Inductive FileState : Type :=
| Holds (f : option Workbook)
| Unknown.

Definition apply_event (st : FileState) (e : Event) : FileState :=
  match e with
  | EvWrite wb true => Holds (Some wb)
  | EvWrite _ false => Unknown
  | _ => st
  end.

Definition report_after (w : World) (evs : list Event) : FileState :=
  fold_left apply_event evs (Holds (report_file w)).

(** The workbook of the last successful write of a run. *)
Definition written (evs : list Event) : option Workbook :=
  fold_left (fun acc e => match e with
                          | EvWrite wb true => Some wb
                          | _ => acc
                          end) evs None.

Definition sheet_columns (wb : option Workbook) : list (list date_t) :=
  match wb with
  | Some sheets => map (fun e => columns (snd e)) sheets
  | None => []
  end.

Definition is_write (e : Event) : bool :=
  match e with EvWrite _ _ => true | _ => false end.

Definition is_wsd (e : Event) : bool :=
  match e with EvWsd _ => true | _ => false end.

End Monitor.

(** ** get_history_premium_data.py *)

Module History.

Section Statistics.

(** The square root of the float library, the one operation of the
    aggregation that leaves the rationals; what is assumed of it is
    [sqrt_like], stated with the properties. *)
Variable fsqrt : fval -> fval.

Definition group_key_t : Type := string * string * string.

Definition group_key (r : PriceObservation) : group_key_t :=
  (stock_name r, A_stock_code r, H_stock_code r).

Definition group_eqb (k1 k2 : group_key_t) : bool :=
  String.eqb (fst (fst k1)) (fst (fst k2))
  && String.eqb (snd (fst k1)) (snd (fst k2))
  && String.eqb (snd k1) (snd k2).

(** The order [groupby] sorts its keys by. *)
Definition group_leb (k1 k2 : group_key_t) : bool :=
  match String.compare (fst (fst k1)) (fst (fst k2)) with
  | Lt => true
  | Gt => false
  | Eq =>
      match String.compare (snd (fst k1)) (snd (fst k2)) with
      | Lt => true
      | Gt => false
      | Eq => String.leb (snd k1) (snd k2)
      end
  end.

(** A finite number or a null: the cells on which the order statistics are
    plain arithmetic. *)
Definition finite_or_null (v : fval) : bool :=
  match v with Inf _ => false | _ => true end.

(** The non-null values of a group in increasing order. *)
Definition sorted_values (l : list fval) : list fval :=
  sort_values fleb (dropna l).

(** ['median']: the middle value, or the mean of the two middle ones. *)
Definition median (l : list fval) : fval :=
  let xs := sorted_values l in
  let n := List.length xs in
  match n with
  | O => NaN
  | _ =>
      if Nat.odd n then nth (n / 2) xs NaN
      else fdiv (fadd (nth (n / 2 - 1) xs NaN) (nth (n / 2) xs NaN)) (of_Z 2)
  end.

(** [x.quantile(q)] with the default linear interpolation, as the array
    library's [percentile] computes it: at position [(n - 1) * q], between
    the two neighbouring order statistics [a] and [b], it is
    [a + (b - a) * t] below half-way and [b - (b - a) * (1 - t)] from
    half-way on. *)
Definition quantile (q : Qc) (l : list fval) : fval :=
  let xs := sorted_values l in
  let n := List.length xs in
  match n with
  | O => NaN
  | _ =>
      let pos := (Q2Qc (inject_Z (Z.of_nat (n - 1))) * q)%Qc in
      let lo := Z.to_nat (Qfloor pos) in
      let hi := Nat.min (lo + 1) (n - 1) in
      let t := (pos - Q2Qc (inject_Z (Qfloor pos)))%Qc in
      let a := nth lo xs NaN in
      let b := nth hi xs NaN in
      let diff_b_a := fsub b a in
      if Qc_leb (Q2Qc (1 # 2)) t
      then fsub b (fmul diff_b_a (Num (1 - t)))
      else fadd a (fmul diff_b_a (Num t))
  end.

Definition fmin (l : list fval) : fval :=
  match dropna l with
  | [] => NaN
  | x :: rest => fold_left (fun m y => if fleb y m then y else m) rest x
  end.

Definition fmax (l : list fval) : fval :=
  match dropna l with
  | [] => NaN
  | x :: rest => fold_left (fun m y => if fleb m y then y else m) rest x
  end.

(** The sample variance (divisor [n - 1]); null below two values. *)
Definition variance (l : list fval) : fval :=
  let xs := dropna l in
  let n := List.length xs in
  if (n <? 2)%nat then NaN
  else
    let m := mean xs in
    fdiv (fsum (map (fun x => fmul (fsub x m) (fsub x m)) xs))
         (of_nat (n - 1)).

(** ['std']. *)
Definition std (l : list fval) : fval :=
  match variance l with
  | NaN => NaN
  | v => fsqrt v
  end.

Record StatSummary : Type := mkStat {
  stat_stock_name : string;
  stat_A_stock_code : string;
  stat_H_stock_code : string;
  premium_mean : fval;
  premium_median : fval;
  premium_min : fval;
  premium_max : fval;
  premium_p5 : fval;
  premium_p95 : fval;
  premium_std : fval
}.

Definition stat_key (s : StatSummary) : group_key_t :=
  (stat_stock_name s, stat_A_stock_code s, stat_H_stock_code s).

(** The premiums of the rows of one group. *)
Definition group_premiums (df : LongTable) (k : group_key_t) : list fval :=
  map HA_premium_rate (filter (fun r => group_eqb (group_key r) k) df).

Definition summarize (df : LongTable) (k : group_key_t) : StatSummary :=
  let x := group_premiums df k in
  {| stat_stock_name := fst (fst k);
     stat_A_stock_code := snd (fst k);
     stat_H_stock_code := snd k;
     premium_mean := mean x;
     premium_median := median x;
     premium_min := fmin x;
     premium_max := fmax x;
     premium_p5 := quantile (Q2Qc (5 # 100)) x;
     premium_p95 := quantile (Q2Qc (95 # 100)) x;
     premium_std := std x |}.

(** [calculate_premium_statistics(premium_df)]; [None] is Python's [None],
    the empty list both the empty input and the empty result. *)
Definition calculate_premium_statistics (premium_df : option LongTable)
  : list StatSummary :=
  match premium_df with
  | None => []
  | Some [] => []
  | Some df =>
      map (summarize df) (sort_uniq group_leb group_eqb (map group_key df))
  end.

End Statistics.

End History.

(** ** get_ah_premium_data.py: the stock pool *)

Module StockPool.

(** The object [w.wset] returns: [Data] has one list per field. *)
Record WsetData : Type := mkWset {
  ws_ErrorCode : Z;
  ws_Fields : list string;
  ws_Data : list (list string)
}.

(** The object [w.wss] returns; a code without a paired A share has a null. *)
Record WssData : Type := mkWss {
  wss_ErrorCode : Z;
  wss_Data : list (list (option string))
}.

Inductive Query : Type :=
| QTdays (day : date_t)
| QWset (day : date_t) (sectorid : string)
| QWss (codes : list string).

(** The terminal as the function meets it: whether the session comes up, and
    its answers. *)
Record Terminal : Type := mkTerminal {
  connects : bool;
  tdaysoffset : date_t -> Monitor.TdaysData;
  wset : date_t -> string -> WsetData;
  wss : list string -> WssData
}.

Definition AH_SECTOR : string := "a002010600000000".

Definition CONNECT_SECTOR : string := "1000014939000000".

(** [pd.DataFrame(d.Data, index=d.Fields).T] as its named columns.  Without
    a cell (no list, or empty lists only) every field is an empty column; as
    many lists as fields give one column each; a single list is repeated
    under every field; any other number of lists makes the constructor raise
    ([None]).  The lists are taken of one length, as the terminal returns
    them (pandas fills shorter ones with nulls). *)
Definition frame (d : WsetData) : option (list (string * list string)) :=
  if forallb (fun l : list string => match l with [] => true | _ => false end)
             (ws_Data d)
  then Some (map (fun f => (f, [])) (ws_Fields d))
  else if (List.length (ws_Data d) =? List.length (ws_Fields d))%nat
       then Some (combine (ws_Fields d) (ws_Data d))
       else
         match ws_Data d with
         | [l] => Some (map (fun f => (f, l)) (ws_Fields d))
         | _ => None
         end.

Definition column (name : string) (df : list (string * list string))
  : option (list string) :=
  match find (fun c : string * list string => String.eqb (fst c) name) df with
  | Some c => Some (snd c)
  | None => None
  end.

(** A row of [final_df]. *)
Record PoolRow : Type := mkRow {
  row_H_stock_code : string;
  row_A_stock_code : option string;
  row_stock_name : option string
}.

(** [sorted(list(a.intersection(b)))] on the two code columns. *)
Definition intersection (ah_codes shhk_codes : list string) : list string :=
  sort_uniq String.leb String.eqb
            (filter (fun c => mem String.eqb c shhk_codes) ah_codes).

(** [pd.merge(temp_df, name_map_df, on='H_stock_code', how='left')] and the
    column selection. *)
Definition merge_names (temp_df : list (string * option string))
           (name_map_df : list (string * string)) : list PoolRow :=
  flat_map (fun ha : string * option string =>
              match filter (fun cn : string * string =>
                              String.eqb (fst cn) (fst ha)) name_map_df with
              | [] => [mkRow (fst ha) (snd ha) None]
              | ms => map (fun cn : string * string =>
                             mkRow (fst ha) (snd ha) (Some (snd cn))) ms
              end)
           temp_df.

(** [final_df.dropna(subset=['A_stock_code'])]. *)
Definition has_A_code (r : PoolRow) : bool :=
  match row_A_stock_code r with Some _ => true | None => false end.

(** Steps 5 and 6, once both membership lists are in. *)
Definition assemble (t : Terminal) (ah_df : list (string * list string))
           (ah_codes intersection_codes : list string) (asked : list Query)
  : outcome (list PoolRow) * list Query :=
  let stock_info_data := wss t intersection_codes in
  let asked := asked ++ [QWss intersection_codes] in
  if negb (wss_ErrorCode stock_info_data =? 0) then (Returned [], asked)
  else
    match wss_Data stock_info_data with
    | [] => (Raised, asked)
    | a_codes :: _ =>
        if negb (List.length a_codes =? List.length intersection_codes)%nat
        then (Raised, asked)
        else
          match column "sec_name" ah_df with
          | None => (Raised, asked)
          | Some names =>
              let temp_df := combine intersection_codes a_codes in
              let name_map_df := combine ah_codes names in
              let final_df := merge_names temp_df name_map_df in
              (Returned (filter has_A_code final_df), asked)
          end
    end.

(** [get_ah_shhk_connect_stocks()], with the day it runs on: the pool, or
    the exception that escapes, and the queries asked, in order. *)
Definition get_ah_shhk_connect_stocks (t : Terminal) (today_str : date_t)
  : outcome (list PoolRow) * list Query :=
  if negb (connects t) then (Returned [], [])
  else
    let trade_day_data := tdaysoffset t today_str in
    let asked := [QTdays today_str] in
    if negb (Monitor.td_ErrorCode trade_day_data =? 0) then (Returned [], asked)
    else
      match Monitor.td_Data trade_day_data with
      | (latest_trade_day :: _) :: _ =>
          let ah_stocks_data := wset t latest_trade_day AH_SECTOR in
          let asked := asked ++ [QWset latest_trade_day AH_SECTOR] in
          if negb (ws_ErrorCode ah_stocks_data =? 0) then (Returned [], asked)
          else
            match frame ah_stocks_data with
            | None => (Raised, asked)
            | Some ah_df =>
                match column "wind_code" ah_df with
                | None => (Returned [], asked)
                | Some ah_codes =>
                    let shhk_connect_data :=
                      wset t latest_trade_day CONNECT_SECTOR in
                    let asked :=
                      asked ++ [QWset latest_trade_day CONNECT_SECTOR] in
                    if negb (ws_ErrorCode shhk_connect_data =? 0)
                    then (Returned [], asked)
                    else
                      match frame shhk_connect_data with
                      | None => (Raised, asked)
                      | Some shhk_df =>
                          match column "wind_code" shhk_df with
                          | None => (Returned [], asked)
                          | Some shhk_codes =>
                              match intersection ah_codes shhk_codes with
                              | [] => (Returned [], asked)
                              | codes => assemble t ah_df ah_codes codes asked
                              end
                          end
                      end
                end
            end
      | _ => (Raised, asked)
      end.

Definition rows_of (res : outcome (list PoolRow)) : list PoolRow :=
  match res with
  | Returned df => df
  | Raised => []
  end.

End StockPool.

(** ** get_history_premium_data.py: the analysis run *)

Module Analysis.

Section Run.

Variable fsqrt : fval -> fval.

(** What the run is given. *)
Record Inputs : Type := mkInputs {
  stock_pool : list StockPoolEntry;
  WIND_AVAILABLE : bool;
  wsd : Provider;
  today : date_t;
  disk_writable : bool
}.

Inductive Event : Type :=
| EvWsd (q : WsdQuery)
| EvWrite (summary : list History.StatSummary) (details : LongTable)
          (succeeded : bool).

Inductive Exit : Type :=
| NoStockPool
| NoDetails
| NoStatistics
| Saved
| SaveFailed
| Crashed.

(** "2024-01-01". *)
Definition START_DATE : date_t := 738886.

(** [main()]: how the run ends and what it did to the outside.  A write
    holds the two sheets, the summary and the detailed data. *)
Definition main (i : Inputs) : Exit * list Event :=
  match stock_pool i with
  | [] => (NoStockPool, [])
  | _ =>
      let '(res, queries) :=
        Fetcher.get_ah_premium_data (WIND_AVAILABLE i) (wsd i)
                                    (Some (stock_pool i))
                                    START_DATE (Some (today i)) in
      let evs := map EvWsd queries in
      match res with
      | Raised => (Crashed, evs)
      | Returned [] => (NoDetails, evs)
      | Returned premium_details =>
          match History.calculate_premium_statistics
                  fsqrt (Some premium_details) with
          | [] => (NoStatistics, evs)
          | premium_stats =>
              if disk_writable i
              then (Saved, evs ++ [EvWrite premium_stats premium_details true])
              else (SaveFailed,
                    evs ++ [EvWrite premium_stats premium_details false])
          end
      end
  end.

End Run.

End Analysis.

(** ** Orders and shapes used in the statements *)

(** Rows in the order of [sort_values(by=['date', 'stock_name'])]. *)
Definition date_name_le (r s : PriceObservation) : Prop :=
  date r < date s \/
  (date r = date s /\ String.leb (stock_name r) (stock_name s) = true).

(** A wide table whose cells form a rectangle under its labels. *)
Definition rectangular (t : Monitor.WideReportTable) : Prop :=
  List.length (Monitor.values t) = List.length (Monitor.index t) /\
  Forall (fun row => List.length row = List.length (Monitor.columns t))
         (Monitor.values t).

(** Sheets whose stock labels and whose date labels are pairwise distinct.
    Such a sheet is read back as it was saved; on a repeated header cell
    pandas makes up a new label, which is no date. *)
Definition distinct_labels (wb : Monitor.Workbook) : Prop :=
  Forall (fun e : Monitor.Sheet * Monitor.WideReportTable =>
            NoDup (Monitor.index (snd e)) /\ NoDup (Monitor.columns (snd e)))
         wb.

(** The events of a run that ask for prices or write the report. *)
Definition price_or_write (e : Monitor.Event) : bool :=
  Monitor.is_wsd e || Monitor.is_write e.

(** Finite cells: neither null nor infinite. *)
Definition finite (v : fval) : bool :=
  match v with Num _ => true | _ => false end.

(** ** The statistics in the words of the specification, on plain numbers *)

Module Spec.

(** The premiums of the rows of one (stock_name, A code, H code) group, in
    the order of the table. *)
Definition premiums_of (df : LongTable) (name a_code h_code : string)
  : list fval :=
  map HA_premium_rate
      (filter (fun r => String.eqb (stock_name r) name
                        && String.eqb (A_stock_code r) a_code
                        && String.eqb (H_stock_code r) h_code) df).






End Spec.




(** The (stock_name, date) of a joined row, the key of the later pivot. *)
Definition name_date (m : Fetcher.MergedA) : string * date_t :=
  (pool_stock_name (Fetcher.ma_entry m), Fetcher.ma_date m).

(** ** Sample inputs *)

Module Samples.
Import Monitor.

Definition sample_pool : list StockPoolEntry := [mkPool "H1" "A1" "X"].

(** A provider that answers every query with two days starting at the
    query's start date.  On days of even ordinal A1 closes at 100 and H1 at
    120, on the others A1 at 0 and H1 at 5; the FX fixing is always 0.9. *)
Definition sample_A_close (t : date_t) : fval :=
  if Z.even t then of_Z 100 else of_Z 0.

Definition sample_H_close (t : date_t) : fval :=
  if Z.even t then of_Z 120 else of_Z 5.

Definition sample_provider : Provider :=
  fun q =>
    let times := [q_start q; q_start q + 1] in
    if Fetcher.isin Fetcher.exchange_rate_code (q_codes q)
    then mkWsd 0 [Fetcher.exchange_rate_code] times
               [map (fun _ => of_Q (9 # 10)) times]
    else mkWsd 0 ["A1"; "H1"]%string times
               [map sample_A_close times; map sample_H_close times].

Definition sample_long : LongTable :=
  Fetcher.rows_of
    (fst (Fetcher.get_ah_premium_data true sample_provider (Some sample_pool)
                                      10 (Some 11))).

Definition null_row : PriceObservation :=
  mkObs 0 "" "" "" NaN NaN NaN NaN.

Definition sample_row : PriceObservation := hd null_row sample_long.

(** A saved sheet with the columns 2024-04-24 and 2024-04-25. *)
Definition sample_old_table : WideReportTable :=
  mkWide ["X"%string] [739000; 739001] [[of_Q (1 # 10); of_Q (2 # 10)]].

Definition sample_workbook : Workbook :=
  map (fun s => (s, sample_old_table)) SHEET_NAMES.

(** A report file whose first sheet reads and whose second is missing. *)
Definition sample_damaged_workbook : Workbook :=
  [(PremiumSheet, sample_old_table)].

(** A provider whose every query fails. *)
Definition failing_provider : Provider :=
  fun _ => mkWsd (-40520007) [] [] [].

Definition sample_world (file : option Workbook) (latest : date_t) : World :=
  {| stock_pool_result := sample_pool;
     report_file := file;
     today := 739003;
     WIND_AVAILABLE := true;
     tdaysoffset := fun _ => mkTdays 0 [[latest]];
     wsd := sample_provider;
     disk_writable := true |}.

Definition priced (name : string) (d : date_t) (a : Z) : PriceObservation :=
  mkObs d name "A" "H" (of_Z a) (of_Z 1) (of_Z 1) (of_Z 0).

(** Stock B quoted on days 1 and 2, stock A from day 2 on. *)
Definition late_listing_long : LongTable :=
  [priced "B" 1 1; priced "A" 2 2; priced "B" 2 3].

(** Stocks X and Y quoted on day 1, X alone on day 2. *)
Definition steady_long : LongTable :=
  [priced "X" 1 1; priced "Y" 1 2; priced "X" 2 3].

(** Five days of one stock with premiums 0.1, 0.2, 0.3, 0.4, 0.5. *)
Definition five_premiums : LongTable :=
  map (fun dq : date_t * Q =>
         mkObs (fst dq) "X" "A1" "H1" (of_Z 1) (of_Z 1) (of_Z 1) (of_Q (snd dq)))
      [(1, (1 # 10)%Q); (2, (2 # 10)%Q); (3, (3 # 10)%Q); (4, (4 # 10)%Q);
       (5, (5 # 10)%Q)].

Definition null_summary : History.StatSummary :=
  History.mkStat "" "" "" NaN NaN NaN NaN NaN NaN NaN.

End Samples.

(** ** More sample inputs *)

Module Fixtures.

(** A terminal with three AH constituents and three Connect constituents,
    two of them common; it pairs 0939.HK with an A share and 1398.HK with
    none. *)
Definition sample_wset (sectorid : string) : StockPool.WsetData :=
  if String.eqb sectorid StockPool.AH_SECTOR
  then StockPool.mkWset 0 ["date"; "wind_code"; "sec_name"]%string
         [["2024-04-26"; "2024-04-26"; "2024-04-26"];
          ["1398.HK"; "0005.HK"; "0939.HK"];
          ["ICBC"; "HSBC"; "CCB"]]%string
  else StockPool.mkWset 0 ["date"; "wind_code"; "sec_name"]%string
         [["2024-04-26"; "2024-04-26"; "2024-04-26"];
          ["0939.HK"; "0700.HK"; "1398.HK"];
          ["CCB"; "TENCENT"; "ICBC"]]%string.

Definition sample_pairing (code : string) : option string :=
  if String.eqb code "0939.HK" then Some "601939.SH"%string else None.

Definition sample_terminal : StockPool.Terminal :=
  {| StockPool.connects := true;
     StockPool.tdaysoffset := fun _ => Monitor.mkTdays 0 [[739002]];
     StockPool.wset := fun _ sectorid => sample_wset sectorid;
     StockPool.wss := fun codes =>
                        StockPool.mkWss 0 [map sample_pairing codes] |}.

(** The same terminal answering the trading-day query without a date. *)
Definition dateless_terminal : StockPool.Terminal :=
  {| StockPool.connects := true;
     StockPool.tdaysoffset := fun _ => Monitor.mkTdays 0 [];
     StockPool.wset := fun _ sectorid => sample_wset sectorid;
     StockPool.wss := fun codes =>
                        StockPool.mkWss 0 [map sample_pairing codes] |}.

(** The sample terminal answering the AH query with a single list, the
    codes, under the three fields. *)
Definition repeating_terminal : StockPool.Terminal :=
  {| StockPool.connects := true;
     StockPool.tdaysoffset := fun _ => Monitor.mkTdays 0 [[739002]];
     StockPool.wset :=
       fun _ sectorid =>
         if String.eqb sectorid StockPool.AH_SECTOR
         then StockPool.mkWset 0 ["date"; "wind_code"; "sec_name"]%string
                               [["1398.HK"; "0939.HK"]]%string
         else sample_wset sectorid;
     StockPool.wss := fun codes =>
                        StockPool.mkWss 0 [map sample_pairing codes] |}.





End Fixtures.

(** * Properties *)

(** ** Float cells *)

Lemma Qc_eqb_eq (x y : Qc) : Qc_eqb x y = true <-> x = y.
Proof.
  unfold Qc_eqb. rewrite Qeq_bool_iff. split.
  - apply Qc_is_canon.
  - intros ->. reflexivity.
Qed.

Lemma Qc_eqb_refl (x : Qc) : Qc_eqb x x = true.
Proof. now apply Qc_eqb_eq. Qed.

Lemma fval_eqb_eq (a b : fval) : fval_eqb a b = true <-> a = b.
Proof.
  destruct a as [|s|p], b as [|t|q]; simpl; try (split; [discriminate|congruence]).
  - tauto.
  - rewrite Bool.eqb_true_iff. split; congruence.
  - rewrite Qc_eqb_eq. split; congruence.
Qed.

(** Closed equations between cells: evaluate, then compare the rationals. *)
Ltac fval_eq := apply fval_eqb_eq; vm_compute; reflexivity.

Lemma isnull_true (v : fval) : isnull v = true <-> v = NaN.
Proof. destruct v; simpl; split; congruence. Qed.

Lemma notnull_true (v : fval) : notnull v = true <-> v <> NaN.
Proof.
  destruct v; unfold notnull; simpl; split; try congruence; intros H; now elim H.
Qed.

Lemma Qc_over_one (q : Qc) :
  ((Q2Qc (inject_Z 0) + q) / Q2Qc (inject_Z 1))%Qc = q.
Proof.
  change (Q2Qc (inject_Z 1)) with 1%Qc. change (Q2Qc (inject_Z 0)) with 0%Qc.
  unfold Qcdiv. rewrite Qcplus_0_l.
  replace (/ 1)%Qc with 1%Qc by (apply Qc_is_canon; reflexivity).
  apply Qcmult_1_r.
Qed.

(** The mean of a single value is that value. *)
Lemma mean_single (x : fval) : mean [x] = x.
Proof.
  destruct x as [|s|q]; unfold mean, dropna; simpl; try reflexivity.
  - unfold Qc_ltb. now destruct s.
  - unfold fsum, of_nat, of_Z. cbn [fold_left fadd List.length fdiv Z.of_nat].
    f_equal. apply Qc_over_one.
Qed.

(** ** Sorted labels *)

Section SortingFacts.
Context {A : Type}.
Variable leb : A -> A -> bool.
Variable eqb : A -> A -> bool.
Hypothesis eqb_spec : forall x y, eqb x y = true <-> x = y.
Hypothesis leb_total : forall x y, leb x y = true \/ leb y x = true.
Hypothesis leb_trans : forall x y z, leb x y = true -> leb y z = true -> leb x z = true.
Hypothesis leb_antisym : forall x y, leb x y = true -> leb y x = true -> x = y.

Lemma slt_trans x y z : slt leb x y -> slt leb y z -> slt leb x z.
Proof.
  intros [Hxy Nxy] [Hyz Nyz]. split; [eauto|].
  intros ->. apply Nxy. now apply leb_antisym.
Qed.

Lemma slt_irrefl x : ~ slt leb x x.
Proof. intros [_ H]. now apply H. Qed.

Lemma In_insert_sorted x y l :
  In y (insert_sorted leb x l) <-> y = x \/ In y l.
Proof.
  induction l as [|z l IH]; simpl.
  - intuition.
  - destruct (leb x z); simpl; rewrite ?IH; intuition.
Qed.

Lemma In_sort_values y l : In y (sort_values leb l) <-> In y l.
Proof.
  induction l as [|x l IH]; simpl; [tauto|].
  rewrite In_insert_sorted, IH. intuition.
Qed.

Lemma insert_sorted_perm x l : Permutation (x :: l) (insert_sorted leb x l).
Proof.
  induction l as [|z l IH]; simpl; [reflexivity|].
  destruct (leb x z); [reflexivity|].
  rewrite perm_swap. now constructor.
Qed.

Lemma sort_values_perm l : Permutation l (sort_values leb l).
Proof.
  induction l as [|x l IH]; simpl; [constructor|].
  rewrite <- insert_sorted_perm. now constructor.
Qed.

Lemma sort_values_length l : List.length (sort_values leb l) = List.length l.
Proof. symmetry. apply Permutation_length, sort_values_perm. Qed.

Lemma insert_sorted_sorted x l :
  StronglySorted (le_rel leb) l -> StronglySorted (le_rel leb) (insert_sorted leb x l).
Proof.
  induction 1 as [|z l Hs IH Hz]; simpl.
  - repeat constructor.
  - destruct (leb x z) eqn:E.
    + constructor; [now constructor|].
      constructor; [exact E|].
      rewrite Forall_forall in *. intros u Hu.
      apply leb_trans with z; [exact E|]. now apply Hz.
    + constructor; [exact IH|].
      rewrite Forall_forall in *. intros u Hu.
      apply In_insert_sorted in Hu. destruct Hu as [->|Hu]; [|auto].
      destruct (leb_total x z) as [H|H]; [congruence|exact H].
Qed.

Lemma sort_values_sorted l : StronglySorted (le_rel leb) (sort_values leb l).
Proof.
  induction l; simpl; [constructor|]. now apply insert_sorted_sorted.
Qed.

Lemma In_insert_uniq x y l :
  In y (insert_uniq leb eqb x l) <-> y = x \/ In y l.
Proof.
  induction l as [|z l IH]; simpl.
  - intuition.
  - destruct (eqb x z) eqn:E.
    + apply eqb_spec in E. subst. simpl. intuition.
    + destruct (leb x z); simpl; rewrite ?IH; intuition.
Qed.

Lemma In_sort_uniq y l : In y (sort_uniq leb eqb l) <-> In y l.
Proof.
  induction l as [|x l IH]; simpl; [tauto|].
  rewrite In_insert_uniq, IH. intuition.
Qed.

Lemma insert_uniq_sorted x l :
  StronglySorted (slt leb) l -> StronglySorted (slt leb) (insert_uniq leb eqb x l).
Proof.
  induction 1 as [|z l Hs IH Hz]; simpl.
  - repeat constructor.
  - destruct (eqb x z) eqn:E; [now constructor|].
    assert (x <> z) as Nxz by (intros H; apply eqb_spec in H; congruence).
    destruct (leb x z) eqn:L.
    + constructor; [now constructor|].
      constructor; [now split|].
      rewrite Forall_forall in *. intros u Hu.
      apply slt_trans with z; [now split|auto].
    + constructor; [exact IH|].
      rewrite Forall_forall in *. intros u Hu.
      apply In_insert_uniq in Hu. destruct Hu as [->|Hu]; [|auto].
      split; [|congruence].
      destruct (leb_total x z) as [H|H]; [congruence|exact H].
Qed.

Lemma sort_uniq_sorted l : StronglySorted (slt leb) (sort_uniq leb eqb l).
Proof.
  induction l; simpl; [constructor|]. now apply insert_uniq_sorted.
Qed.

Lemma strictly_sorted_NoDup l : StronglySorted (slt leb) l -> NoDup l.
Proof.
  induction 1 as [|x l Hs IH Hx]; constructor; [|exact IH].
  intros Hin. rewrite Forall_forall in Hx.
  exact (slt_irrefl _ (Hx _ Hin)).
Qed.

Lemma sort_uniq_NoDup l : NoDup (sort_uniq leb eqb l).
Proof. apply strictly_sorted_NoDup, sort_uniq_sorted. Qed.

(** Two strictly increasing lists with the same elements are equal. *)
Lemma strictly_sorted_unique l1 :
  forall l2, StronglySorted (slt leb) l1 -> StronglySorted (slt leb) l2 ->
             (forall x, In x l1 <-> In x l2) -> l1 = l2.
Proof.
  induction l1 as [|a l1 IH]; intros [|b l2] H1 H2 Heq.
  - reflexivity.
  - exfalso. apply (proj2 (Heq b)). now left.
  - exfalso. apply (proj1 (Heq a)). now left.
  - apply StronglySorted_inv in H1. destruct H1 as [S1 F1].
    apply StronglySorted_inv in H2. destruct H2 as [S2 F2].
    rewrite Forall_forall in F1, F2.
    assert (a = b) as ->.
    { destruct (proj1 (Heq a) (or_introl eq_refl)) as [E|Ha]; [now subst|].
      destruct (proj2 (Heq b) (or_introl eq_refl)) as [E|Hb]; [now subst|].
      exfalso. apply (slt_irrefl a).
      apply slt_trans with b; auto. }
    f_equal. apply IH; auto.
    intros x. split; intros Hx.
    + destruct (proj1 (Heq x) (or_intror Hx)) as [E|H]; [|exact H].
      subst. exfalso. exact (slt_irrefl _ (F1 _ Hx)).
    + destruct (proj2 (Heq x) (or_intror Hx)) as [E|H]; [|exact H].
      subst. exfalso. exact (slt_irrefl _ (F2 _ Hx)).
Qed.

Lemma sort_uniq_ext l1 l2 :
  (forall x, In x l1 <-> In x l2) ->
  sort_uniq leb eqb l1 = sort_uniq leb eqb l2.
Proof.
  intros H. apply strictly_sorted_unique; try apply sort_uniq_sorted.
  intros x. now rewrite !In_sort_uniq.
Qed.

Lemma strictly_sorted_app l1 l2 :
  StronglySorted (slt leb) l1 -> StronglySorted (slt leb) l2 ->
  (forall x y, In x l1 -> In y l2 -> slt leb x y) ->
  StronglySorted (slt leb) (l1 ++ l2).
Proof.
  induction 1 as [|a l1 Hs IH Ha]; intros H2 Hlt; simpl; [exact H2|].
  constructor.
  - apply IH; [exact H2 | intros x y Hx Hy; apply Hlt; [now right|exact Hy]].
  - rewrite Forall_forall in *. intros u Hu. apply in_app_or in Hu.
    destruct Hu as [Hu|Hu]; [auto|]. apply Hlt; [now left|exact Hu].
Qed.

(** Labels sorted in two batches, the first entirely below the second. *)
Lemma sort_uniq_split l l1 l2 :
  (forall x, In x l <-> In x l1 \/ In x l2) ->
  (forall x y, In x l1 -> In y l2 -> slt leb x y) ->
  sort_uniq leb eqb l = sort_uniq leb eqb l1 ++ sort_uniq leb eqb l2.
Proof.
  intros Hin Hlt. apply strictly_sorted_unique.
  - apply sort_uniq_sorted.
  - apply strictly_sorted_app; try apply sort_uniq_sorted.
    intros x y Hx Hy. apply Hlt; [exact (proj1 (In_sort_uniq x l1) Hx)|].
    exact (proj1 (In_sort_uniq y l2) Hy).
  - intros x. rewrite in_app_iff, !In_sort_uniq. apply Hin.
Qed.

End SortingFacts.

(** ** The orders on labels *)

Lemma string_compare_refl (a : string) : String.compare a a = Eq.
Proof. now apply OrderedTypeEx.String_as_OT.cmp_eq. Qed.

Lemma string_compare_lt_trans (a b c : string) :
  String.compare a b = Lt -> String.compare b c = Lt -> String.compare a c = Lt.
Proof.
  intros H1 H2. apply OrderedTypeEx.String_as_OT.cmp_lt.
  apply OrderedTypeEx.String_as_OT.cmp_lt in H1.
  apply OrderedTypeEx.String_as_OT.cmp_lt in H2.
  exact (OrderedTypeEx.String_as_OT.lt_trans _ _ _ H1 H2).
Qed.

Lemma string_compare_gt (a b : string) :
  String.compare a b = Gt <-> String.compare b a = Lt.
Proof.
  rewrite (String.compare_antisym a b).
  destruct (String.compare b a); simpl; split; congruence.
Qed.

Lemma string_leb_iff (a b : string) :
  String.leb a b = true <-> String.compare a b = Lt \/ a = b.
Proof.
  unfold String.leb. destruct (String.compare a b) eqn:E.
  - apply String.compare_eq_iff in E. intuition.
  - intuition.
  - split; [discriminate|]. intros [H|H]; [discriminate|].
    subst. rewrite string_compare_refl in E. discriminate.
Qed.

Lemma string_leb_trans (a b c : string) :
  String.leb a b = true -> String.leb b c = true -> String.leb a c = true.
Proof.
  rewrite !string_leb_iff. intros [H1 | ->] [H2 | ->]; auto.
  left. eapply string_compare_lt_trans; eauto.
Qed.

Lemma Z_leb_total (x y : Z) : (x <=? y) = true \/ (y <=? x) = true.
Proof. rewrite !Z.leb_le. lia. Qed.

Lemma Z_leb_trans (x y z : Z) :
  (x <=? y) = true -> (y <=? z) = true -> (x <=? z) = true.
Proof. rewrite !Z.leb_le. lia. Qed.

Lemma Z_leb_antisym (x y : Z) : (x <=? y) = true -> (y <=? x) = true -> x = y.
Proof. rewrite !Z.leb_le. lia. Qed.

(** ** The fetcher *)

Import Fetcher.

Lemma integrate_rows pool price_data fx r :
  In r (integrate pool price_data fx) ->
  complete r = true /\
  HA_premium_rate r = premium (A_price r) (H_price r) (exchange_rate r).
Proof.
  unfold integrate. intros H.
  apply In_sort_values in H. apply filter_In in H. destruct H as [H Hc].
  split; [exact Hc|].
  apply in_map_iff in H. destruct H as [x [<- _]]. reflexivity.
Qed.

Lemma fetcher_rows avail w pool start_date end_date r :
  In r (rows_of (fst (get_ah_premium_data avail w pool start_date end_date))) ->
  complete r = true /\
  HA_premium_rate r = premium (A_price r) (H_price r) (exchange_rate r).
Proof.
  unfold get_ah_premium_data.
  destruct (negb avail); [intros []|].
  destruct pool as [[|e pool]|]; try (intros []).
  destruct (failed _); [intros []|].
  destruct (frame _); [|intros []].
  destruct (failed _); [intros []|].
  destruct (frame _); [|intros []].
  destruct (exchange_rate_column _); [|intros []].
  simpl. apply integrate_rows.
Qed.

(** C1: in every row the fetcher returns, the A-share price is not null;
    the premium is null when that price is zero and otherwise equals
    H_price / fx_rate / A_price - 1.  The guard nulls the premium for a null
    or zero A-share price whatever the other fields are.  For A_price = 100,
    H_price = 120 and fx_rate = 0.9 the premium is 1/3. *)
Theorem premium_of_fetched_rows :
  (forall avail w pool start_date end_date r,
      In r (rows_of (fst (get_ah_premium_data avail w pool start_date end_date))) ->
      isnull (A_price r) = false /\
      (is_zero (A_price r) = true -> HA_premium_rate r = NaN) /\
      (is_zero (A_price r) = false ->
       HA_premium_rate r =
       fsub (fdiv (fdiv (H_price r) (exchange_rate r)) (A_price r)) (of_Z 1)))
  /\ (forall a h fx,
         isnull a = true \/ is_zero a = true -> premium a h fx = NaN)
  /\ premium (of_Z 100) (of_Z 120) (of_Q (9 # 10)) = of_Q (1 # 3)
  /\ (forall h fx, premium (of_Z 0) h fx = NaN).
Proof.
  split; [|split; [|split]].
  - intros avail w pool s e r Hin.
    destruct (fetcher_rows _ _ _ _ _ _ Hin) as [Hc Hp].
    unfold complete in Hc. apply andb_prop in Hc. destruct Hc as [Hc _].
    apply andb_prop in Hc. destruct Hc as [Ha _].
    unfold notnull in Ha. apply negb_true_iff in Ha.
    split; [exact Ha|]. rewrite Hp. unfold premium. rewrite Ha. simpl.
    split; intros ->; reflexivity.
  - intros a h fx [H|H]; unfold premium; rewrite H; [reflexivity|].
    now rewrite orb_true_r.
  - fval_eq.
  - intros h fx. reflexivity.
Qed.

(** C10: with no pool ([None]) or an empty one, the fetcher returns the
    empty table and has issued no query, whatever the dates. *)
Theorem empty_pool_no_query :
  forall avail w pool start_date end_date,
    pool = None \/ pool = Some [] ->
    get_ah_premium_data avail w pool start_date end_date = (Returned [], []).
Proof.
  intros avail w pool s e [-> | ->]; unfold get_ah_premium_data;
    destruct (negb avail); reflexivity.
Qed.

(** Witness of [premium_of_fetched_rows]: the first row of a sample fetch. *)
Lemma premium_of_fetched_rows_witness :
  In Samples.sample_row Samples.sample_long /\
  isnull (A_price Samples.sample_row) = false /\
  (is_zero (A_price Samples.sample_row) = true ->
   HA_premium_rate Samples.sample_row = NaN) /\
  (is_zero (A_price Samples.sample_row) = false ->
   HA_premium_rate Samples.sample_row =
   fsub (fdiv (fdiv (H_price Samples.sample_row)
                    (exchange_rate Samples.sample_row))
              (A_price Samples.sample_row)) (of_Z 1)).
Proof.
  assert (In Samples.sample_row Samples.sample_long) as H
      by (vm_compute; left; reflexivity).
  split; [exact H|].
  exact (proj1 premium_of_fetched_rows true Samples.sample_provider
               (Some Samples.sample_pool) 10 (Some 11) Samples.sample_row H).
Defined.

(** Witness of [empty_pool_no_query]: the call with [None]. *)
Lemma empty_pool_no_query_witness :
  get_ah_premium_data true Samples.sample_provider None 10 None
  = (Returned [], []).
Proof.
  apply (empty_pool_no_query true Samples.sample_provider None 10 None).
  left. reflexivity.
Defined.

(** ** The monitor run *)

Import Monitor.

Lemma fetcher_queries_start avail w pool start_date end_date q :
  In q (snd (get_ah_premium_data avail w pool start_date end_date)) ->
  q_start q = start_date.
Proof.
  unfold get_ah_premium_data.
  destruct (negb avail); [intros []|].
  destruct pool as [[|e pool]|]; try (intros []).
  repeat match goal with
         | |- context [if ?b then _ else _] => destruct b
         | |- context [match frame ?d with _ => _ end] => destruct (frame d)
         | |- context [match exchange_rate_column ?d with _ => _ end] =>
             destruct (exchange_rate_column d)
         end;
    simpl; intuition; subst; reflexivity.
Qed.

Lemma fetcher_unavailable w pool start_date end_date :
  get_ah_premium_data false w pool start_date end_date = (Returned [], []).
Proof. reflexivity. Qed.

Lemma report_after_no_write w evs :
  existsb is_write evs = false -> report_after w evs = Holds (report_file w).
Proof.
  unfold report_after. generalize (Holds (report_file w)) as st.
  induction evs as [|e evs IH]; intros st H; simpl in *; [reflexivity|].
  apply orb_false_iff in H. destruct H as [He H].
  destruct e; simpl in *; try discriminate; now apply IH.
Qed.

Lemma existsb_is_write_wsd qs : existsb is_write (map EvWsd qs) = false.
Proof. induction qs; simpl; auto. Qed.

(** C3: when the stock pool comes back empty, or the price fetch of the run
    returns the empty table, the run records no write and the report file is
    what it was. *)
Theorem empty_results_leave_report_untouched :
  forall w,
    stock_pool_result w = [] \/
    fst (get_ah_premium_data (WIND_AVAILABLE w) (wsd w)
                             (Some (stock_pool_result w))
                             (fst (plan w)) (Some (today w))) = Returned [] ->
    existsb is_write (snd (main w)) = false /\
    report_after w (snd (main w)) = Holds (report_file w).
Proof.
  intros w H.
  assert (existsb is_write (snd (main w)) = false) as Hw.
  { unfold main. destruct H as [H|H].
    - rewrite H. reflexivity.
    - destruct (stock_pool_result w) eqn:Ep; [reflexivity|].
      rewrite <- Ep in *. destruct (plan w) as [start_date existing_data].
      simpl in H. unfold fetch_and_save.
      destruct (get_ah_premium_data _ _ _ _ _) as [res qs]. simpl in H.
      subst res.
      destruct (WIND_AVAILABLE w); [destruct (check_trade_day _ _)|];
        simpl; try reflexivity;
        destruct (start_date >? today w); simpl; try reflexivity;
        apply existsb_is_write_wsd. }
  split; [exact Hw|]. now apply report_after_no_write.
Qed.

(** Witness of [empty_results_leave_report_untouched]: over an existing
    report, a run whose stock pool is empty and a run whose price query
    fails. *)
Lemma empty_results_leave_report_untouched_witness :
  let w1 := {| stock_pool_result := [];
               report_file := Some Samples.sample_workbook;
               today := 739003;
               WIND_AVAILABLE := true;
               tdaysoffset := fun _ => mkTdays 0 [[739003]];
               wsd := Samples.sample_provider;
               disk_writable := true |} in
  let w2 := {| stock_pool_result := Samples.sample_pool;
               report_file := Some Samples.sample_workbook;
               today := 739003;
               WIND_AVAILABLE := true;
               tdaysoffset := fun _ => mkTdays 0 [[739003]];
               wsd := Samples.failing_provider;
               disk_writable := true |} in
  (existsb is_write (snd (main w1)) = false /\
   report_after w1 (snd (main w1)) = Holds (report_file w1)) /\
  (existsb is_write (snd (main w2)) = false /\
   report_after w2 (snd (main w2)) = Holds (report_file w2)).
Proof.
  intros w1 w2. split.
  - apply (empty_results_leave_report_untouched w1). left. reflexivity.
  - apply (empty_results_leave_report_untouched w2). right. reflexivity.
Defined.

Lemma fetch_and_save_wsd w start_date existing_data q :
  In (EvWsd q) (snd (fetch_and_save w start_date existing_data)) ->
  q_start q = start_date.
Proof.
  unfold fetch_and_save.
  pose proof (fetcher_queries_start (WIND_AVAILABLE w) (wsd w)
                (Some (stock_pool_result w)) start_date (Some (today w)) q) as Hq.
  destruct (get_ah_premium_data _ _ _ _ _) as [res qs]. simpl in Hq.
  assert (forall tl, (forall e, In e tl -> is_wsd e = false) ->
                     In (EvWsd q) (map EvWsd qs ++ tl) -> q_start q = start_date)
    as Hin.
  { intros tl Htl H. apply in_app_or in H. destruct H as [H|H].
    - apply in_map_iff in H. destruct H as [q' [E H]].
      injection E as ->. now apply Hq.
    - apply Htl in H. discriminate. }
  assert (In (EvWsd q) (map EvWsd qs) -> q_start q = start_date) as Hin0.
  { intros H. apply (Hin []); [intros e []|]. now rewrite app_nil_r. }
  destruct res as [[|r df]|]; simpl; auto.
  destruct (final_pivots _ _); simpl; auto.
  destruct (disk_writable w); simpl; apply Hin;
    intros e [<-|[]]; reflexivity.
Qed.

Lemma main_events_wsd w q :
  In (EvWsd q) (snd (main w)) ->
  In (EvWsd q) (snd (fetch_and_save w (fst (plan w)) (snd (plan w)))).
Proof.
  unfold main. destruct (stock_pool_result w); [intros []|].
  destruct (plan w) as [start_date existing_data]. simpl fst. simpl snd.
  destruct (fetch_and_save w start_date existing_data) as [ex evs'].
  destruct (WIND_AVAILABLE w); [destruct (check_trade_day _ _)|];
    try destruct (start_date >? today w); simpl;
    intros H; repeat (destruct H as [H|H]; try discriminate);
    try contradiction; assumption.
Qed.

Lemma plan_incremental w wb t cols D existing :
  report_file w = Some wb ->
  read_excel wb PremiumSheet = Returned t ->
  columns t = cols ++ [D] ->
  read_all wb SHEET_NAMES = Some existing ->
  plan w = (D + 1, existing).
Proof.
  intros Hf Hr Hc Ha. unfold plan, read_existing.
  rewrite Hf, Hr, Hc, rev_app_distr. cbn [rev app]. now rewrite Ha.
Qed.

(** C5: in a run over an existing report whose sheets all read and whose
    premium sheet ends at date D, the start date is D + 1 and every price
    query of the run starts there; when the provider's latest trading day
    is earlier than D + 1, the run issues no price query and writes nothing,
    and the report file is what it was. *)
Theorem incremental_window_and_noop :
  forall w wb t cols D existing,
    stock_pool_result w <> [] ->
    report_file w = Some wb ->
    read_excel wb PremiumSheet = Returned t ->
    columns t = cols ++ [D] ->
    read_all wb SHEET_NAMES = Some existing ->
    plan w = (D + 1, existing) /\
    (forall q, In (EvWsd q) (snd (main w)) -> q_start q = D + 1) /\
    (forall latest rest more,
        tdaysoffset w (today w) = mkTdays 0 ((latest :: rest) :: more) ->
        latest < D + 1 ->
        existsb is_wsd (snd (main w)) = false /\
        existsb is_write (snd (main w)) = false /\
        report_after w (snd (main w)) = Holds (report_file w)).
Proof.
  intros w wb t cols D existing Hpool Hf Hr Hc Ha.
  pose proof (plan_incremental _ _ _ _ _ _ Hf Hr Hc Ha) as Hplan.
  split; [exact Hplan|]. split.
  - intros q Hq. apply main_events_wsd in Hq. rewrite Hplan in Hq.
    now apply fetch_and_save_wsd in Hq.
  - intros latest rest more Htd Hlt.
    assert (existsb is_wsd (snd (main w)) = false /\
            existsb is_write (snd (main w)) = false) as [H1 H2].
    { unfold main.
      destruct (stock_pool_result w) eqn:Ep; [congruence|].
      rewrite Hplan. destruct (WIND_AVAILABLE w) eqn:Ew.
      - unfold check_trade_day. rewrite Htd. simpl.
        assert ((D + 1 >? latest) = true) as -> by (apply Z.gtb_lt; lia).
        simpl. split; reflexivity.
      - destruct (D + 1 >? today w); [split; reflexivity|].
        unfold fetch_and_save. rewrite Ew, fetcher_unavailable.
        split; reflexivity. }
    split; [exact H1|]. split; [exact H2|].
    now apply report_after_no_write.
Qed.

(** Witness of [incremental_window_and_noop]: the sample report ends on
    2024-04-25 and the provider's latest trading day is that same day. *)
Lemma incremental_window_and_noop_witness :
  let w := Samples.sample_world (Some Samples.sample_workbook) 739001 in
  plan w = (739001 + 1, Samples.sample_workbook) /\
  (forall q, In (EvWsd q) (snd (main w)) -> q_start q = 739001 + 1) /\
  (forall latest rest more,
      tdaysoffset w (today w) = mkTdays 0 ((latest :: rest) :: more) ->
      latest < 739001 + 1 ->
      existsb is_wsd (snd (main w)) = false /\
      existsb is_write (snd (main w)) = false /\
      report_after w (snd (main w)) = Holds (report_file w)).
Proof.
  intros w.
  apply (incremental_window_and_noop w Samples.sample_workbook
           Samples.sample_old_table [739000] 739001 Samples.sample_workbook).
  - discriminate.
  - reflexivity.
  - reflexivity.
  - reflexivity.
  - reflexivity.
Defined.

(** C4 (the code departs from the claim): on a report whose premium sheet
    reads (last column 2024-04-25) and whose next sheet is missing, the
    handler empties [existing_data] but the start date stays at 2024-04-26
    instead of the default 2024-01-01; the run queries prices from
    2024-04-26 only and saves a report holding nothing but that window. *)
Theorem failed_sheet_read_keeps_incremental_start :
  let w := Samples.sample_world (Some Samples.sample_damaged_workbook) 739003 in
  read_excel Samples.sample_damaged_workbook PremiumSheet
  = Returned Samples.sample_old_table /\
  read_excel Samples.sample_damaged_workbook APriceSheet = Raised /\
  plan w = (739002, []) /\
  739002 <> default_start_date /\
  exists wb,
    main w = (Saved, [EvTdays 739003;
                      EvWsd (mkQuery ["A1"; "H1"]%string 739002 739003);
                      EvWsd (mkQuery [Fetcher.exchange_rate_code] 739002 739003);
                      EvWrite wb true]) /\
    map (fun e => columns (snd e)) wb
    = [[739002]; [739002; 739003]; [739002; 739003]; [739002; 739003]].
Proof.
  intros w. repeat split; try reflexivity; try discriminate.
  eexists. split; vm_compute; reflexivity.
Qed.

(** ** Pivot tables *)

Lemma key_eqb_spec (k1 k2 : key_t) : key_eqb k1 k2 = true <-> k1 = k2.
Proof.
  destruct k1 as [s1 d1], k2 as [s2 d2]. unfold key_eqb. simpl.
  rewrite andb_true_iff, String.eqb_eq, Z.eqb_eq. split.
  - intros [-> ->]. reflexivity.
  - intros E. injection E as -> ->. auto.
Qed.

Lemma key_eqb_refl (k : key_t) : key_eqb k k = true.
Proof. now apply key_eqb_spec. Qed.

Lemma key_eqb_false (k1 k2 : key_t) : key_eqb k1 k2 = false <-> k1 <> k2.
Proof.
  rewrite <- key_eqb_spec. destruct (key_eqb k1 k2); split; congruence.
Qed.

Lemma find_filter {A : Type} (p q : A -> bool) (l : list A) :
  find p (filter q l) = find (fun x => q x && p x) l.
Proof.
  induction l as [|a l IH]; simpl; [reflexivity|].
  destruct (q a); simpl; [|exact IH]. destruct (p a); [reflexivity|exact IH].
Qed.

Lemma find_ext_in {A : Type} (p q : A -> bool) (l : list A) :
  (forall x, In x l -> p x = q x) -> find p l = find q l.
Proof.
  induction l as [|a l IH]; intros H; simpl; [reflexivity|].
  rewrite (H a (or_introl eq_refl)). destruct (q a); [reflexivity|].
  apply IH. intros x Hx. apply H. now right.
Qed.

Lemma filter_ext_in' {A : Type} (p q : A -> bool) (l : list A) :
  (forall x, In x l -> p x = q x) -> filter p l = filter q l.
Proof.
  induction l as [|a l IH]; intros H; simpl; [reflexivity|].
  rewrite (H a (or_introl eq_refl)), IH; [reflexivity|].
  intros x Hx. apply H. now right.
Qed.

Lemma filter_filter_and {A : Type} (p q : A -> bool) (l : list A) :
  filter p (filter q l) = filter (fun x => q x && p x) l.
Proof.
  induction l as [|a l IH]; simpl; [reflexivity|].
  destruct (q a); simpl; [|exact IH]. destruct (p a); [now f_equal|exact IH].
Qed.

Lemma filter_none {A : Type} (p : A -> bool) (l : list A) :
  (forall x, In x l -> p x = false) -> filter p l = [].
Proof.
  induction l as [|a l IH]; intros H; simpl; [reflexivity|].
  rewrite (H a (or_introl eq_refl)). apply IH. intros x Hx. apply H. now right.
Qed.

(** De-duplication keeps, for every key, exactly the first row. *)
Lemma find_drop_duplicates (df : LongTable) (k : key_t) :
  find (fun r => key_eqb (key r) k) (drop_duplicates df)
  = find (fun r => key_eqb (key r) k) df.
Proof.
  induction df as [|r rest IH]; simpl; [reflexivity|].
  destruct (key_eqb (key r) k) eqn:E; [reflexivity|].
  rewrite find_filter, <- IH. apply find_ext_in. intros x _.
  destruct (key_eqb (key x) k) eqn:Ex; [|now rewrite andb_false_r].
  rewrite andb_true_r. apply key_eqb_spec in Ex. apply key_eqb_false in E.
  apply negb_true_iff, key_eqb_false. congruence.
Qed.

Lemma group_drop_duplicates (df : LongTable) (k : key_t) :
  filter (fun r => key_eqb (key r) k) (drop_duplicates df)
  = match find (fun r => key_eqb (key r) k) df with
    | Some r => [r]
    | None => []
    end.
Proof.
  induction df as [|r rest IH]; simpl; [reflexivity|].
  destruct (key_eqb (key r) k) eqn:E.
  - f_equal. apply filter_none. intros x Hx. apply filter_In in Hx.
    destruct Hx as [_ Hx]. apply negb_true_iff, key_eqb_false in Hx.
    apply key_eqb_spec in E. apply key_eqb_false. congruence.
  - rewrite <- IH. rewrite filter_filter_and.
    apply filter_ext_in'. intros x _.
    destruct (key_eqb (key x) k) eqn:Ex; [|now rewrite andb_false_r].
    rewrite andb_true_r.
    apply key_eqb_spec in Ex. apply key_eqb_false in E.
    apply negb_true_iff, key_eqb_false. congruence.
Qed.

Lemma In_group_keys (ks : list key_t) (k : key_t) :
  In k (group_keys ks) <-> In k ks.
Proof.
  induction ks as [|a ks IH]; simpl; [tauto|].
  rewrite filter_In, IH, negb_true_iff, key_eqb_false.
  destruct (key_eqb k a) eqn:E.
  - apply key_eqb_spec in E. subst. tauto.
  - apply key_eqb_false in E. intuition congruence.
Qed.

(** Looking a key up among the aggregated groups. *)
Lemma find_agged_groups (F : key_t -> fval) (ks : list key_t) (k : key_t) :
  find (fun kv : key_t * fval => key_eqb (fst kv) k)
       (filter (fun kv => notnull (snd kv)) (map (fun k' => (k', F k')) ks))
  = if existsb (key_eqb k) ks && notnull (F k) then Some (k, F k) else None.
Proof.
  induction ks as [|a ks IH]; simpl; [reflexivity|].
  destruct (key_eqb k a) eqn:Eka.
  - apply key_eqb_spec in Eka. subst a. simpl.
    destruct (notnull (F k)) eqn:En; simpl.
    + now rewrite key_eqb_refl.
    + rewrite IH. now rewrite andb_false_r.
  - assert (key_eqb a k = false) as Eak.
    { apply key_eqb_false. apply key_eqb_false in Eka. congruence. }
    simpl. destruct (notnull (F a)); simpl; [rewrite Eak|]; exact IH.
Qed.

Lemma agged_unfold df value_col :
  agged df value_col
  = filter (fun kv => notnull (snd kv))
           (map (fun k => (k, group_mean df value_col k))
                (group_keys (map key df))).
Proof. reflexivity. Qed.

Lemma group_mean_absent df value_col k :
  ~ In k (map key df) -> group_mean df value_col k = NaN.
Proof.
  intros H. unfold group_mean. rewrite filter_none; [reflexivity|].
  intros x Hx. apply key_eqb_false. intros E. apply H.
  rewrite <- E. now apply in_map.
Qed.

Lemma existsb_key (k : key_t) (ks : list key_t) :
  existsb (key_eqb k) ks = true <-> In k ks.
Proof.
  rewrite existsb_exists. split.
  - intros [x [Hx E]]. apply key_eqb_spec in E. now subst.
  - intros H. exists k. split; [exact H|apply key_eqb_refl].
Qed.

Lemma cell_agged df value_col s d :
  cell (agged df value_col) s d = group_mean df value_col (s, d).
Proof.
  unfold cell. rewrite agged_unfold, find_agged_groups.
  destruct (existsb _ _) eqn:Ee; simpl.
  - destruct (group_mean df value_col (s, d)) eqn:Eg; reflexivity.
  - symmetry. apply group_mean_absent. intros H.
    apply (proj2 (In_group_keys _ _)), (proj2 (existsb_key _ _)) in H.
    congruence.
Qed.

Lemma In_agged df value_col k v :
  In (k, v) (agged df value_col) <->
  In k (map key df) /\ v = group_mean df value_col k /\ v <> NaN.
Proof.
  rewrite agged_unfold, filter_In, in_map_iff. simpl.
  rewrite notnull_true. split.
  - intros [[k' [E Hk]] Hv]. injection E as E1 E2. subst k'.
    apply (proj1 (In_group_keys _ _)) in Hk. split; [exact Hk|].
    split; [now symmetry|exact Hv].
  - intros [Hk [-> Hv]]. split; [|exact Hv].
    exists k. split; [reflexivity|]. now apply (proj2 (In_group_keys _ _)).
Qed.

Lemma group_mean_dedup df value_col s d :
  group_mean (drop_duplicates df) value_col (s, d) = first_value df value_col s d.
Proof.
  unfold group_mean, first_value. rewrite group_drop_duplicates.
  destruct (find _ df); simpl; [apply mean_single|reflexivity].
Qed.

Lemma first_value_key df value_col s d :
  first_value df value_col s d <> NaN -> In (s, d) (map key (drop_duplicates df)).
Proof.
  unfold first_value. rewrite <- find_drop_duplicates.
  destruct (find _ (drop_duplicates df)) as [r|] eqn:E; [|congruence].
  intros _. apply find_some in E. destruct E as [Hin Hk].
  apply key_eqb_spec in Hk. rewrite <- Hk. now apply in_map.
Qed.

(** The groups a pivot keeps: the (stock, date) pairs whose first row has a
    value. *)
Lemma In_agged_dedup df value_col s d v :
  In ((s, d), v) (agged (drop_duplicates df) value_col) <->
  v = first_value df value_col s d /\ v <> NaN.
Proof.
  rewrite In_agged, group_mean_dedup. split.
  - tauto.
  - intros [-> Hv]. split; [|auto]. now apply first_value_key in Hv.
Qed.

Lemma index_In df value_col s :
  In s (index (create_pivot_table df value_col)) <->
  exists d, first_value df value_col s d <> NaN.
Proof.
  unfold create_pivot_table, pivot_table. simpl.
  rewrite (In_sort_uniq String.leb String.eqb String.eqb_eq), in_map_iff. split.
  - intros [[[s' d] v] [E H]]. simpl in E. subst s'.
    apply In_agged_dedup in H. destruct H as [-> H]. now exists d.
  - intros [d H]. exists ((s, d), first_value df value_col s d).
    split; [reflexivity|]. now apply In_agged_dedup.
Qed.

Lemma columns_In df value_col d :
  In d (columns (create_pivot_table df value_col)) <->
  exists s, first_value df value_col s d <> NaN.
Proof.
  unfold create_pivot_table, pivot_table. simpl.
  rewrite (In_sort_uniq Z.leb Z.eqb Z.eqb_eq), in_map_iff. split.
  - intros [[[s d'] v] [E H]]. simpl in E. subst d'.
    apply In_agged_dedup in H. destruct H as [-> H]. now exists s.
  - intros [s H]. exists ((s, d), first_value df value_col s d).
    split; [reflexivity|]. now apply In_agged_dedup.
Qed.

Lemma values_eq df value_col :
  values (create_pivot_table df value_col)
  = map (fun s => map (first_value df value_col s)
                      (columns (create_pivot_table df value_col)))
        (index (create_pivot_table df value_col)).
Proof.
  unfold create_pivot_table, pivot_table. simpl.
  apply map_ext. intros s. apply map_ext. intros d.
  now rewrite cell_agged, group_mean_dedup.
Qed.

Lemma index_sorted df value_col :
  StronglySorted (slt String.leb) (index (create_pivot_table df value_col)).
Proof.
  apply (sort_uniq_sorted String.leb String.eqb String.eqb_eq
                          String.leb_total string_leb_trans String.leb_antisym).
Qed.

Lemma columns_sorted df value_col :
  StronglySorted (slt Z.leb) (columns (create_pivot_table df value_col)).
Proof.
  apply (sort_uniq_sorted Z.leb Z.eqb Z.eqb_eq
                          Z_leb_total Z_leb_trans Z_leb_antisym).
Qed.

Section Lookup.
Context {K B : Type}.
Variable eqb : K -> K -> bool.
Hypothesis eqb_spec : forall x y, eqb x y = true <-> x = y.

Lemma mem_In (k : K) (l : list K) : mem eqb k l = true <-> In k l.
Proof.
  unfold mem. rewrite existsb_exists. split.
  - intros [x [Hx E]]. apply eqb_spec in E. now subst.
  - intros H. exists k. split; [exact H|now apply eqb_spec].
Qed.

Lemma eqb_sym_false (x y : K) : eqb x y = false -> eqb y x = false.
Proof.
  intros H. destruct (eqb y x) eqn:E; [|reflexivity].
  apply eqb_spec in E. subst. rewrite (proj2 (eqb_spec x x) eq_refl) in H.
  discriminate.
Qed.

(** A labelled row list [combine l (map f l)] looked up by label. *)
Lemma find_combine_map (f : K -> B) (l : list K) (k : K) :
  find (fun kv : K * B => eqb (fst kv) k) (combine l (map f l))
  = if mem eqb k l then Some (k, f k) else None.
Proof.
  induction l as [|a l IH]; simpl; [reflexivity|].
  destruct (eqb a k) eqn:E.
  - apply eqb_spec in E. subst a.
    now rewrite (proj2 (eqb_spec k k) eq_refl).
  - rewrite (eqb_sym_false _ _ E). exact IH.
Qed.

End Lookup.

Lemma map_all_null {K : Type} (g : K -> fval) (l : list K) :
  (forall k, In k l -> g k = NaN) -> map g l = repeat NaN (List.length l).
Proof.
  induction l as [|a l IH]; intros H; simpl; [reflexivity|].
  rewrite (H a (or_introl eq_refl)), IH; [reflexivity|].
  intros k Hk. apply H. now right.
Qed.

Lemma not_index_null df value_col s :
  ~ In s (index (create_pivot_table df value_col)) ->
  forall d, first_value df value_col s d = NaN.
Proof.
  intros H d. destruct (first_value df value_col s d) eqn:E; [reflexivity| |];
    exfalso; apply H, index_In; exists d; rewrite E; discriminate.
Qed.

Lemma not_column_null df value_col d :
  ~ In d (columns (create_pivot_table df value_col)) ->
  forall s, first_value df value_col s d = NaN.
Proof.
  intros H s. destruct (first_value df value_col s d) eqn:E; [reflexivity| |];
    exfalso; apply H, columns_In; exists s; rewrite E; discriminate.
Qed.

(** The row of a pivot under any label, present or not. *)
Lemma row_of_pivot df value_col s :
  row_of (create_pivot_table df value_col) s
  = map (first_value df value_col s)
        (columns (create_pivot_table df value_col)).
Proof.
  unfold row_of. rewrite values_eq.
  rewrite (find_combine_map String.eqb String.eqb_eq).
  destruct (mem String.eqb s _) eqn:E; [reflexivity|].
  symmetry. apply map_all_null. intros d _. apply not_index_null.
  intros H. apply (mem_In String.eqb String.eqb_eq) in H. congruence.
Qed.

(** Every cell of a pivot is the value of the first row with that stock and
    date. *)
Lemma cell_at_pivot df value_col s d :
  cell_at (create_pivot_table df value_col) s d = first_value df value_col s d.
Proof.
  unfold cell_at. rewrite row_of_pivot.
  rewrite (find_combine_map Z.eqb Z.eqb_eq).
  destruct (mem Z.eqb d _) eqn:E; [reflexivity|].
  symmetry. apply not_column_null.
  intros H. apply (mem_In Z.eqb Z.eqb_eq) in H. congruence.
Qed.

Lemma wide_eq (a b : WideReportTable) :
  index a = index b -> columns a = columns b -> values a = values b -> a = b.
Proof. destruct a, b; simpl; congruence. Qed.

Lemma string_sorted_unique (l1 l2 : list string) :
  StronglySorted (slt String.leb) l1 -> StronglySorted (slt String.leb) l2 ->
  (forall x, In x l1 <-> In x l2) -> l1 = l2.
Proof.
  apply (strictly_sorted_unique String.leb string_leb_trans String.leb_antisym).
Qed.

Lemma date_sorted_unique (l1 l2 : list date_t) :
  StronglySorted (slt Z.leb) l1 -> StronglySorted (slt Z.leb) l2 ->
  (forall x, In x l1 <-> In x l2) -> l1 = l2.
Proof.
  apply (strictly_sorted_unique Z.leb Z_leb_trans Z_leb_antisym).
Qed.

(** A pivot is determined by the first value of every (stock, date). *)
Lemma create_pivot_table_ext df df' value_col value_col' :
  (forall s d, first_value df value_col s d = first_value df' value_col' s d) ->
  create_pivot_table df value_col = create_pivot_table df' value_col'.
Proof.
  intros H.
  assert (index (create_pivot_table df value_col)
          = index (create_pivot_table df' value_col')) as Hi.
  { apply string_sorted_unique; try apply index_sorted.
    intros s. rewrite !index_In. split; intros [d Hd]; exists d; congruence. }
  assert (columns (create_pivot_table df value_col)
          = columns (create_pivot_table df' value_col')) as Hc.
  { apply date_sorted_unique; try apply columns_sorted.
    intros d. rewrite !columns_In. split; intros [s Hs]; exists s; congruence. }
  apply wide_eq; [exact Hi|exact Hc|].
  rewrite !values_eq, Hi, Hc. apply map_ext. intros s. apply map_ext.
  intros d. apply H.
Qed.

Lemma first_value_dedup df value_col s d :
  first_value (drop_duplicates df) value_col s d = first_value df value_col s d.
Proof. unfold first_value. now rewrite find_drop_duplicates. Qed.

Lemma find_app_none {A : Type} (p : A -> bool) (l1 l2 : list A) :
  (forall x, In x l1 -> p x = false) -> find p (l1 ++ l2) = find p l2.
Proof.
  induction l1 as [|a l1 IH]; intros H; simpl; [reflexivity|].
  rewrite (H a (or_introl eq_refl)). apply IH. intros x Hx. apply H. now right.
Qed.

Lemma find_app {A : Type} (p : A -> bool) (l1 l2 : list A) :
  find p (l1 ++ l2) = match find p l1 with Some x => Some x | None => find p l2 end.
Proof.
  induction l1 as [|a l1 IH]; simpl; [reflexivity|].
  destruct (p a); [reflexivity|exact IH].
Qed.

(** C6: when a row is the first of the table with its (stock, date), the
    pivot's cell for that stock and date holds that row's value; the stock
    and the date are labels of the table when the value is not null; and the
    table is the one obtained with the later rows of that (stock, date)
    removed. *)
Theorem pivot_keeps_first_occurrence :
  forall pre r post value_col,
    (forall r', In r' pre -> key r' <> key r) ->
    let t := create_pivot_table (pre ++ r :: post) value_col in
    cell_at t (stock_name r) (date r) = value_col r /\
    (value_col r <> NaN ->
     In (stock_name r) (index t) /\ In (date r) (columns t)) /\
    t = create_pivot_table
          (pre ++ r :: filter (fun r' => negb (key_eqb (key r') (key r))) post)
          value_col.
Proof.
  intros pre r post value_col Hpre t.
  assert (forall tl, first_value (pre ++ r :: tl) value_col
                                 (stock_name r) (date r) = value_col r) as Hfv.
  { intros tl. unfold first_value. rewrite find_app_none.
    - simpl. change (stock_name r, date r) with (key r).
      now rewrite key_eqb_refl.
    - intros x Hx. apply key_eqb_false. now apply Hpre. }
  split; [|split].
  - unfold t. rewrite cell_at_pivot. apply Hfv.
  - intros Hv. split.
    + apply index_In. exists (date r). now rewrite Hfv.
    + apply columns_In. exists (stock_name r). now rewrite Hfv.
  - apply create_pivot_table_ext. intros s d. unfold first_value.
    rewrite !find_app. destruct (find _ pre); [reflexivity|]. simpl.
    destruct (key_eqb (key r) (s, d)) eqn:E; [reflexivity|].
    rewrite find_filter.
    rewrite (find_ext_in
               (fun x => negb (key_eqb (key x) (key r)) && key_eqb (key x) (s, d))
               (fun x => key_eqb (key x) (s, d)) post); [reflexivity|].
    intros x _.
    destruct (key_eqb (key x) (s, d)) eqn:Ex; [|now rewrite andb_false_r].
    rewrite andb_true_r. apply key_eqb_spec in Ex. apply key_eqb_false in E.
    apply negb_true_iff, key_eqb_false. congruence.
Qed.

(** Witness of [pivot_keeps_first_occurrence]: two rows for stock X on one
    date, A-share prices 100 and 7. *)
Lemma pivot_keeps_first_occurrence_witness :
  let r := mkObs 10 "X" "A1" "H1" (of_Z 100) (of_Z 120) (of_Z 1) NaN in
  let r2 := mkObs 10 "X" "A1" "H1" (of_Z 7) (of_Z 120) (of_Z 1) NaN in
  let t := create_pivot_table ([] ++ r :: [r2]) A_price in
  cell_at t (stock_name r) (date r) = A_price r /\
  (A_price r <> NaN ->
   In (stock_name r) (index t) /\ In (date r) (columns t)) /\
  t = create_pivot_table
        ([] ++ r :: filter (fun r' => negb (key_eqb (key r') (key r))) [r2])
        A_price.
Proof.
  intros r r2.
  apply (pivot_keeps_first_occurrence [] r [r2] A_price).
  intros r' [].
Defined.

(** C9: pivoting the same frame twice, the second call on the frame as the
    first call left it, gives the same table both times and leaves the frame
    as it was; pivoting the de-duplicated frame gives that table again. *)
Theorem pivot_twice_same_table :
  forall df value_col,
    let '(p1, df1) := create_pivot_table_call value_col df in
    let '(p2, df2) := create_pivot_table_call value_col df1 in
    p1 = p2 /\ df2 = df /\
    create_pivot_table (drop_duplicates df) value_col = p1.
Proof.
  intros df value_col. unfold create_pivot_table_call.
  split; [reflexivity|]. split; [reflexivity|].
  apply create_pivot_table_ext. intros s d. apply first_value_dedup.
Qed.

(** ** The four tables of a run *)

Lemma first_value_find df (value_col : Column) s d :
  (forall r, In r df -> value_col r <> NaN) ->
  (first_value df value_col s d <> NaN <->
   find (fun r => key_eqb (key r) (s, d)) df <> None).
Proof.
  intros H. unfold first_value.
  destruct (find _ df) as [r|] eqn:E.
  - apply find_some in E. destruct E as [Hin _]. split; [discriminate|].
    intros _. now apply H.
  - split; intros Hn; now elim Hn.
Qed.

(** On a frame without nulls in two value columns, the two pivots have the
    same column labels. *)
Lemma columns_of_full_columns df (c1 c2 : Column) :
  (forall r, In r df -> c1 r <> NaN) ->
  (forall r, In r df -> c2 r <> NaN) ->
  columns (create_pivot_table df c1) = columns (create_pivot_table df c2).
Proof.
  intros H1 H2. apply date_sorted_unique; try apply columns_sorted.
  intros d. rewrite !columns_In.
  split; intros [s Hs]; exists s.
  - apply (first_value_find df c2 s d H2).
    now apply (first_value_find df c1 s d H1).
  - apply (first_value_find df c1 s d H1).
    now apply (first_value_find df c2 s d H2).
Qed.

Lemma columns_incl_full_column df (c1 c2 : Column) :
  (forall r, In r df -> c2 r <> NaN) ->
  incl (columns (create_pivot_table df c1)) (columns (create_pivot_table df c2)).
Proof.
  intros H2 d Hd. apply columns_In in Hd. destruct Hd as [s Hs].
  apply columns_In. exists s. apply (first_value_find df c2 s d H2).
  unfold first_value in Hs. destruct (find _ df); congruence.
Qed.

Lemma fetched_rows_complete avail w pool start_date end_date r :
  In r (rows_of (fst (get_ah_premium_data avail w pool start_date end_date))) ->
  A_price r <> NaN /\ H_price r <> NaN /\ exchange_rate r <> NaN.
Proof.
  intros H. apply fetcher_rows in H. destruct H as [Hc _].
  unfold complete in Hc. rewrite !andb_true_iff, !notnull_true in Hc. tauto.
Qed.

(** C7 (the code departs from the claim).  On every table the fetcher
    returns, the A-price, H-price and FX-rate tables have the same date
    columns and the premium table's dates are among them.  They are not
    always all of them: on the sample fetch, where the A-share price is 0 on
    the second day, the premium table has the column of day 10 only and the
    other three tables have the columns of days 10 and 11.  A first run then
    saves a premium sheet ending 2024-01-01 beside price sheets ending
    2024-01-02, and the next run, which reads the premium sheet alone for
    the last date, saves price sheets holding the column 2024-01-02 twice. *)
Theorem premium_table_can_miss_a_date :
  (forall avail w pool start_date end_date,
      let long_df :=
        rows_of (fst (get_ah_premium_data avail w pool start_date end_date)) in
      columns (create_pivot_table long_df A_price)
      = columns (create_pivot_table long_df H_price) /\
      columns (create_pivot_table long_df A_price)
      = columns (create_pivot_table long_df exchange_rate) /\
      incl (columns (create_pivot_table long_df HA_premium_rate))
           (columns (create_pivot_table long_df A_price)))
  /\ sheet_columns (Some (make_new_pivots Samples.sample_long))
     = [[10]; [10; 11]; [10; 11]; [10; 11]]
  /\ (let first_run := main (Samples.sample_world None 739003) in
      let second_run :=
        main (Samples.sample_world (written (snd first_run)) 739003) in
      sheet_columns (written (snd first_run))
      = [[738886]; [738886; 738887]; [738886; 738887]; [738886; 738887]] /\
      sheet_columns (written (snd second_run))
      = [[738886; 738888];
         [738886; 738887; 738887; 738888];
         [738886; 738887; 738887; 738888];
         [738886; 738887; 738887; 738888]]).
Proof.
  split; [|split].
  - intros avail w pool s e long_df.
    assert (forall r, In r long_df ->
                      A_price r <> NaN /\ H_price r <> NaN
                      /\ exchange_rate r <> NaN) as Hc
        by (intros r; apply fetched_rows_complete).
    split; [|split].
    + apply columns_of_full_columns; intros r Hr; now apply Hc.
    + apply columns_of_full_columns; intros r Hr; now apply Hc.
    + apply columns_incl_full_column. intros r Hr. now apply Hc.
  - vm_compute. reflexivity.
  - split; vm_compute; reflexivity.
Qed.

(** ** The incremental merge *)

Lemma find_all_false {A : Type} (p : A -> bool) (l : list A) :
  (forall x, In x l -> p x = false) -> find p l = None.
Proof.
  induction l as [|a l IH]; intros H; simpl; [reflexivity|].
  rewrite (H a (or_introl eq_refl)). apply IH. intros x Hx. apply H. now right.
Qed.

Lemma first_value_between lo hi df value_col s d :
  first_value (between lo hi df) value_col s d
  = if (lo <=? d) && (d <=? hi) then first_value df value_col s d else NaN.
Proof.
  unfold first_value, between. rewrite find_filter.
  destruct ((lo <=? d) && (d <=? hi)) eqn:E.
  - rewrite (find_ext_in _ (fun r => key_eqb (key r) (s, d))); [reflexivity|].
    intros x _. destruct (key_eqb (key x) (s, d)) eqn:Ex;
      [|now rewrite andb_false_r].
    apply key_eqb_spec in Ex. unfold key in Ex. injection Ex as _ ->.
    now rewrite E.
  - rewrite find_all_false; [reflexivity|].
    intros x _. destruct (key_eqb (key x) (s, d)) eqn:Ex;
      [|now rewrite andb_false_r].
    apply key_eqb_spec in Ex. unfold key in Ex. injection Ex as _ ->.
    now rewrite E.
Qed.

Lemma first_value_between_range lo hi df value_col s d :
  first_value (between lo hi df) value_col s d <> NaN -> lo <= d <= hi.
Proof.
  rewrite first_value_between.
  destruct ((lo <=? d) && (d <=? hi)) eqn:E; [|congruence].
  intros _. apply andb_true_iff in E. rewrite !Z.leb_le in E. exact E.
Qed.

Lemma columns_between_range lo hi df value_col d :
  In d (columns (create_pivot_table (between lo hi df) value_col)) ->
  lo <= d <= hi.
Proof.
  intros H. apply columns_In in H. destruct H as [s Hs].
  now apply first_value_between_range in Hs.
Qed.

Lemma concat_axis1_index a b :
  index (concat_axis1 a b)
  = index a ++ filter (fun s => negb (mem String.eqb s (index a))) (index b).
Proof. reflexivity. Qed.

Lemma concat_axis1_columns a b :
  columns (concat_axis1 a b) = columns a ++ columns b.
Proof. reflexivity. Qed.

Lemma concat_axis1_values a b :
  values (concat_axis1 a b)
  = map (fun s => row_of a s ++ row_of b s) (index (concat_axis1 a b)).
Proof. reflexivity. Qed.

Lemma concat_axis1_row a b s :
  In s (index (concat_axis1 a b)) ->
  row_of (concat_axis1 a b) s = row_of a s ++ row_of b s.
Proof.
  intros H. unfold row_of at 1. unfold concat_axis1 in *.
  cbn [index values columns] in *.
  rewrite (find_combine_map String.eqb String.eqb_eq).
  apply (proj2 (mem_In String.eqb String.eqb_eq _ _)) in H.
  now rewrite H.
Qed.

Section Merge.
Variable df : LongTable.
Variable value_col : Column.
Variables d1 d2 d3 : date_t.
Hypothesis d1_le_d2 : d1 <= d2.
Hypothesis d2_le_d3 : d2 <= d3.

Let old := create_pivot_table (between d1 d2 df) value_col.
Let new := create_pivot_table (between (d2 + 1) d3 df) value_col.
Let full := create_pivot_table (between d1 d3 df) value_col.
Let fv := first_value (between d1 d3 df) value_col.

Lemma fv_old s d :
  d1 <= d <= d2 -> first_value (between d1 d2 df) value_col s d = fv s d.
Proof.
  intros H. unfold fv. rewrite !first_value_between.
  assert ((d1 <=? d) && (d <=? d2) = true) as ->
      by (rewrite andb_true_iff, !Z.leb_le; lia).
  assert ((d1 <=? d) && (d <=? d3) = true) as ->
      by (rewrite andb_true_iff, !Z.leb_le; lia).
  reflexivity.
Qed.

Lemma fv_new s d :
  d2 + 1 <= d <= d3 ->
  first_value (between (d2 + 1) d3 df) value_col s d = fv s d.
Proof.
  intros H. unfold fv. rewrite !first_value_between.
  assert ((d2 + 1 <=? d) && (d <=? d3) = true) as ->
      by (rewrite andb_true_iff, !Z.leb_le; lia).
  assert ((d1 <=? d) && (d <=? d3) = true) as ->
      by (rewrite andb_true_iff, !Z.leb_le; lia).
  reflexivity.
Qed.

Lemma fv_split s d :
  fv s d <> NaN ->
  (d1 <= d <= d2 /\ first_value (between d1 d2 df) value_col s d <> NaN) \/
  (d2 + 1 <= d <= d3 /\
   first_value (between (d2 + 1) d3 df) value_col s d <> NaN).
Proof.
  intros H. pose proof (first_value_between_range _ _ _ _ _ _ H) as Hr.
  destruct (Z_le_gt_dec d d2) as [Hd|Hd].
  - left. split; [lia|]. rewrite fv_old; [exact H|lia].
  - right. split; [lia|]. rewrite fv_new; [exact H|lia].
Qed.

Lemma merge_columns : columns full = columns old ++ columns new.
Proof.
  apply date_sorted_unique.
  - apply columns_sorted.
  - apply strictly_sorted_app; try apply columns_sorted.
    intros x y Hx Hy. apply columns_between_range in Hx, Hy.
    split; [apply Z.leb_le|]; lia.
  - intros d. rewrite in_app_iff. unfold full, old, new.
    rewrite !columns_In. split.
    + intros [s Hs]. destruct (fv_split s d Hs) as [[_ H]|[_ H]];
        [left|right]; now exists s.
    + intros [[s Hs]|[s Hs]]; exists s.
      * pose proof (first_value_between_range _ _ _ _ _ _ Hs).
        now rewrite fv_old in Hs.
      * pose proof (first_value_between_range _ _ _ _ _ _ Hs).
        now rewrite fv_new in Hs.
Qed.

Lemma merge_index_In s :
  In s (index full) <-> In s (index old) \/ In s (index new).
Proof.
  unfold full, old, new. rewrite !index_In. split.
  - intros [d Hd]. destruct (fv_split s d Hd) as [[_ H]|[_ H]];
      [left|right]; now exists d.
  - intros [[d Hd]|[d Hd]]; exists d.
    + pose proof (first_value_between_range _ _ _ _ _ _ Hd).
      now rewrite fv_old in Hd.
    + pose proof (first_value_between_range _ _ _ _ _ _ Hd).
      now rewrite fv_new in Hd.
Qed.

Lemma merge_row s :
  row_of old s ++ row_of new s = row_of full s.
Proof.
  unfold old, new, full. rewrite !row_of_pivot. fold old new full.
  rewrite merge_columns, map_app. f_equal; apply map_ext_in; intros d Hd.
  - apply fv_old. now apply columns_between_range in Hd.
  - apply fv_new. now apply columns_between_range in Hd.
Qed.

Lemma concat_index_In s :
  In s (index (concat_axis1 old new)) <-> In s (index old) \/ In s (index new).
Proof.
  rewrite concat_axis1_index, in_app_iff, filter_In, negb_true_iff.
  destruct (mem String.eqb s (index old)) eqn:E.
  - apply (mem_In String.eqb String.eqb_eq) in E. intuition congruence.
  - intuition.
Qed.

Lemma pivot_index_NoDup t : NoDup (index (create_pivot_table t value_col)).
Proof.
  apply (strictly_sorted_NoDup String.leb), index_sorted.
Qed.

Lemma concat_index_NoDup : NoDup (index (concat_axis1 old new)).
Proof.
  rewrite concat_axis1_index. apply NoDup_app.
  - apply pivot_index_NoDup.
  - apply NoDup_filter, pivot_index_NoDup.
  - intros s Hs Hf. apply filter_In in Hf. destruct Hf as [_ Hf].
    apply negb_true_iff in Hf.
    apply (mem_In String.eqb String.eqb_eq) in Hs. congruence.
Qed.

Lemma concat_row s :
  In s (index (concat_axis1 old new)) ->
  row_of (concat_axis1 old new) s = row_of old s ++ row_of new s.
Proof. apply concat_axis1_row. Qed.

(** The merged table against the pivot of the whole range. *)
Lemma merge_vs_full :
  columns (concat_axis1 old new) = columns full /\
  Permutation (index (concat_axis1 old new)) (index full) /\
  (forall s, In s (index full) ->
             row_of (concat_axis1 old new) s = row_of full s) /\
  (incl (index new) (index old) -> concat_axis1 old new = full).
Proof.
  split; [|split; [|split]].
  - rewrite concat_axis1_columns. symmetry. apply merge_columns.
  - apply NoDup_Permutation.
    + apply concat_index_NoDup.
    + apply pivot_index_NoDup.
    + intros s. rewrite concat_index_In, merge_index_In. reflexivity.
  - intros s Hs. rewrite concat_row; [apply merge_row|].
    apply concat_index_In. now apply merge_index_In.
  - intros Hincl.
    assert (index old = index full) as Hi.
    { apply string_sorted_unique; try apply index_sorted.
      intros s. rewrite merge_index_In. split; [auto|].
      intros [H|H]; [exact H|now apply Hincl]. }
    assert (index (concat_axis1 old new) = index full) as Hm.
    { rewrite concat_axis1_index, filter_none, app_nil_r; [exact Hi|].
      intros s Hs. apply negb_false_iff.
      apply (mem_In String.eqb String.eqb_eq). now apply Hincl. }
    apply wide_eq.
    + exact Hm.
    + rewrite concat_axis1_columns. symmetry. apply merge_columns.
    + rewrite concat_axis1_values, Hm.
      unfold full at 2. rewrite values_eq. fold full.
      apply map_ext. intros s. rewrite merge_row.
      unfold full. now rewrite row_of_pivot.
Qed.

End Merge.

(** C2, counterexample: with stock B quoted on days 1 and 2 and stock A from
    day 2 on (no duplicate rows), the merge of the tables of day 1 and of
    day 2 lists B before A, the pivot of both days A before B. *)
Lemma merge_differs_from_full_pivot :
  drop_duplicates Samples.late_listing_long = Samples.late_listing_long /\
  concat_axis1
    (create_pivot_table (between 1 1 Samples.late_listing_long) A_price)
    (create_pivot_table (between (1 + 1) 2 Samples.late_listing_long) A_price)
  <> create_pivot_table (between 1 2 Samples.late_listing_long) A_price.
Proof.
  split; [vm_compute; reflexivity|].
  intros H. apply (f_equal index) in H. vm_compute in H. discriminate.
Qed.

(** C2, amended: for a table without duplicate (stock, date) rows and a
    split date d2 with d1 <= d2 <= d3, concatenating the pivot of [d1, d2]
    and the pivot of [d2 + 1, d3] gives the date columns of the pivot of
    [d1, d3] in the same order, the same stocks as rows up to their order,
    and the same value in every cell; the two tables are equal when every
    stock of the second pivot is a row of the first. *)
Theorem merge_matches_full_pivot :
  forall df value_col d1 d2 d3,
    drop_duplicates df = df ->
    d1 <= d2 -> d2 <= d3 ->
    let old := create_pivot_table (between d1 d2 df) value_col in
    let new := create_pivot_table (between (d2 + 1) d3 df) value_col in
    let full := create_pivot_table (between d1 d3 df) value_col in
    let merged := concat_axis1 old new in
    columns merged = columns full /\
    Permutation (index merged) (index full) /\
    (forall s d, cell_at merged s d = cell_at full s d) /\
    (incl (index new) (index old) -> merged = full).
Proof.
  intros df value_col d1 d2 d3 _ H12 H23 old new full merged.
  destruct (merge_vs_full df value_col d1 d2 d3 H12 H23) as [Hc [Hp [Hr He]]].
  fold old new full merged in Hc, Hp, Hr, He.
  split; [exact Hc|]. split; [exact Hp|]. split; [|exact He].
  intros s d. unfold cell_at. rewrite Hc.
  destruct (in_dec string_dec s (index full)) as [Hin|Hout].
  - now rewrite Hr.
  - replace (row_of merged s) with (row_of full s); [reflexivity|].
    unfold full at 1. rewrite row_of_pivot. fold full.
    rewrite map_all_null by (intros k _; now apply not_index_null).
    unfold row_of, merged. rewrite concat_axis1_values. fold merged.
    rewrite (find_combine_map String.eqb String.eqb_eq).
    destruct (mem String.eqb s (index merged)) eqn:E.
    + apply (mem_In String.eqb String.eqb_eq) in E.
      elim Hout. now apply (Permutation_in _ Hp).
    + now rewrite Hc.
Qed.

(** Witness of [merge_matches_full_pivot]: stocks X and Y on day 1, X alone
    on day 2, split after day 1; here the merged table is the full pivot. *)
Lemma merge_matches_full_pivot_witness :
  let df := Samples.steady_long in
  let old := create_pivot_table (between 1 1 df) A_price in
  let new := create_pivot_table (between (1 + 1) 2 df) A_price in
  let full := create_pivot_table (between 1 2 df) A_price in
  let merged := concat_axis1 old new in
  (columns merged = columns full /\
   Permutation (index merged) (index full) /\
   (forall s d, cell_at merged s d = cell_at full s d) /\
   (incl (index new) (index old) -> merged = full))
  /\ merged = full.
Proof.
  intros df old new full merged.
  assert (drop_duplicates df = df) as Hd by (vm_compute; reflexivity).
  assert (1 <= 1) as H1 by lia.
  assert (1 <= 2) as H2 by lia.
  pose proof (merge_matches_full_pivot df A_price 1 1 2 Hd H1 H2) as H.
  split; [exact H|].
  apply H. intros s Hs. vm_compute in Hs. vm_compute.
  destruct Hs as [<-|[]]. left. reflexivity.
Defined.

(** ** Statistics *)

Import History.








Lemma group_eqb_spec (k1 k2 : group_key_t) : group_eqb k1 k2 = true <-> k1 = k2.
Proof.
  destruct k1 as [[a1 b1] c1], k2 as [[a2 b2] c2]. unfold group_eqb. simpl.
  rewrite !andb_true_iff, !String.eqb_eq. split.
  - intros [[-> ->] ->]. reflexivity.
  - intros E. injection E as -> -> ->. auto.
Qed.

Lemma group_leb_total (k1 k2 : group_key_t) :
  group_leb k1 k2 = true \/ group_leb k2 k1 = true.
Proof.
  destruct k1 as [[a1 b1] c1], k2 as [[a2 b2] c2]. unfold group_leb. simpl.
  rewrite (String.compare_antisym a2 a1), (String.compare_antisym b2 b1).
  destruct (String.compare a1 a2); simpl; auto.
  destruct (String.compare b1 b2); simpl; auto.
  apply String.leb_total.
Qed.

Lemma group_leb_antisym (k1 k2 : group_key_t) :
  group_leb k1 k2 = true -> group_leb k2 k1 = true -> k1 = k2.
Proof.
  destruct k1 as [[a1 b1] c1], k2 as [[a2 b2] c2]. unfold group_leb. simpl.
  rewrite (String.compare_antisym a2 a1), (String.compare_antisym b2 b1).
  destruct (String.compare a1 a2) eqn:Ea; simpl; try discriminate.
  destruct (String.compare b1 b2) eqn:Eb; simpl; try discriminate.
  apply String.compare_eq_iff in Ea, Eb. subst.
  intros H1 H2. now rewrite (String.leb_antisym _ _ H1 H2).
Qed.

Lemma group_leb_trans (k1 k2 k3 : group_key_t) :
  group_leb k1 k2 = true -> group_leb k2 k3 = true -> group_leb k1 k3 = true.
Proof.
  destruct k1 as [[a1 b1] c1], k2 as [[a2 b2] c2], k3 as [[a3 b3] c3].
  unfold group_leb. simpl.
  destruct (String.compare a1 a2) eqn:E12; try discriminate.
  - apply String.compare_eq_iff in E12. subst a2.
    destruct (String.compare a1 a3); try discriminate; [|reflexivity].
    destruct (String.compare b1 b2) eqn:F12; try discriminate.
    + apply String.compare_eq_iff in F12. subst b2.
      destruct (String.compare b1 b3); try discriminate; [|reflexivity].
      apply string_leb_trans.
    + intros _. destruct (String.compare b2 b3) eqn:F23; try discriminate.
      * apply String.compare_eq_iff in F23. subst b3. now rewrite F12.
      * now rewrite (string_compare_lt_trans _ _ _ F12 F23).
  - intros _. destruct (String.compare a2 a3) eqn:E23; try discriminate.
    + apply String.compare_eq_iff in E23. subst a3. now rewrite E12.
    + now rewrite (string_compare_lt_trans _ _ _ E12 E23).
Qed.

Lemma stat_key_summarize fsqrt df k : stat_key (summarize fsqrt df k) = k.
Proof. destruct k as [[a b] c]. reflexivity. Qed.

(** One summary row per distinct group of a non-empty table. *)
Lemma statistics_keys fsqrt df :
  df <> [] ->
  let out := calculate_premium_statistics fsqrt (Some df) in
  NoDup (map stat_key out) /\
  (forall k, In k (map stat_key out) <-> In k (map group_key df)) /\
  (forall row, In row out -> row = summarize fsqrt df (stat_key row)).
Proof.
  intros Hne out.
  assert (out = map (summarize fsqrt df)
                    (sort_uniq group_leb group_eqb (map group_key df))) as ->
      by (unfold out; destruct df; [congruence|reflexivity]).
  assert (forall ks, map stat_key (map (summarize fsqrt df) ks) = ks) as Hk.
  { intros ks. rewrite map_map. rewrite <- (map_id ks) at 2.
    apply map_ext. intros k. apply stat_key_summarize. }
  rewrite Hk. split; [|split].
  - apply (sort_uniq_NoDup group_leb group_eqb group_eqb_spec group_leb_total
                           group_leb_trans group_leb_antisym).
  - intros k. apply (In_sort_uniq group_leb group_eqb group_eqb_spec).
  - intros row Hrow. apply in_map_iff in Hrow. destruct Hrow as [k [<- _]].
    now rewrite stat_key_summarize.
Qed.

(** ** The statistics of a group of finite premiums *)

























(** The group of a summary row in the words of the specification. *)
Lemma group_premiums_spec (df : LongTable) (k : group_key_t) :
  group_premiums df k
  = Spec.premiums_of df (fst (fst k)) (snd (fst k)) (snd k).
Proof. reflexivity. Qed.







(** * Further properties of the code *)

(** ** The fetcher's result *)

Lemma StronglySorted_weaken {A : Type} (R R' : A -> A -> Prop) (l : list A) :
  (forall x y, R x y -> R' x y) -> StronglySorted R l -> StronglySorted R' l.
Proof.
  intros H. induction 1 as [|a l Hs IH Ha]; constructor; [exact IH|].
  rewrite Forall_forall in *. intros x Hx. apply H. now apply Ha.
Qed.

Lemma by_date_name_total (r s : PriceObservation) :
  by_date_name r s = true \/ by_date_name s r = true.
Proof.
  unfold by_date_name.
  destruct (Z.lt_total (date r) (date s)) as [H|[H|H]].
  - left. apply orb_true_iff. left. now apply Z.ltb_lt.
  - rewrite H, Z.eqb_refl, Z.ltb_irrefl. simpl. apply String.leb_total.
  - right. apply orb_true_iff. left. now apply Z.ltb_lt.
Qed.

Lemma by_date_name_spec (r s : PriceObservation) :
  by_date_name r s = true <-> date_name_le r s.
Proof.
  unfold by_date_name, date_name_le.
  rewrite orb_true_iff, andb_true_iff, Z.ltb_lt, Z.eqb_eq. reflexivity.
Qed.

Lemma by_date_name_trans (r s t : PriceObservation) :
  by_date_name r s = true -> by_date_name s t = true -> by_date_name r t = true.
Proof.
  rewrite !by_date_name_spec. unfold date_name_le.
  intros [H1|[H1 L1]] [H2|[H2 L2]].
  - left. lia.
  - left. lia.
  - left. lia.
  - right. split; [lia|]. eapply string_leb_trans; eauto.
Qed.

Lemma integrate_sorted pool price_data fx :
  StronglySorted date_name_le (integrate pool price_data fx).
Proof.
  unfold integrate.
  apply (StronglySorted_weaken (le_rel by_date_name)).
  - intros x y H. now apply by_date_name_spec.
  - apply (sort_values_sorted by_date_name by_date_name_total by_date_name_trans).
Qed.

(** X1: the rows the fetcher returns are in non-decreasing order of date and,
    within a date, of stock name. *)
Theorem fetched_rows_sorted :
  forall avail w pool start_date end_date,
    StronglySorted
      date_name_le
      (rows_of (fst (get_ah_premium_data avail w pool start_date end_date))).
Proof.
  intros avail w pool s e. unfold get_ah_premium_data.
  destruct (negb avail); [constructor|].
  destruct pool as [[|p0 pool]|]; try constructor.
  destruct (failed _); [constructor|].
  destruct (frame _); [|constructor].
  destruct (failed _); [constructor|].
  destruct (frame _); [|constructor].
  destruct (exchange_rate_column _); [|constructor].
  simpl. apply integrate_sorted.
Qed.

(** X2: no returned row has a null A-share price, H-share price or exchange
    rate. *)
Theorem fetched_rows_have_prices :
  forall avail w pool start_date end_date,
    Forall (fun r => A_price r <> NaN /\ H_price r <> NaN
                     /\ exchange_rate r <> NaN)
           (rows_of (fst (get_ah_premium_data avail w pool start_date end_date))).
Proof.
  intros avail w pool s e. apply Forall_forall. intros r Hr.
  now apply (fetched_rows_complete avail w pool s e).
Qed.






(** The frame keeps the answer's labels. *)
Lemma frame_labels (d df : WsdData) :
  frame d = Some df -> Codes df = Codes d /\ Times df = Times d.
Proof.
  unfold frame. destruct (negb _); [discriminate|].
  destruct (_ =? _)%nat.
  - intros H. injection H as <-. split; reflexivity.
  - destruct (map _ _) as [|row [|row' rest]]; try discriminate.
    intros H. injection H as <-. split; reflexivity.
Qed.





(** X4: a call asks the provider at most twice, first for the closes of the
    pool's A codes followed by its H codes, then for the FX fixing, both over
    the requested range.  A result with rows implies that the interface was
    available and that neither answer was an error or empty; when the price
    answer is an error or empty the call ends with the empty table after
    that one query. *)
Theorem fetcher_query_discipline :
  forall avail w pool start_date end_date,
    let last := match end_date with Some e => e | None => start_date end in
    let q1 := mkQuery (map pool_A_stock_code pool ++ map pool_H_stock_code pool)
                      start_date last in
    let q2 := mkQuery [exchange_rate_code] start_date last in
    let out := get_ah_premium_data avail w (Some pool) start_date end_date in
    (snd out = [] \/ snd out = [q1] \/ snd out = [q1; q2]) /\
    (rows_of (fst out) <> [] ->
     avail = true /\ failed (w q1) = false /\ failed (w q2) = false /\
     snd out = [q1; q2]) /\
    (avail = true -> pool <> [] -> failed (w q1) = true ->
     out = (Returned [], [q1])).
Proof.
  intros avail w pool s e last q1 q2 out. unfold out, get_ah_premium_data.
  destruct avail; simpl negb; cbv iota.
  2: { split; [now left|]. split; [intros H; now elim H|discriminate]. }
  destruct pool as [|p0 pool].
  { split; [now left|]. split; [intros H; now elim H|]. intros _ H. now elim H. }
  fold last. fold q1. fold q2.
  destruct (failed (w q1)) eqn:F1.
  { split; [right; now left|]. split; [intros H; now elim H|reflexivity]. }
  split; [|split; [|discriminate]].
  - destruct (frame (w q1)); [|right; now left].
    destruct (failed (w q2)); [right; now right|].
    destruct (frame (w q2)); [|right; now right].
    destruct (exchange_rate_column _); right; now right.
  - destruct (frame (w q1)); [|intros H; now elim H].
    destruct (failed (w q2)); [intros H; now elim H|].
    destruct (frame (w q2)); [|intros H; now elim H].
    destruct (exchange_rate_column _); [|intros H; now elim H].
    intros _. auto.
Qed.

(** Witness of [fetcher_query_discipline]: the sample fetch has rows, and a
    provider that fails ends the call after one query. *)
Lemma fetcher_query_discipline_witness :
  (let q1 := mkQuery ["A1"; "H1"]%string 10 11 in
   let q2 := mkQuery [exchange_rate_code] 10 11 in
   failed (Samples.sample_provider q1) = false /\
   failed (Samples.sample_provider q2) = false /\
   snd (get_ah_premium_data true Samples.sample_provider
                            (Some Samples.sample_pool) 10 (Some 11))
   = [q1; q2]) /\
  get_ah_premium_data true Samples.failing_provider
                      (Some Samples.sample_pool) 10 (Some 11)
  = (Returned [], [mkQuery ["A1"; "H1"]%string 10 11]).
Proof.
  split.
  - intros q1 q2.
    assert (rows_of (fst (get_ah_premium_data true Samples.sample_provider
                            (Some Samples.sample_pool) 10 (Some 11))) <> [])
      as H by (intros E; vm_compute in E; discriminate).
    destruct (proj1 (proj2 (fetcher_query_discipline
                              true Samples.sample_provider Samples.sample_pool
                              10 (Some 11))) H) as [_ [F1 [F2 Hq]]].
    split; [exact F1|]. split; [exact F2|exact Hq].
  - apply (proj2 (proj2 (fetcher_query_discipline
                           true Samples.failing_provider Samples.sample_pool
                           10 (Some 11)))).
    + reflexivity.
    + discriminate.
    + reflexivity.
Defined.

(** ** The pivot and the column-wise merge *)

Lemma pivot_rectangular df value_col :
  rectangular (create_pivot_table df value_col).
Proof.
  unfold rectangular. rewrite values_eq. split.
  - apply length_map.
  - apply Forall_forall. intros row Hrow. apply in_map_iff in Hrow.
    destruct Hrow as [s [<- _]]. apply length_map.
Qed.

(** X5: a pivot has its stock labels in strictly increasing order, its date
    labels in strictly increasing order (so neither has duplicates), and one
    row of cells per stock label with one cell per date label. *)
Theorem pivot_labels_sorted_and_rectangular :
  forall df value_col,
    let t := create_pivot_table df value_col in
    StronglySorted (slt String.leb) (index t) /\
    StronglySorted Z.lt (columns t) /\
    NoDup (index t) /\ NoDup (columns t) /\
    rectangular t.
Proof.
  intros df value_col t. split; [apply index_sorted|].
  split.
  - apply (StronglySorted_weaken (slt Z.leb)); [|apply columns_sorted].
    intros x y [H N]. apply Z.leb_le in H. lia.
  - split; [apply (strictly_sorted_NoDup String.leb), index_sorted|].
    split; [apply (strictly_sorted_NoDup Z.leb), columns_sorted|].
    apply pivot_rectangular.
Qed.

(** X6: a pivot has no empty row and no empty column: every stock label has
    a non-null cell under some date label of the table, and every date label
    has a non-null cell for some stock label of the table. *)
Theorem pivot_has_no_empty_row_or_column :
  forall df value_col,
    let t := create_pivot_table df value_col in
    Forall (fun s => exists d, In d (columns t) /\ cell_at t s d <> NaN)
           (index t) /\
    Forall (fun d => exists s, In s (index t) /\ cell_at t s d <> NaN)
           (columns t).
Proof.
  intros df value_col t. split; apply Forall_forall.
  - intros s Hs. apply index_In in Hs. destruct Hs as [d Hd].
    exists d. split.
    + apply columns_In. now exists s.
    + unfold t. now rewrite cell_at_pivot.
  - intros d Hd. apply columns_In in Hd. destruct Hd as [s Hs].
    exists s. split.
    + apply index_In. now exists d.
    + unfold t. now rewrite cell_at_pivot.
Qed.

Lemma find_key_NoDup (df : LongTable) (r : PriceObservation) :
  NoDup (map key df) -> In r df ->
  find (fun x => key_eqb (key x) (key r)) df = Some r.
Proof.
  induction df as [|a df IH]; intros Hnd Hin; [destruct Hin|].
  simpl in *. apply NoDup_cons_iff in Hnd. destruct Hnd as [Ha Hnd].
  destruct Hin as [->|Hin].
  - now rewrite key_eqb_refl.
  - destruct (key_eqb (key a) (key r)) eqn:E.
    + apply key_eqb_spec in E. elim Ha. rewrite E. now apply in_map.
    + now apply IH.
Qed.

Lemma first_value_perm df df' value_col s d :
  Permutation df df' -> NoDup (map key df) ->
  first_value df value_col s d = first_value df' value_col s d.
Proof.
  intros Hp Hnd.
  assert (NoDup (map key df')) as Hnd'
      by (eapply Permutation_NoDup; [apply Permutation_map; exact Hp|exact Hnd]).
  unfold first_value.
  destruct (find (fun r => key_eqb (key r) (s, d)) df) as [r|] eqn:E.
  - apply find_some in E. destruct E as [Hin Hk]. apply key_eqb_spec in Hk.
    rewrite <- Hk. rewrite (find_key_NoDup df' r Hnd'); [reflexivity|].
    now apply (Permutation_in _ Hp).
  - destruct (find (fun r => key_eqb (key r) (s, d)) df') as [r|] eqn:E';
      [|reflexivity].
    apply find_some in E'. destruct E' as [Hin Hk].
    apply (Permutation_in _ (Permutation_sym Hp)) in Hin.
    pose proof (find_none _ _ E r Hin) as Hn. simpl in Hn. congruence.
Qed.

(** X7: on a table without duplicate (stock_name, date) rows the pivot does
    not depend on the order of the rows. *)
Theorem pivot_ignores_row_order :
  forall df df' value_col,
    Permutation df df' -> NoDup (map key df) ->
    create_pivot_table df value_col = create_pivot_table df' value_col.
Proof.
  intros df df' value_col Hp Hnd. apply create_pivot_table_ext.
  intros s d. now apply first_value_perm.
Qed.

(** Witness of [pivot_ignores_row_order]: the late-listing sample and its
    reverse. *)
Lemma pivot_ignores_row_order_witness :
  create_pivot_table Samples.late_listing_long A_price
  = create_pivot_table (rev Samples.late_listing_long) A_price.
Proof.
  apply (pivot_ignores_row_order Samples.late_listing_long
                                 (rev Samples.late_listing_long) A_price).
  - apply Permutation_rev.
  - vm_compute. repeat constructor; simpl; intuition discriminate.
Defined.

Lemma NoDup_map_filter {A B : Type} (f : A -> B) (keep : A -> bool)
      (rows : list A) :
  NoDup (map f rows) -> NoDup (map f (filter keep rows)).
Proof.
  induction rows as [|a l IH]; simpl; intros H; [constructor|].
  apply NoDup_cons_iff in H. destruct H as [Ha H].
  destruct (keep a); simpl; [|now apply IH].
  constructor; [|now apply IH].
  intros Hin. apply Ha. apply in_map_iff in Hin. destruct Hin as [x [E Hx]].
  apply filter_In in Hx. rewrite <- E. apply in_map. tauto.
Qed.

Lemma drop_duplicates_NoDup df : NoDup (map key (drop_duplicates df)).
Proof.
  induction df as [|r rest IH]; simpl; [constructor|].
  constructor; [|now apply NoDup_map_filter].
  intros Hin. apply in_map_iff in Hin. destruct Hin as [x [E Hx]].
  apply filter_In in Hx. destruct Hx as [_ Hx].
  apply negb_true_iff, key_eqb_false in Hx. congruence.
Qed.

Lemma filter_all {A : Type} (p : A -> bool) (l : list A) :
  (forall x, In x l -> p x = true) -> filter p l = l.
Proof.
  induction l as [|a l IH]; intros H; simpl; [reflexivity|].
  rewrite (H a (or_introl eq_refl)). f_equal. apply IH.
  intros x Hx. apply H. now right.
Qed.

Lemma drop_duplicates_fixpoint df :
  NoDup (map key df) -> drop_duplicates df = df.
Proof.
  induction df as [|r rest IH]; simpl; intros H; [reflexivity|].
  apply NoDup_cons_iff in H. destruct H as [Hr H].
  rewrite (IH H). f_equal. apply filter_all.
  intros x Hx. apply negb_true_iff, key_eqb_false. intros E.
  apply Hr. rewrite <- E. now apply in_map.
Qed.

Lemma drop_duplicates_incl df r : In r (drop_duplicates df) -> In r df.
Proof.
  induction df as [|a rest IH]; simpl; [tauto|].
  intros [H|H]; [now left|]. apply filter_In in H. right. now apply IH.
Qed.

(** X8: de-duplication leaves no two rows with the same (stock_name, date),
    keeps only rows of the table and keeps a row for every (stock_name,
    date) of the table; applying it again changes nothing, and a table
    without duplicates is left as it is. *)
Theorem drop_duplicates_properties :
  forall df,
    NoDup (map key (drop_duplicates df)) /\
    (forall r, In r (drop_duplicates df) -> In r df) /\
    (forall k, In k (map key df) -> In k (map key (drop_duplicates df))) /\
    drop_duplicates (drop_duplicates df) = drop_duplicates df /\
    (NoDup (map key df) -> drop_duplicates df = df).
Proof.
  intros df. split; [apply drop_duplicates_NoDup|].
  split; [apply drop_duplicates_incl|]. split; [|split].
  - intros k Hk. apply in_map_iff in Hk. destruct Hk as [r [<- Hr]].
    destruct (find (fun x => key_eqb (key x) (key r)) (drop_duplicates df))
      as [x|] eqn:E.
    + apply find_some in E. destruct E as [Hx Hk].
      apply key_eqb_spec in Hk. rewrite <- Hk. now apply in_map.
    + rewrite find_drop_duplicates in E.
      pose proof (find_none _ _ E r Hr) as Hn. simpl in Hn.
      now rewrite key_eqb_refl in Hn.
  - apply drop_duplicates_fixpoint, drop_duplicates_NoDup.
  - apply drop_duplicates_fixpoint.
Qed.

(** Witness of [drop_duplicates_properties]: the late-listing sample has no
    duplicate and is left as it is. *)
Lemma drop_duplicates_properties_witness :
  drop_duplicates Samples.late_listing_long = Samples.late_listing_long.
Proof.
  apply (proj2 (proj2 (proj2 (proj2
           (drop_duplicates_properties Samples.late_listing_long))))).
  vm_compute. repeat constructor; simpl; intuition discriminate.
Defined.

Lemma row_of_length (a : WideReportTable) (s : string) :
  rectangular a -> List.length (row_of a s) = List.length (columns a).
Proof.
  intros [_ Hrows]. unfold row_of.
  destruct (find _ (combine (index a) (values a))) as [lv|] eqn:E.
  - apply find_some in E. destruct E as [Hin _]. destruct lv as [l v].
    apply in_combine_r in Hin. rewrite Forall_forall in Hrows.
    now apply Hrows.
  - apply repeat_length.
Qed.

Lemma combine_app_same {A B : Type} (l1 l2 : list A) (r1 r2 : list B) :
  List.length l1 = List.length r1 ->
  combine (l1 ++ l2) (r1 ++ r2) = combine l1 r1 ++ combine l2 r2.
Proof.
  revert r1. induction l1 as [|a l1 IH]; intros [|b r1] H; simpl in *;
    try discriminate; [reflexivity|].
  f_equal. apply IH. now injection H.
Qed.

Lemma in_combine_exists {A B : Type} (l : list A) (r : list B) (x : A) :
  In x l -> List.length l = List.length r -> exists v, In (x, v) (combine l r).
Proof.
  revert r. induction l as [|a l IH]; intros [|b r] Hin Hlen; simpl in *;
    try discriminate; [destruct Hin|].
  destruct Hin as [->|Hin].
  - exists b. now left.
  - destruct (IH r Hin) as [v Hv]; [now injection Hlen|].
    exists v. now right.
Qed.

Lemma concat_axis1_cells a b s d :
  rectangular a ->
  In s (index (concat_axis1 a b)) ->
  (In d (columns a) -> cell_at (concat_axis1 a b) s d = cell_at a s d) /\
  (~ In d (columns a) -> cell_at (concat_axis1 a b) s d = cell_at b s d).
Proof.
  intros Hrect Hs. unfold cell_at at 1 3.
  rewrite (concat_axis1_row a b s Hs), concat_axis1_columns.
  rewrite combine_app_same by (symmetry; now apply row_of_length).
  rewrite find_app. split.
  - intros Hd. unfold cell_at.
    destruct (find _ (combine (columns a) (row_of a s))) eqn:E; [reflexivity|].
    destruct (in_combine_exists (columns a) (row_of a s) d Hd) as [v Hv];
      [symmetry; now apply row_of_length|].
    pose proof (find_none _ _ E _ Hv) as Hn. simpl in Hn.
    now rewrite Z.eqb_refl in Hn.
  - intros Hd.
    destruct (find _ (combine (columns a) (row_of a s))) as [[d' v]|] eqn:E;
      [|reflexivity].
    apply find_some in E. destruct E as [Hin Heq]. simpl in Heq.
    apply Z.eqb_eq in Heq. subst d'. apply in_combine_l in Hin. contradiction.
Qed.

(** X9: the column-wise merge only appends.  When the left table is
    rectangular, the merged table has the left table's stock labels followed
    by the labels only the right table has, and the left table's date labels
    followed by the right table's; under a date label of the left table
    every cell is the left table's cell (null for a stock the left table
    lacks), under any other date label it is the right table's. *)
Theorem concat_only_appends :
  forall a b,
    rectangular a ->
    let m := concat_axis1 a b in
    index m
    = index a ++ filter (fun s => negb (mem String.eqb s (index a))) (index b) /\
    columns m = columns a ++ columns b /\
    (forall s d,
        In s (index m) ->
        (In d (columns a) -> cell_at m s d = cell_at a s d) /\
        (~ In d (columns a) -> cell_at m s d = cell_at b s d)).
Proof.
  intros a b Hrect m. split; [reflexivity|]. split; [reflexivity|].
  intros s d Hs. now apply concat_axis1_cells.
Qed.

(** Witness of [concat_only_appends]: the saved sample sheet merged with the
    A-price pivot of the sample fetch. *)
Lemma concat_only_appends_witness :
  let a := Samples.sample_old_table in
  let b := create_pivot_table Samples.sample_long A_price in
  let m := concat_axis1 a b in
  rectangular a /\
  index m
  = index a ++ filter (fun s => negb (mem String.eqb s (index a))) (index b) /\
  columns m = columns a ++ columns b /\
  (forall s d,
      In s (index m) ->
      (In d (columns a) -> cell_at m s d = cell_at a s d) /\
      (~ In d (columns a) -> cell_at m s d = cell_at b s d)).
Proof.
  intros a b m.
  assert (rectangular a) as H
      by (split; [reflexivity|repeat constructor]).
  split; [exact H|]. exact (concat_only_appends a b H).
Defined.

(** ** The monitor run, continued *)

Lemma fetcher_rows_queries avail w pool start_date end_date r df :
  fst (get_ah_premium_data avail w (Some pool) start_date (Some end_date))
  = Returned (r :: df) ->
  snd (get_ah_premium_data avail w (Some pool) start_date (Some end_date))
  = [mkQuery (map pool_A_stock_code pool ++ map pool_H_stock_code pool)
             start_date end_date;
     mkQuery [exchange_rate_code] start_date end_date].
Proof.
  unfold get_ah_premium_data.
  destruct (negb avail); [discriminate|].
  destruct pool as [|p0 pool]; [discriminate|].
  destruct (failed _); [discriminate|].
  destruct (frame _); [|discriminate].
  destruct (failed _); [discriminate|].
  destruct (frame _); [|discriminate].
  destruct (exchange_rate_column _); [|discriminate].
  reflexivity.
Qed.

(** What [fetch_and_save] does when it writes. *)
Lemma fetch_and_save_write w start_date existing_data wb ok :
  In (EvWrite wb ok) (snd (fetch_and_save w start_date existing_data)) ->
  ok = disk_writable w /\
  exists r long_df,
    fst (get_ah_premium_data (WIND_AVAILABLE w) (wsd w)
                             (Some (stock_pool_result w))
                             start_date (Some (today w)))
    = Returned (r :: long_df) /\
    final_pivots existing_data (make_new_pivots (r :: long_df)) = Some wb /\
    snd (fetch_and_save w start_date existing_data)
    = [EvWsd (mkQuery (map pool_A_stock_code (stock_pool_result w)
                       ++ map pool_H_stock_code (stock_pool_result w))
                      start_date (today w));
       EvWsd (mkQuery [exchange_rate_code] start_date (today w));
       EvWrite wb ok].
Proof.
  unfold fetch_and_save.
  pose proof (fetcher_rows_queries (WIND_AVAILABLE w) (wsd w)
                (stock_pool_result w) start_date (today w)) as Hq.
  destruct (get_ah_premium_data _ _ _ _ _) as [res qs]. simpl in Hq.
  assert (forall q, ~ In (EvWrite wb ok) (map EvWsd q)) as Hno.
  { intros q H. apply in_map_iff in H. destruct H as [x [E _]]. discriminate. }
  destruct res as [[|r df]|]; simpl; try (intros H; now apply Hno in H).
  rewrite (Hq r df eq_refl). clear Hq.
  destruct (final_pivots _ _) as [wb'|] eqn:Ef; simpl;
    [|intros H; repeat (destruct H as [H|H]; try discriminate); contradiction].
  destruct (disk_writable w); simpl;
    intros H; repeat (destruct H as [H|H]; try discriminate);
    try contradiction; injection H as -> <-;
    (split; [reflexivity|]); exists r, df; auto.
Qed.

Lemma main_write_inv w wb ok :
  In (EvWrite wb ok) (snd (main w)) ->
  stock_pool_result w <> [] /\ fst (plan w) <= today w /\
  In (EvWrite wb ok) (snd (fetch_and_save w (fst (plan w)) (snd (plan w)))) /\
  exists pre,
    (pre = [] \/ pre = [EvTdays (today w)]) /\
    snd (main w) = pre ++ snd (fetch_and_save w (fst (plan w)) (snd (plan w))).
Proof.
  unfold main. destruct (stock_pool_result w) eqn:Ep; [intros []|].
  rewrite <- Ep. destruct (plan w) as [start_date existing_data].
  simpl fst. simpl snd.
  destruct (fetch_and_save w start_date existing_data) as [ex evs'] eqn:Ef.
  assert (stock_pool_result w <> []) as Hne by congruence.
  destruct (WIND_AVAILABLE w); [destruct (check_trade_day _ _)|];
    try (simpl; intros H; repeat (destruct H as [H|H]; try discriminate);
         contradiction);
    destruct (start_date >? today w) eqn:Eg;
    try (simpl; intros H; repeat (destruct H as [H|H]; try discriminate);
         contradiction);
    simpl; intros H.
  - destruct H as [H|H]; [discriminate|].
    split; [exact Hne|]. split; [rewrite Z.gtb_ltb in Eg; apply Z.ltb_ge in Eg; exact Eg|].
    split; [exact H|]. exists [EvTdays (today w)]. split; [now right|reflexivity].
  - split; [exact Hne|]. split; [rewrite Z.gtb_ltb in Eg; apply Z.ltb_ge in Eg; exact Eg|].
    split; [exact H|]. exists []. split; [now left|reflexivity].
Qed.

(** X10: a run writes the report only when the stock pool is not empty, the
    start date is not after today and the fetch over [start, today] returned
    rows; what it writes is the pivots of those rows, merged sheet by sheet
    onto the old sheets when there are any. *)
Theorem written_report_origin :
  forall w wb ok,
    In (EvWrite wb ok) (snd (main w)) ->
    stock_pool_result w <> [] /\
    fst (plan w) <= today w /\
    ok = disk_writable w /\
    exists long_df,
      long_df <> [] /\
      fst (get_ah_premium_data (WIND_AVAILABLE w) (wsd w)
                               (Some (stock_pool_result w))
                               (fst (plan w)) (Some (today w)))
      = Returned long_df /\
      final_pivots (snd (plan w)) (make_new_pivots long_df) = Some wb.
Proof.
  intros w wb ok H. apply main_write_inv in H.
  destruct H as [Hp [Hs [H _]]]. apply fetch_and_save_write in H.
  destruct H as [Hok [r [df [Hf [Hw _]]]]].
  split; [exact Hp|]. split; [exact Hs|]. split; [exact Hok|].
  exists (r :: df). split; [discriminate|]. split; assumption.
Qed.

(** Witness of [written_report_origin]: the incremental run over the sample
    report. *)
Lemma written_report_origin_witness :
  let w := Samples.sample_world (Some Samples.sample_workbook) 739003 in
  exists wb,
    written (snd (main w)) = Some wb /\
    stock_pool_result w <> [] /\
    fst (plan w) <= today w /\
    exists long_df,
      long_df <> [] /\
      fst (get_ah_premium_data (WIND_AVAILABLE w) (wsd w)
                               (Some (stock_pool_result w))
                               (fst (plan w)) (Some (today w)))
      = Returned long_df /\
      final_pivots (snd (plan w)) (make_new_pivots long_df) = Some wb.
Proof.
  intros w.
  destruct (written (snd (main w))) as [wb|] eqn:E;
    [|vm_compute in E; discriminate].
  exists wb. split; [reflexivity|].
  assert (In (EvWrite wb true) (snd (main w))) as Hin.
  { vm_compute in E. injection E as <-. vm_compute.
    right. right. right. left. reflexivity. }
  destruct (written_report_origin w wb true Hin) as [H1 [H2 [_ H3]]].
  split; [exact H1|]. split; [exact H2|exact H3].
Defined.

(** X11: the price queries and the write of a run that writes are, in this
    order and with nothing of their kind before or between them: the query
    for the closes of the pool's A codes followed by its H codes over
    [start, today], the FX query over the same range, and the write, which
    comes last and only once. *)
Theorem writing_run_trace :
  forall w wb ok,
    In (EvWrite wb ok) (snd (main w)) ->
    let q1 := mkQuery (map pool_A_stock_code (stock_pool_result w)
                       ++ map pool_H_stock_code (stock_pool_result w))
                      (fst (plan w)) (today w) in
    let q2 := mkQuery [exchange_rate_code] (fst (plan w)) (today w) in
    filter price_or_write (snd (main w))
    = [EvWsd q1; EvWsd q2; EvWrite wb ok] /\
    exists before,
      snd (main w) = before ++ [EvWsd q1; EvWsd q2; EvWrite wb ok] /\
      existsb price_or_write before = false.
Proof.
  intros w wb ok H q1 q2. apply main_write_inv in H.
  destruct H as [_ [_ [H [pre [Hpre Hm]]]]].
  apply fetch_and_save_write in H. destruct H as [_ [r [df [_ [_ Hevs]]]]].
  rewrite Hm, Hevs. fold q1. fold q2.
  destruct Hpre as [-> | ->]; (split; [reflexivity|]);
    eexists; (split; [reflexivity|reflexivity]).
Qed.

(** Witness of [writing_run_trace]: the first run of the sample world. *)
Lemma writing_run_trace_witness :
  let w := Samples.sample_world None 739003 in
  exists wb,
    filter price_or_write (snd (main w))
    = [EvWsd (mkQuery ["A1"; "H1"]%string 738886 739003);
       EvWsd (mkQuery [exchange_rate_code] 738886 739003);
       EvWrite wb true].
Proof.
  intros w.
  destruct (written (snd (main w))) as [wb|] eqn:E;
    [|vm_compute in E; discriminate].
  exists wb.
  assert (In (EvWrite wb true) (snd (main w))) as Hin.
  { vm_compute in E. injection E as <-. vm_compute.
    right. right. right. left. reflexivity. }
  exact (proj1 (writing_run_trace w wb true Hin)).
Defined.

Lemma merge_sheets_names existing_data new_pivots sheets wb :
  merge_sheets existing_data new_pivots sheets = Some wb -> map fst wb = sheets.
Proof.
  revert wb. induction sheets as [|s rest IH]; intros wb; simpl.
  - intros H. injection H as <-. reflexivity.
  - destruct (lookup_sheet existing_data s); [|discriminate].
    destruct (lookup_sheet new_pivots s); [|discriminate].
    destruct (merge_sheets existing_data new_pivots rest) as [acc|];
      [|discriminate].
    intros H. injection H as <-. simpl. f_equal. now apply IH.
Qed.

Lemma final_pivots_names existing_data long_df wb :
  final_pivots existing_data (make_new_pivots long_df) = Some wb ->
  map fst wb = SHEET_NAMES.
Proof.
  unfold final_pivots. destruct existing_data.
  - intros H. injection H as <-. reflexivity.
  - apply merge_sheets_names.
Qed.

Lemma read_all_names (wb : Workbook) :
  map fst wb = SHEET_NAMES -> read_all wb SHEET_NAMES = Some wb.
Proof.
  destruct wb as [|[s1 t1] [|[s2 t2] [|[s3 t3] [|[s4 t4] [|e wb]]]]];
    simpl; try discriminate.
  intros H. injection H as -> -> -> ->. reflexivity.
Qed.

Lemma make_new_pivots_labels long_df :
  distinct_labels (make_new_pivots long_df).
Proof.
  unfold distinct_labels, make_new_pivots. apply Forall_forall.
  intros e He. apply in_map_iff in He. destruct He as [sc [<- _]].
  cbn [snd]. split.
  - apply (strictly_sorted_NoDup String.leb), index_sorted.
  - apply (strictly_sorted_NoDup Z.leb), columns_sorted.
Qed.

(** X12: a report a run has saved holds exactly the four sheets, in the
    order premium, A close, H close, rate.  When the run had no old sheets
    to merge onto, no sheet of the saved report repeats a label.  A saved
    report that repeats no label reads back whole: the next run over it
    starts the day after the saved premium sheet's last date and merges onto
    the saved sheets; when the saved premium sheet has no date column at
    all, the next run starts again from 2024-01-01 without old data. *)
Theorem saved_report_reads_back :
  forall w wb,
    In (EvWrite wb true) (snd (main w)) ->
    map fst wb = SHEET_NAMES /\
    (snd (plan w) = [] -> distinct_labels wb) /\
    (distinct_labels wb ->
     read_all wb SHEET_NAMES = Some wb /\
     forall w' t,
       report_file w' = Some wb ->
       lookup_sheet wb PremiumSheet = Some t ->
       (forall cols D, columns t = cols ++ [D] -> plan w' = (D + 1, wb)) /\
       (columns t = [] -> plan w' = (default_start_date, []))).
Proof.
  intros w wb H. apply main_write_inv in H. destruct H as [_ [_ [H _]]].
  apply fetch_and_save_write in H. destruct H as [_ [r [df [_ [Hw _]]]]].
  pose proof (final_pivots_names _ _ _ Hw) as Hn.
  pose proof (read_all_names wb Hn) as Hr.
  split; [exact Hn|]. split.
  - intros Hp. rewrite Hp in Hw. cbn [final_pivots] in Hw.
    injection Hw as <-. apply make_new_pivots_labels.
  - intros _. split; [exact Hr|].
    intros w' t Hf Hl. split.
    + intros cols D Hc. apply (plan_incremental w' wb t cols D wb); auto.
      unfold read_excel. now rewrite Hl.
    + intros Hc. unfold plan, read_existing, read_excel.
      now rewrite Hf, Hl, Hc.
Qed.

(** Witness of [saved_report_reads_back]: the report saved by the first run
    of the sample world, handed to a second run. *)
Lemma saved_report_reads_back_witness :
  let w := Samples.sample_world None 739003 in
  exists wb,
    written (snd (main w)) = Some wb /\
    map fst wb = SHEET_NAMES /\
    distinct_labels wb /\
    read_all wb SHEET_NAMES = Some wb /\
    plan (Samples.sample_world (Some wb) 739003) = (738886 + 1, wb).
Proof.
  intros w.
  destruct (written (snd (main w))) as [wb|] eqn:E;
    [|vm_compute in E; discriminate].
  exists wb. split; [reflexivity|].
  assert (In (EvWrite wb true) (snd (main w))) as Hin.
  { vm_compute in E. injection E as <-. vm_compute.
    right. right. right. left. reflexivity. }
  destruct (saved_report_reads_back w wb Hin) as [H1 [H2 H3]].
  assert (distinct_labels wb) as Hd by (apply H2; reflexivity).
  destruct (H3 Hd) as [H4 H5].
  split; [exact H1|]. split; [exact Hd|]. split; [exact H4|].
  destruct (lookup_sheet wb PremiumSheet) as [t|] eqn:El;
    [|vm_compute in E; injection E as <-; vm_compute in El; discriminate].
  apply (proj1 (H5 (Samples.sample_world (Some wb) 739003) t eq_refl eq_refl)
               []).
  vm_compute in E. injection E as <-. vm_compute in El. injection El as <-.
  reflexivity.
Defined.

(** X13: when the interface is not available the run asks for no price and
    writes nothing, whatever the report file is, and the file is what it
    was; the run stops for want of a stock pool, of a date to update, or of
    new data. *)
Theorem unavailable_interface_run :
  forall w,
    WIND_AVAILABLE w = false ->
    existsb is_wsd (snd (main w)) = false /\
    existsb is_write (snd (main w)) = false /\
    report_after w (snd (main w)) = Holds (report_file w) /\
    (fst (main w) = NoStockPool \/ fst (main w) = UpToDate \/
     fst (main w) = NoNewData).
Proof.
  intros w Ha.
  assert (snd (main w) = [] /\
          (fst (main w) = NoStockPool \/ fst (main w) = UpToDate \/
           fst (main w) = NoNewData)) as [Hs He].
  { unfold main. destruct (stock_pool_result w); [auto|].
    destruct (plan w) as [start_date existing_data].
    rewrite Ha. destruct (start_date >? today w); [auto|].
    unfold fetch_and_save. rewrite Ha, fetcher_unavailable. simpl. auto. }
  rewrite Hs. repeat split; try reflexivity. exact He.
Qed.

(** Witness of [unavailable_interface_run]: the sample world with the
    interface down. *)
Lemma unavailable_interface_run_witness :
  let w := {| stock_pool_result := Samples.sample_pool;
              report_file := Some Samples.sample_workbook;
              today := 739003;
              WIND_AVAILABLE := false;
              tdaysoffset := fun _ => mkTdays 0 [[739003]];
              wsd := Samples.sample_provider;
              disk_writable := true |} in
  existsb is_wsd (snd (main w)) = false /\
  existsb is_write (snd (main w)) = false /\
  report_after w (snd (main w)) = Holds (report_file w) /\
  (fst (main w) = NoStockPool \/ fst (main w) = UpToDate \/
   fst (main w) = NoNewData).
Proof.
  intros w. apply (unavailable_interface_run w). reflexivity.
Defined.

(** X14: when the start date falls after today (the report already ends
    today or later) the run asks for no price and writes nothing. *)
Theorem start_after_today_is_noop :
  forall w,
    today w < fst (plan w) ->
    existsb is_wsd (snd (main w)) = false /\
    existsb is_write (snd (main w)) = false /\
    report_after w (snd (main w)) = Holds (report_file w).
Proof.
  intros w Hlt.
  assert (existsb is_wsd (snd (main w)) = false /\
          existsb is_write (snd (main w)) = false) as [H1 H2].
  { unfold main. destruct (stock_pool_result w); [auto|].
    destruct (plan w) as [start_date existing_data]. simpl in Hlt.
    assert ((start_date >? today w) = true) as Hg by (apply Z.gtb_lt; lia).
    destruct (WIND_AVAILABLE w); [destruct (check_trade_day _ _)|];
      rewrite ?Hg; simpl; auto. }
  split; [exact H1|]. split; [exact H2|]. now apply report_after_no_write.
Qed.

(** Witness of [start_after_today_is_noop]: the sample report ends on
    2024-04-25 and the run takes place that day; the provider's latest
    trading day is later. *)
Lemma start_after_today_is_noop_witness :
  let w := {| stock_pool_result := Samples.sample_pool;
              report_file := Some Samples.sample_workbook;
              today := 739001;
              WIND_AVAILABLE := true;
              tdaysoffset := fun _ => mkTdays 0 [[739005]];
              wsd := Samples.sample_provider;
              disk_writable := true |} in
  existsb is_wsd (snd (main w)) = false /\
  existsb is_write (snd (main w)) = false /\
  report_after w (snd (main w)) = Holds (report_file w).
Proof.
  intros w. apply (start_after_today_is_noop w). vm_compute. reflexivity.
Defined.

Lemma Sheet_eqb_spec (a b : Sheet) : Sheet_eqb a b = true <-> a = b.
Proof. destruct a, b; simpl; split; congruence. Qed.

Lemma merge_sheets_lookup existing_data new_pivots sheets wb sh :
  merge_sheets existing_data new_pivots sheets = Some wb ->
  In sh sheets ->
  exists old new,
    lookup_sheet existing_data sh = Some old /\
    lookup_sheet new_pivots sh = Some new /\
    lookup_sheet wb sh = Some (concat_axis1 old new).
Proof.
  revert wb. induction sheets as [|s rest IH]; intros wb Hm Hin; [destruct Hin|].
  simpl in Hm.
  destruct (lookup_sheet existing_data s) as [old|] eqn:Eo; [|discriminate].
  destruct (lookup_sheet new_pivots s) as [new|] eqn:En; [|discriminate].
  destruct (merge_sheets existing_data new_pivots rest) as [acc|] eqn:Ea;
    [|discriminate].
  injection Hm as <-. unfold lookup_sheet at 3. simpl.
  destruct (Sheet_eqb s sh) eqn:E.
  - apply Sheet_eqb_spec in E. subst sh. exists old, new. auto.
  - destruct Hin as [->|Hin].
    + rewrite (proj2 (Sheet_eqb_spec sh sh) eq_refl) in E. discriminate.
    + destruct (IH acc eq_refl Hin) as [o [n [H1 [H2 H3]]]].
      exists o, n. auto.
Qed.

(** X15: an incremental run changes no stored value.  When a run writes
    over a report none of whose sheets repeats a label, each of the four
    written sheets is the stored sheet with the pivot of that sheet's metric
    over the fetched rows appended column-wise: the stored stock labels and
    date labels open the written sheet's, and if the stored sheet is
    rectangular every cell of it is found unchanged in the written one. *)
Theorem incremental_run_keeps_old_cells :
  forall w wb ok,
    In (EvWrite wb ok) (snd (main w)) ->
    snd (plan w) <> [] ->
    (forall stored, report_file w = Some stored -> distinct_labels stored) ->
    exists long_df,
      fst (get_ah_premium_data (WIND_AVAILABLE w) (wsd w)
                               (Some (stock_pool_result w))
                               (fst (plan w)) (Some (today w)))
      = Returned long_df /\
      forall sh value_col,
        In (sh, value_col) (combine SHEET_NAMES value_columns) ->
        exists old,
          lookup_sheet (snd (plan w)) sh = Some old /\
          let new := create_pivot_table long_df value_col in
          lookup_sheet wb sh = Some (concat_axis1 old new) /\
          (exists more, index (concat_axis1 old new) = index old ++ more) /\
          columns (concat_axis1 old new) = columns old ++ columns new /\
          (rectangular old ->
           forall s d, In s (index old) -> In d (columns old) ->
                       cell_at (concat_axis1 old new) s d = cell_at old s d).
Proof.
  intros w wb ok H Hex _. apply main_write_inv in H.
  destruct H as [_ [_ [H _]]]. apply fetch_and_save_write in H.
  destruct H as [_ [r [df [Hf [Hw _]]]]].
  exists (r :: df). split; [exact Hf|].
  intros sh value_col Hsh.
  unfold final_pivots in Hw. destruct (snd (plan w)) as [|e0 ex] eqn:Ep;
    [congruence|].
  assert (In sh SHEET_NAMES) as Hin by (eapply in_combine_l; exact Hsh).
  destruct (merge_sheets_lookup _ _ _ _ sh Hw Hin) as [old [new [H1 [H2 H3]]]].
  assert (new = create_pivot_table (r :: df) value_col) as ->.
  { destruct Hsh as [E|[E|[E|[E|[]]]]]; injection E as <- <-;
      unfold make_new_pivots, lookup_sheet in H2; cbn [combine SHEET_NAMES
        value_columns map find fst snd Sheet_eqb] in H2;
      now injection H2. }
  exists old. split; [exact H1|]. cbv zeta. split; [exact H3|].
  split; [eexists; apply concat_axis1_index|]. split; [reflexivity|].
  intros Hrect s d Hs Hd.
  apply (concat_axis1_cells old _ s d Hrect); [|exact Hd].
  rewrite concat_axis1_index. apply in_or_app. now left.
Qed.

(** Witness of [incremental_run_keeps_old_cells]: the incremental run over
    the sample report, on its A-close sheet. *)
Lemma incremental_run_keeps_old_cells_witness :
  let w := Samples.sample_world (Some Samples.sample_workbook) 739003 in
  exists wb old long_df,
    written (snd (main w)) = Some wb /\
    lookup_sheet (snd (plan w)) APriceSheet = Some old /\
    lookup_sheet wb APriceSheet
    = Some (concat_axis1 old (create_pivot_table long_df A_price)) /\
    rectangular old /\
    (forall s d, In s (index old) -> In d (columns old) ->
                 cell_at (concat_axis1 old (create_pivot_table long_df A_price))
                         s d
                 = cell_at old s d).
Proof.
  intros w.
  destruct (written (snd (main w))) as [wb|] eqn:E;
    [|vm_compute in E; discriminate].
  assert (In (EvWrite wb true) (snd (main w))) as Hin.
  { vm_compute in E. injection E as <-. vm_compute.
    right. right. right. left. reflexivity. }
  assert (snd (plan w) <> []) as Hex by (vm_compute; discriminate).
  assert (forall stored,
             report_file w = Some stored -> distinct_labels stored) as Hd.
  { intros stored Hs. injection Hs as <-.
    unfold distinct_labels, Samples.sample_workbook. apply Forall_forall.
    intros e He. apply in_map_iff in He. destruct He as [sh [<- _]].
    cbn [snd Samples.sample_old_table index columns].
    split; repeat constructor; simpl; intuition discriminate. }
  destruct (incremental_run_keeps_old_cells w wb true Hin Hex Hd)
    as [long_df [_ Hsheets]].
  destruct (Hsheets APriceSheet A_price) as [old [H1 [H2 [_ [_ H5]]]]];
    [right; left; reflexivity|].
  exists wb, old, long_df. split; [reflexivity|]. split; [exact H1|].
  split; [exact H2|].
  assert (rectangular old) as Hrect.
  { vm_compute in H1. injection H1 as <-.
    split; [reflexivity|repeat constructor]. }
  split; [exact Hrect|exact (H5 Hrect)].
Defined.

(** ** The statistics, continued *)

Lemma sort_uniq_nonempty {A : Type} (leb eqb : A -> A -> bool) (x : A) l :
  sort_uniq leb eqb (x :: l) <> [].
Proof.
  simpl. destruct (sort_uniq leb eqb l) as [|y l']; simpl; [discriminate|].
  destruct (eqb x y); [discriminate|]. destruct (leb x y); discriminate.
Qed.

Lemma statistics_nonempty fsqrt r df :
  calculate_premium_statistics fsqrt (Some (r :: df)) <> [].
Proof.
  unfold calculate_premium_statistics. intros H.
  apply map_eq_nil in H. revert H. apply sort_uniq_nonempty.
Qed.

(** X16: for a table with rows the aggregator returns at least one summary
    row and at most as many as the table has rows, in strictly increasing
    order of (stock_name, A code, H code). *)
Theorem statistics_rows_sorted_and_counted :
  forall fsqrt df,
    df <> [] ->
    let out := calculate_premium_statistics fsqrt (Some df) in
    out <> [] /\
    (List.length out <= List.length df)%nat /\
    StronglySorted (slt group_leb) (map stat_key out).
Proof.
  intros fsqrt df Hne out.
  destruct df as [|r df]; [congruence|].
  split; [apply statistics_nonempty|].
  assert (map stat_key out
          = sort_uniq group_leb group_eqb (map group_key (r :: df))) as Hk.
  { unfold out, calculate_premium_statistics. rewrite map_map.
    rewrite <- (map_id (sort_uniq _ _ _)) at 2.
    apply map_ext. intros k. apply stat_key_summarize. }
  split.
  - rewrite <- (length_map stat_key out), Hk.
    rewrite <- (length_map group_key (r :: df)).
    apply NoDup_incl_length.
    + apply (sort_uniq_NoDup group_leb group_eqb group_eqb_spec group_leb_total
                             group_leb_trans group_leb_antisym).
    + intros k Hkin.
      exact (proj1 (In_sort_uniq group_leb group_eqb group_eqb_spec k _) Hkin).
  - rewrite Hk.
    apply (sort_uniq_sorted group_leb group_eqb group_eqb_spec group_leb_total
                            group_leb_trans group_leb_antisym).
Qed.

(** Witness of [statistics_rows_sorted_and_counted]: the five sample
    premiums. *)
Lemma statistics_rows_sorted_and_counted_witness :
  let out := calculate_premium_statistics (fun v => v)
                                          (Some Samples.five_premiums) in
  out <> [] /\
  (List.length out <= List.length Samples.five_premiums)%nat /\
  StronglySorted (slt group_leb) (map stat_key out).
Proof.
  apply (statistics_rows_sorted_and_counted (fun v => v) Samples.five_premiums).
  intros H. vm_compute in H. discriminate.
Defined.

Lemma quantile_single (p : Qc) (l : list fval) (v : fval) :
  dropna l = [v] ->
  quantile p l = if finite v then v else NaN.
Proof.
  intros H.
  assert (v <> NaN) as Hv.
  { intros ->. assert (In NaN (dropna l)) as Hin by (rewrite H; now left).
    apply filter_In in Hin. destruct Hin as [_ Hin]. discriminate. }
  unfold quantile, sorted_values. rewrite H. simpl sort_values.
  cbn [List.length Nat.sub Z.of_nat].
  change (Q2Qc (inject_Z 0)) with 0%Qc. rewrite Qcmult_0_l.
  change (Qfloor 0%Qc) with 0. change (Z.to_nat 0) with O.
  cbn [Nat.add Nat.min nth].
  change (Qc_leb (Q2Qc (1 # 2)) (0 - Q2Qc (inject_Z 0))) with false.
  cbv iota. destruct v as [|s|q]; [congruence| |].
  - destruct s; reflexivity.
  - cbn [finite]. unfold fsub, fopp, fadd, fmul. f_equal.
    change (Q2Qc (inject_Z 0)) with 0%Qc. ring.
Qed.

(** X17: a group with a single non-null premium is summarised by that
    premium: mean, median, minimum and maximum equal it and the standard
    deviation is null.  The two percentiles equal it when it is a finite
    number; when it is infinite (the fetcher returns such a premium for a
    zero exchange rate) they are null. *)
Theorem single_observation_summary :
  forall fsqrt df row v,
    In row (calculate_premium_statistics fsqrt (Some df)) ->
    dropna (Spec.premiums_of df (stat_stock_name row) (stat_A_stock_code row)
                             (stat_H_stock_code row)) = [v] ->
    premium_mean row = v /\ premium_median row = v /\
    premium_min row = v /\ premium_max row = v /\
    premium_std row = NaN /\
    (finite v = true -> premium_p5 row = v /\ premium_p95 row = v) /\
    (finite v = false -> premium_p5 row = NaN /\ premium_p95 row = NaN).
Proof.
  intros fsqrt df row v Hin Hx.
  assert (df <> []) as Hne by (intros ->; destruct Hin).
  destruct (statistics_keys fsqrt df Hne) as [_ [_ Hrow]].
  pose proof (Hrow row Hin) as E.
  set (k := stat_key row) in *. clearbody k. subst row.
  revert Hx. unfold summarize.
  cbn [premium_mean premium_median premium_min premium_max
       premium_p5 premium_p95 premium_std
       stat_stock_name stat_A_stock_code stat_H_stock_code].
  rewrite <- group_premiums_spec. set (x := group_premiums df k). intros Hx.
  assert (mean x = v) as Hmean.
  { rewrite <- (mean_single v). unfold mean at 1. rewrite Hx.
    unfold mean.
    assert (dropna [v] = [v]) as ->; [|reflexivity].
    rewrite <- Hx. unfold dropna. apply filter_all.
    intros y Hy. apply filter_In in Hy. tauto. }
  split; [exact Hmean|].
  split; [unfold median, sorted_values; rewrite Hx; reflexivity|].
  split; [unfold fmin; now rewrite Hx|].
  split; [unfold fmax; now rewrite Hx|].
  split; [unfold std, variance; now rewrite Hx|].
  rewrite !(quantile_single _ x v Hx).
  split; intros ->; split; reflexivity.
Qed.

(** Witness of [single_observation_summary]: a stock with the single premium
    0, and a stock whose single premium is infinite. *)
Lemma single_observation_summary_witness :
  (let df := [Samples.priced "A" 2 2] in
   let row := hd Samples.null_summary
                 (calculate_premium_statistics (fun v => v) (Some df)) in
   premium_mean row = of_Z 0 /\ premium_p5 row = of_Z 0 /\
   premium_p95 row = of_Z 0 /\ premium_std row = NaN) /\
  (let df := [mkObs 2 "A" "A" "H" (of_Z 1) (of_Z 1) (of_Z 0) (Inf false)] in
   let row := hd Samples.null_summary
                 (calculate_premium_statistics (fun v => v) (Some df)) in
   premium_mean row = Inf false /\ premium_max row = Inf false /\
   premium_p5 row = NaN /\ premium_p95 row = NaN).
Proof.
  split.
  - intros df row.
    destruct (single_observation_summary (fun v => v) df row (of_Z 0))
      as (H1 & _ & _ & _ & H5 & H6 & _).
    + left. reflexivity.
    + reflexivity.
    + destruct (H6 eq_refl) as [H7 H8]. auto.
  - intros df row.
    destruct (single_observation_summary (fun v => v) df row (Inf false))
      as (H1 & _ & _ & H4 & _ & _ & H7).
    + left. reflexivity.
    + reflexivity.
    + destruct (H7 eq_refl) as [H8 H9]. auto.
Defined.


(** X18: a group whose premiums are all null is summarised by nulls in all
    seven statistics. *)
Theorem all_null_group_summary :
  forall fsqrt df row,
    In row (calculate_premium_statistics fsqrt (Some df)) ->
    dropna (group_premiums df (stat_key row)) = [] ->
    premium_mean row = NaN /\ premium_median row = NaN /\
    premium_min row = NaN /\ premium_max row = NaN /\
    premium_p5 row = NaN /\ premium_p95 row = NaN /\
    premium_std row = NaN.
Proof.
  intros fsqrt df row Hin Hx.
  assert (df <> []) as Hne by (intros ->; destruct Hin).
  destruct (statistics_keys fsqrt df Hne) as [_ [_ Hrow]].
  pose proof (Hrow row Hin) as E.
  set (k := stat_key row) in *. clearbody k. subst row.
  unfold summarize.
  cbn [premium_mean premium_median premium_min premium_max
       premium_p5 premium_p95 premium_std].
  unfold mean, median, fmin, fmax, quantile, std, variance, sorted_values.
  rewrite Hx. simpl. repeat split; reflexivity.
Qed.

(** Witness of [all_null_group_summary]: the second day of the sample
    fetch, where the A-share price is 0 and the premium null. *)
Lemma all_null_group_summary_witness :
  let df := tl Samples.sample_long in
  let row := hd Samples.null_summary
                (calculate_premium_statistics (fun v => v) (Some df)) in
  premium_mean row = NaN /\ premium_median row = NaN /\
  premium_min row = NaN /\ premium_max row = NaN /\
  premium_p5 row = NaN /\ premium_p95 row = NaN /\
  premium_std row = NaN.
Proof.
  intros df row.
  apply (all_null_group_summary (fun v => v) df row).
  - vm_compute. left. reflexivity.
  - vm_compute. reflexivity.
Defined.

(** ** The analysis run *)

(** X19: over a pool whose entries all carry a name and both codes (what
    [StockPoolEntry] holds), the one-shot analysis run never stops for want
    of statistics: it writes exactly when the pool is not empty and the
    fetch from 2024-01-01 to today returns rows.  What it writes is those
    rows as the detailed data and their statistics as the summary, after the
    price query and the FX query and nothing else. *)
Theorem analysis_run_writes_iff_rows :
  forall fsqrt i,
    let fetched :=
      get_ah_premium_data (Analysis.WIND_AVAILABLE i) (Analysis.wsd i)
                          (Some (Analysis.stock_pool i))
                          Analysis.START_DATE (Some (Analysis.today i)) in
    let run := Analysis.main fsqrt i in
    fst run <> Analysis.NoStatistics /\
    (forall stats details ok,
        In (Analysis.EvWrite stats details ok) (snd run) ->
        Analysis.stock_pool i <> [] /\ details <> [] /\
        fst fetched = Returned details /\
        stats = calculate_premium_statistics fsqrt (Some details) /\
        ok = Analysis.disk_writable i) /\
    (forall r df,
        Analysis.stock_pool i <> [] ->
        fst fetched = Returned (r :: df) ->
        snd run
        = map Analysis.EvWsd (snd fetched)
          ++ [Analysis.EvWrite
                (calculate_premium_statistics fsqrt (Some (r :: df)))
                (r :: df) (Analysis.disk_writable i)]).
Proof.
  intros fsqrt i fetched run. unfold run, fetched, Analysis.main.
  clear run fetched.
  destruct (Analysis.stock_pool i) eqn:Ep.
  { split; [discriminate|]. split; [intros ? ? ? []|congruence]. }
  rewrite <- Ep.
  destruct (get_ah_premium_data _ _ _ _ _) as [res qs]. simpl fst. simpl snd.
  assert (forall stats details ok q,
             ~ In (Analysis.EvWrite stats details ok) (map Analysis.EvWsd q))
    as Hno.
  { intros st de ok q H. apply in_map_iff in H. destruct H as [x [E _]].
    discriminate. }
  destruct res as [[|r df]|]; cbv beta iota zeta.
  - split; [discriminate|]. split; [|intros r' df' _ E; discriminate E].
    intros st de ok H. now apply Hno in H.
  - pose proof (statistics_nonempty fsqrt r df) as Hs.
    change (map (summarize fsqrt (r :: df))
                (sort_uniq group_leb group_eqb (map group_key (r :: df))))
      with (calculate_premium_statistics fsqrt (Some (r :: df))).
    destruct (calculate_premium_statistics fsqrt (Some (r :: df)))
      as [|s0 stats] eqn:Es; [congruence|].
    destruct (Analysis.disk_writable i); cbn [fst snd];
      (split; [discriminate|]);
      (split; [|intros r' df' _ E; injection E as <- <-; rewrite Es;
                reflexivity]);
      intros st de ok H; apply in_app_or in H;
      (destruct H as [H|H]; [now apply Hno in H|]);
      (destruct H as [H|[]]); injection H as <- <- <-;
      repeat split; try congruence; symmetry; exact Es.
  - split; [discriminate|]. split; [|intros r' df' _ E; discriminate E].
    intros st de ok H. now apply Hno in H.
Qed.

(** Witness of [analysis_run_writes_iff_rows]: the sample pool and provider;
    the run writes the two fetched rows and their one summary row. *)
Lemma analysis_run_writes_iff_rows_witness :
  let i := Analysis.mkInputs Samples.sample_pool true Samples.sample_provider
                             739003 true in
  exists r df q1 q2,
    snd (Analysis.main (fun v => v) i)
    = [Analysis.EvWsd q1; Analysis.EvWsd q2;
       Analysis.EvWrite
         (calculate_premium_statistics (fun v => v) (Some (r :: df)))
         (r :: df) true].
Proof.
  intros i.
  set (fetched := get_ah_premium_data
                    (Analysis.WIND_AVAILABLE i) (Analysis.wsd i)
                    (Some (Analysis.stock_pool i))
                    Analysis.START_DATE (Some (Analysis.today i))).
  destruct (fst fetched) as [[|r df]|] eqn:E;
    try (vm_compute in E; discriminate).
  exists r, df.
  assert (Analysis.stock_pool i <> []) as Hp by discriminate.
  pose proof (proj2 (proj2 (analysis_run_writes_iff_rows (fun v => v) i))
                    r df Hp E) as H.
  assert (exists q1 q2, snd fetched = [q1; q2]) as [q1 [q2 Hq]]
      by (eexists; eexists; vm_compute; reflexivity).
  exists q1, q2. fold fetched in H. rewrite Hq in H. exact H.
Defined.

(** ** The stock pool *)

(** What a call that returns rows has met on its way. *)
Lemma pool_inversion t today_str r rows :
  fst (StockPool.get_ah_shhk_connect_stocks t today_str) = Returned (r :: rows) ->
  exists latest ah_df ah_codes shhk_df shhk_codes a_codes names,
    StockPool.connects t = true /\
    td_ErrorCode (StockPool.tdaysoffset t today_str) = 0 /\
    hd_error (hd [] (td_Data (StockPool.tdaysoffset t today_str))) = Some latest /\
    StockPool.ws_ErrorCode (StockPool.wset t latest StockPool.AH_SECTOR) = 0 /\
    StockPool.frame (StockPool.wset t latest StockPool.AH_SECTOR) = Some ah_df /\
    StockPool.column "wind_code" ah_df = Some ah_codes /\
    StockPool.ws_ErrorCode (StockPool.wset t latest StockPool.CONNECT_SECTOR) = 0 /\
    StockPool.frame (StockPool.wset t latest StockPool.CONNECT_SECTOR)
    = Some shhk_df /\
    StockPool.column "wind_code" shhk_df = Some shhk_codes /\
    StockPool.wss_ErrorCode
      (StockPool.wss t (StockPool.intersection ah_codes shhk_codes)) = 0 /\
    hd_error (StockPool.wss_Data
                (StockPool.wss t (StockPool.intersection ah_codes shhk_codes)))
    = Some a_codes /\
    List.length a_codes
    = List.length (StockPool.intersection ah_codes shhk_codes) /\
    StockPool.column "sec_name" ah_df = Some names /\
    r :: rows
    = filter StockPool.has_A_code
             (StockPool.merge_names
                (combine (StockPool.intersection ah_codes shhk_codes) a_codes)
                (combine ah_codes names)) /\
    snd (StockPool.get_ah_shhk_connect_stocks t today_str)
    = [StockPool.QTdays today_str;
       StockPool.QWset latest StockPool.AH_SECTOR;
       StockPool.QWset latest StockPool.CONNECT_SECTOR;
       StockPool.QWss (StockPool.intersection ah_codes shhk_codes)].
Proof.
  unfold StockPool.get_ah_shhk_connect_stocks.
  destruct (StockPool.connects t) eqn:Ec; cbn [negb]; cbv iota;
    [|cbn [fst]; intros H; discriminate H].
  destruct (td_ErrorCode (StockPool.tdaysoffset t today_str) =? 0) eqn:Et;
    cbn [negb]; cbv iota; [|cbn [fst]; intros H; discriminate H].
  destruct (td_Data (StockPool.tdaysoffset t today_str))
    as [|[|latest more1] more2] eqn:Ed; try (cbn [fst]; intros H; discriminate H).
  destruct (StockPool.ws_ErrorCode
              (StockPool.wset t latest StockPool.AH_SECTOR) =? 0) eqn:Ea;
    cbn [negb]; cbv iota; [|cbn [fst]; intros H; discriminate H].
  destruct (StockPool.frame (StockPool.wset t latest StockPool.AH_SECTOR))
    as [ah_df|] eqn:Efa; [|cbn [fst]; intros H; discriminate H].
  destruct (StockPool.column "wind_code" ah_df) as [ah_codes|] eqn:Eca;
    [|cbn [fst]; intros H; discriminate H].
  destruct (StockPool.ws_ErrorCode
              (StockPool.wset t latest StockPool.CONNECT_SECTOR) =? 0) eqn:Es;
    cbn [negb]; cbv iota; [|cbn [fst]; intros H; discriminate H].
  destruct (StockPool.frame (StockPool.wset t latest StockPool.CONNECT_SECTOR))
    as [shhk_df|] eqn:Efs; [|cbn [fst]; intros H; discriminate H].
  destruct (StockPool.column "wind_code" shhk_df) as [shhk_codes|] eqn:Ecs;
    [|cbn [fst]; intros H; discriminate H].
  destruct (StockPool.intersection ah_codes shhk_codes) as [|c codes] eqn:Ei;
    [cbn [fst]; intros H; discriminate H|].
  unfold StockPool.assemble.
  destruct (StockPool.wss_ErrorCode (StockPool.wss t (c :: codes)) =? 0) eqn:Ew;
    cbn [negb]; cbv iota; [|cbn [fst]; intros H; discriminate H].
  destruct (StockPool.wss_Data (StockPool.wss t (c :: codes)))
    as [|a_codes more3] eqn:Ewd; [cbn [fst]; intros H; discriminate H|].
  destruct (List.length a_codes =? List.length (c :: codes))%nat eqn:El;
    cbn [negb]; cbv iota; [|cbn [fst]; intros H; discriminate H].
  destruct (StockPool.column "sec_name" ah_df) as [names|] eqn:En;
    [|cbn [fst]; intros H; discriminate H].
  cbn [fst snd]. intros H. injection H as H.
  exists latest, ah_df, ah_codes, shhk_df, shhk_codes, a_codes, names.
  rewrite Ei, Ewd. apply Z.eqb_eq in Et, Ea, Es, Ew. apply Nat.eqb_eq in El.
  repeat split; auto.
Qed.

Lemma merge_names_In r temp_df name_map_df :
  In r (StockPool.merge_names temp_df name_map_df) ->
  In (StockPool.row_H_stock_code r, StockPool.row_A_stock_code r) temp_df /\
  (forall n, StockPool.row_stock_name r = Some n ->
             In (StockPool.row_H_stock_code r, n) name_map_df) /\
  (StockPool.row_stock_name r = None ->
   forall n, ~ In (StockPool.row_H_stock_code r, n) name_map_df).
Proof.
  unfold StockPool.merge_names. intros H. apply in_flat_map in H.
  destruct H as [[h a] [Hha H]]. cbn [fst snd] in H.
  destruct (filter _ name_map_df) as [|m ms] eqn:E.
  - destruct H as [<-|[]]. simpl. split; [exact Hha|]. split; [discriminate|].
    intros _ n Hn.
    assert (In (h, n) (filter (fun cn : string * string =>
                                 String.eqb (fst cn) h) name_map_df)) as Hf
        by (apply filter_In; split; [exact Hn|apply String.eqb_refl]).
    rewrite E in Hf. destruct Hf.
  - apply in_map_iff in H. destruct H as [[c n] [<- Hcn]]. simpl.
    rewrite <- E in Hcn. apply filter_In in Hcn. destruct Hcn as [Hcn Hc].
    simpl in Hc. apply String.eqb_eq in Hc. subst c.
    split; [exact Hha|]. split; [|discriminate].
    intros n' Hn'. injection Hn' as <-. exact Hcn.
Qed.

Lemma merge_names_keeps temp_df name_map_df h a :
  In (h, a) temp_df ->
  exists r, In r (StockPool.merge_names temp_df name_map_df) /\
            StockPool.row_H_stock_code r = h /\
            StockPool.row_A_stock_code r = a.
Proof.
  intros Hin. unfold StockPool.merge_names.
  destruct (filter (fun cn : string * string => String.eqb (fst cn) h)
                   name_map_df) as [|m ms] eqn:E.
  - exists (StockPool.mkRow h a None). split; [|auto].
    apply in_flat_map. exists (h, a). split; [exact Hin|].
    simpl. rewrite E. now left.
  - exists (StockPool.mkRow h a (Some (snd m))). split; [|auto].
    apply in_flat_map. exists (h, a). split; [exact Hin|].
    simpl. rewrite E. now left.
Qed.

Lemma intersection_In ah_codes shhk_codes h :
  In h (StockPool.intersection ah_codes shhk_codes) <->
  In h ah_codes /\ In h shhk_codes.
Proof.
  unfold StockPool.intersection.
  rewrite (In_sort_uniq String.leb String.eqb String.eqb_eq), filter_In.
  now rewrite (mem_In String.eqb String.eqb_eq).
Qed.

(** X20: every row of the pool has an H code that is listed both among the
    AH constituents and among the Connect constituents of the latest trading
    day, and a non-null A code, the one the terminal pairs with that H code;
    conversely every common code the terminal pairs with an A code has a
    row. *)
Theorem pool_rows_are_the_paired_common_codes :
  forall t today_str r0 rows,
    fst (StockPool.get_ah_shhk_connect_stocks t today_str)
    = Returned (r0 :: rows) ->
    exists latest ah_df ah_codes shhk_df shhk_codes a_codes,
      hd_error (hd [] (td_Data (StockPool.tdaysoffset t today_str)))
      = Some latest /\
      StockPool.frame (StockPool.wset t latest StockPool.AH_SECTOR)
      = Some ah_df /\
      StockPool.column "wind_code" ah_df = Some ah_codes /\
      StockPool.frame (StockPool.wset t latest StockPool.CONNECT_SECTOR)
      = Some shhk_df /\
      StockPool.column "wind_code" shhk_df = Some shhk_codes /\
      hd_error (StockPool.wss_Data
                  (StockPool.wss t (StockPool.intersection ah_codes shhk_codes)))
      = Some a_codes /\
      (forall r, In r (r0 :: rows) ->
                 In (StockPool.row_H_stock_code r) ah_codes /\
                 In (StockPool.row_H_stock_code r) shhk_codes /\
                 StockPool.row_A_stock_code r <> None) /\
      (forall h a,
          In (h, Some a)
             (combine (StockPool.intersection ah_codes shhk_codes) a_codes) <->
          exists r, In r (r0 :: rows) /\
                    StockPool.row_H_stock_code r = h /\
                    StockPool.row_A_stock_code r = Some a).
Proof.
  intros t today_str r0 rows H. apply pool_inversion in H.
  destruct H as [latest [ah_df [ah_codes [shhk_df [shhk_codes [a_codes [names
    [_ [_ [Hl [_ [Hfa [Hca [_ [Hfs [Hcs [_ [Hw [_ [_ [Hrows _]]]]]]]]]]]]]]]]]]]]].
  exists latest, ah_df, ah_codes, shhk_df, shhk_codes, a_codes.
  repeat (split; [assumption|]). rewrite Hrows. split.
  - intros r Hr. apply filter_In in Hr. destruct Hr as [Hr Ha].
    apply merge_names_In in Hr. destruct Hr as [Hr _].
    apply in_combine_l, intersection_In in Hr. destruct Hr as [H1 H2].
    split; [exact H1|]. split; [exact H2|].
    unfold StockPool.has_A_code in Ha.
    destruct (StockPool.row_A_stock_code r); [discriminate|discriminate].
  - intros h a. split.
    + intros Hin.
      destruct (merge_names_keeps _ (combine ah_codes names) h (Some a) Hin)
        as [r [Hr [Hh Ha]]].
      exists r. split; [|auto]. apply filter_In. split; [exact Hr|].
      unfold StockPool.has_A_code. now rewrite Ha.
    + intros [r [Hr [Hh Ha]]]. apply filter_In in Hr. destruct Hr as [Hr _].
      apply merge_names_In in Hr. destruct Hr as [Hr _].
      now rewrite Hh, Ha in Hr.
Qed.

(** Witness of [pool_rows_are_the_paired_common_codes]: the sample terminal
    yields the one row of 0939.HK. *)
Lemma pool_rows_are_the_paired_common_codes_witness :
  exists r0 rows,
    fst (StockPool.get_ah_shhk_connect_stocks Fixtures.sample_terminal 739003)
    = Returned (r0 :: rows) /\
    exists ah_codes shhk_codes,
      (forall r, In r (r0 :: rows) ->
                 In (StockPool.row_H_stock_code r) ah_codes /\
                 In (StockPool.row_H_stock_code r) shhk_codes /\
                 StockPool.row_A_stock_code r <> None).
Proof.
  destruct (fst (StockPool.get_ah_shhk_connect_stocks
                   Fixtures.sample_terminal 739003))
    as [[|r0 rows]|] eqn:E; try (vm_compute in E; discriminate).
  exists r0, rows. split; [reflexivity|].
  destruct (pool_rows_are_the_paired_common_codes
              Fixtures.sample_terminal 739003 r0 rows E)
    as [latest [ah_df [ah_codes [shhk_df [shhk_codes [a_codes
         [_ [_ [_ [_ [_ [_ [H _]]]]]]]]]]]]].
  exists ah_codes, shhk_codes. exact H.
Defined.

Lemma combine_empty_columns (fields : list string) (data : list (list string)) :
  List.length data = List.length fields ->
  forallb (fun l : list string => match l with [] => true | _ => false end)
          data = true ->
  map (fun f => (f, @nil string)) fields = combine fields data.
Proof.
  revert data. induction fields as [|f fields IH]; intros [|l data] Hlen Hall;
    try discriminate; [reflexivity|].
  cbn [forallb] in Hall. apply andb_true_iff in Hall. destruct Hall as [Hl Hall].
  destruct l; [|discriminate]. cbn [map combine]. f_equal.
  apply IH; [now injection Hlen|exact Hall].
Qed.

(** As many lists as fields: the frame holds the answer's lists. *)
Lemma frame_full (a : StockPool.WsetData) df :
  StockPool.frame a = Some df ->
  List.length (StockPool.ws_Data a) = List.length (StockPool.ws_Fields a) ->
  df = combine (StockPool.ws_Fields a) (StockPool.ws_Data a).
Proof.
  unfold StockPool.frame. intros H Hlen.
  destruct (forallb _ _) eqn:Hall.
  - injection H as <-. now apply combine_empty_columns.
  - rewrite Hlen, Nat.eqb_refl in H. now injection H.
Qed.

(** A single list under several fields: every column is that list. *)
Lemma frame_single_list (a : StockPool.WsetData) df l :
  StockPool.frame a = Some df ->
  StockPool.ws_Data a = [l] ->
  List.length (StockPool.ws_Fields a) <> 1%nat ->
  df = map (fun f => (f, l)) (StockPool.ws_Fields a).
Proof.
  unfold StockPool.frame. intros H Hd Hf. rewrite Hd in H.
  cbn [forallb List.length] in H. destruct l as [|c l].
  - cbn [andb] in H. now injection H.
  - cbn [andb] in H.
    destruct (1 =? List.length (StockPool.ws_Fields a))%nat eqn:E.
    + apply Nat.eqb_eq in E. congruence.
    + now injection H.
Qed.

Lemma column_of_repeated name (fields : list string) (l c : list string) :
  StockPool.column name (map (fun f => (f, l)) fields) = Some c -> c = l.
Proof.
  unfold StockPool.column.
  destruct (find _ _) as [fc|] eqn:E; [|discriminate].
  intros H. injection H as <-. apply find_some in E. destruct E as [E _].
  apply in_map_iff in E. destruct E as [f [<- _]]. reflexivity.
Qed.

Lemma in_combine_same {A : Type} (l : list A) (x y : A) :
  In (x, y) (combine l l) -> x = y.
Proof.
  induction l as [|a l IH]; cbn [combine]; intros H; [destruct H|].
  destruct H as [H|H]; [now injection H as <- <-|now apply IH].
Qed.

(** X21: the name of every pool row is a name the frame built from the AH
    answer gives for the row's H code; when the frame has a name for each of
    its codes, no row has a null name.  When the answer has as many lists as
    fields the frame holds those lists, so the name is the one the terminal
    listed.  When the answer holds a single list under several fields the
    call does not raise: that list is read as the codes and as the names,
    and every named row is named by its own H code. *)
Theorem pool_rows_carry_listed_names :
  forall t today_str r0 rows,
    fst (StockPool.get_ah_shhk_connect_stocks t today_str)
    = Returned (r0 :: rows) ->
    exists latest ah_df ah_codes names,
      hd_error (hd [] (td_Data (StockPool.tdaysoffset t today_str)))
      = Some latest /\
      let ah_stocks_data := StockPool.wset t latest StockPool.AH_SECTOR in
      StockPool.frame ah_stocks_data = Some ah_df /\
      StockPool.column "wind_code" ah_df = Some ah_codes /\
      StockPool.column "sec_name" ah_df = Some names /\
      (forall r,
          In r (r0 :: rows) ->
          (forall n, StockPool.row_stock_name r = Some n ->
                     In (StockPool.row_H_stock_code r, n)
                        (combine ah_codes names)) /\
          (List.length ah_codes = List.length names ->
           StockPool.row_stock_name r <> None)) /\
      (List.length (StockPool.ws_Data ah_stocks_data)
       = List.length (StockPool.ws_Fields ah_stocks_data) ->
       ah_df = combine (StockPool.ws_Fields ah_stocks_data)
                       (StockPool.ws_Data ah_stocks_data)) /\
      (forall l,
          StockPool.ws_Data ah_stocks_data = [l] ->
          List.length (StockPool.ws_Fields ah_stocks_data) <> 1%nat ->
          ah_codes = l /\ names = l /\
          forall r, In r (r0 :: rows) ->
                    StockPool.row_stock_name r
                    = Some (StockPool.row_H_stock_code r)).
Proof.
  intros t today_str r0 rows H. apply pool_inversion in H.
  destruct H as [latest [ah_df [ah_codes [shhk_df [shhk_codes [a_codes [names
    [_ [_ [Hl [_ [Hfa [Hca [_ [Hfs [Hcs [_ [Hw [_ [Hn [Hrows _]]]]]]]]]]]]]]]]]]]]].
  exists latest, ah_df, ah_codes, names.
  split; [assumption|]. cbv zeta.
  repeat (split; [assumption|]).
  assert (forall r,
             In r (r0 :: rows) ->
             (forall n, StockPool.row_stock_name r = Some n ->
                        In (StockPool.row_H_stock_code r, n)
                           (combine ah_codes names)) /\
             (List.length ah_codes = List.length names ->
              StockPool.row_stock_name r <> None)) as Hnames.
  { rewrite Hrows.
    intros r Hr. apply filter_In in Hr. destruct Hr as [Hr _].
    apply merge_names_In in Hr. destruct Hr as [Hha [Hsome Hnone]].
    split; [exact Hsome|].
    intros Hlen Hnull.
    apply in_combine_l, intersection_In in Hha. destruct Hha as [Hah _].
    destruct (in_combine_exists ah_codes names _ Hah Hlen) as [n Hin].
    exact (Hnone Hnull n Hin). }
  split; [exact Hnames|]. split; [now apply frame_full|].
  intros l Hd Hf.
  pose proof (frame_single_list _ _ l Hfa Hd Hf) as Edf. subst ah_df.
  apply column_of_repeated in Hca. apply column_of_repeated in Hn.
  subst ah_codes names. split; [reflexivity|]. split; [reflexivity|].
  intros r Hr. destruct (Hnames r Hr) as [Hsome Hnone].
  destruct (StockPool.row_stock_name r) as [n|] eqn:En.
  - f_equal. symmetry. apply (in_combine_same l). now apply Hsome.
  - now elim (Hnone eq_refl).
Qed.

(** Witness of [pool_rows_carry_listed_names]: the sample terminal, whose
    rows carry listed names, and the terminal that answers with a single
    list, whose row is named by its code. *)
Lemma pool_rows_carry_listed_names_witness :
  (exists r0 rows,
      fst (StockPool.get_ah_shhk_connect_stocks Fixtures.sample_terminal 739003)
      = Returned (r0 :: rows) /\
      forall r, In r (r0 :: rows) -> StockPool.row_stock_name r <> None) /\
  (exists r0 rows,
      fst (StockPool.get_ah_shhk_connect_stocks
             Fixtures.repeating_terminal 739003)
      = Returned (r0 :: rows) /\
      forall r, In r (r0 :: rows) ->
                StockPool.row_stock_name r
                = Some (StockPool.row_H_stock_code r)).
Proof.
  split.
  - destruct (fst (StockPool.get_ah_shhk_connect_stocks
                     Fixtures.sample_terminal 739003))
      as [[|r0 rows]|] eqn:E; try (vm_compute in E; discriminate).
    destruct (pool_rows_carry_listed_names
                Fixtures.sample_terminal 739003 r0 rows E)
      as (latest & ah_df & ah_codes & names & Hl & Hf & Hc & Hn & H & Hfull
          & _).
    exists r0, rows. split; [reflexivity|].
    intros r Hr. apply (H r Hr).
    vm_compute in Hl. injection Hl as <-.
    rewrite (Hfull eq_refl) in Hc, Hn.
    vm_compute in Hc. vm_compute in Hn.
    injection Hc as <-. injection Hn as <-. reflexivity.
  - destruct (fst (StockPool.get_ah_shhk_connect_stocks
                     Fixtures.repeating_terminal 739003))
      as [[|r0 rows]|] eqn:E; try (vm_compute in E; discriminate).
    destruct (pool_rows_carry_listed_names
                Fixtures.repeating_terminal 739003 r0 rows E)
      as (latest & ah_df & ah_codes & names & Hl & _ & _ & _ & _ & _ & Hs).
    exists r0, rows. split; [reflexivity|].
    vm_compute in Hl. injection Hl as <-.
    apply (Hs ["1398.HK"; "0939.HK"]%string); [reflexivity|].
    vm_compute. discriminate.
Defined.

Lemma filter_fst_NoDup (nm : list (string * string)) (h : string) :
  NoDup (map fst nm) ->
  filter (fun cn : string * string => String.eqb (fst cn) h) nm = [] \/
  exists m, filter (fun cn : string * string => String.eqb (fst cn) h) nm = [m].
Proof.
  induction nm as [|[c n] nm IH]; intros Hnd; [now left|].
  simpl in *. apply NoDup_cons_iff in Hnd. destruct Hnd as [Hc Hnd].
  destruct (String.eqb c h) eqn:E; [|now apply IH].
  right. exists (c, n). f_equal. apply filter_none.
  intros [c' n'] Hin. simpl. apply String.eqb_neq. intros ->.
  apply String.eqb_eq in E. subst c. apply Hc.
  apply in_map_iff. exists (h, n'). auto.
Qed.

Lemma merge_names_codes temp_df name_map_df :
  NoDup (map fst name_map_df) ->
  map StockPool.row_H_stock_code (StockPool.merge_names temp_df name_map_df)
  = map fst temp_df.
Proof.
  intros Hnd. unfold StockPool.merge_names.
  induction temp_df as [|[h a] temp IH]; [reflexivity|].
  cbn [flat_map]. rewrite map_app, IH. clear IH. cbn [fst snd map].
  destruct (filter_fst_NoDup name_map_df h Hnd) as [E|[m E]];
    rewrite E; reflexivity.
Qed.

Lemma NoDup_fst_combine {A B : Type} (l : list A) (r : list B) :
  NoDup l -> NoDup (map fst (combine l r)).
Proof.
  revert r. induction l as [|a l IH]; intros [|b r] H; simpl; try constructor.
  - apply NoDup_cons_iff in H. destruct H as [Ha _]. intros Hin.
    apply Ha. apply in_map_iff in Hin. destruct Hin as [[x y] [<- Hxy]].
    now apply in_combine_l in Hxy.
  - apply IH. now apply NoDup_cons_iff in H.
Qed.

Lemma map_fst_combine_same {A B : Type} (l : list A) (r : list B) :
  List.length l = List.length r -> map fst (combine l r) = l.
Proof.
  revert r. induction l as [|a l IH]; intros [|b r] H; simpl in *;
    try discriminate; [reflexivity|].
  f_equal. apply IH. now injection H.
Qed.

Lemma sorted_map_filter {A B : Type} (R : B -> B -> Prop) (f : A -> B)
      (p : A -> bool) (l : list A) :
  StronglySorted R (map f l) -> StronglySorted R (map f (filter p l)).
Proof.
  induction l as [|a l IH]; simpl; intros H; [constructor|].
  apply StronglySorted_inv in H. destruct H as [Hs Hf].
  destruct (p a); simpl; [|now apply IH].
  constructor; [now apply IH|].
  rewrite Forall_forall in *. intros y Hy. apply Hf.
  apply in_map_iff in Hy. destruct Hy as [x [<- Hx]].
  apply filter_In in Hx. apply in_map. tauto.
Qed.

(** X22: when the AH constituent list names no code twice, the pool rows
    are in strictly increasing order of H code (so no H code has two rows),
    and there are at most as many rows as common codes. *)
Theorem pool_rows_sorted_by_H_code :
  forall t today_str r0 rows,
    fst (StockPool.get_ah_shhk_connect_stocks t today_str)
    = Returned (r0 :: rows) ->
    exists latest ah_df ah_codes shhk_df shhk_codes,
      hd_error (hd [] (td_Data (StockPool.tdaysoffset t today_str)))
      = Some latest /\
      StockPool.frame (StockPool.wset t latest StockPool.AH_SECTOR)
      = Some ah_df /\
      StockPool.column "wind_code" ah_df = Some ah_codes /\
      StockPool.frame (StockPool.wset t latest StockPool.CONNECT_SECTOR)
      = Some shhk_df /\
      StockPool.column "wind_code" shhk_df = Some shhk_codes /\
      (NoDup ah_codes ->
       StronglySorted (slt String.leb)
                      (map StockPool.row_H_stock_code (r0 :: rows)) /\
       (List.length (r0 :: rows)
        <= List.length (StockPool.intersection ah_codes shhk_codes))%nat).
Proof.
  intros t today_str r0 rows H. apply pool_inversion in H.
  destruct H as [latest [ah_df [ah_codes [shhk_df [shhk_codes [a_codes [names
    [_ [_ [Hl [_ [Hfa [Hca [_ [Hfs [Hcs [_ [Hw [Hlen [Hn [Hrows _]]]]]]]]]]]]]]]]]]]]].
  exists latest, ah_df, ah_codes, shhk_df, shhk_codes.
  repeat (split; [assumption|]). intros Hnd. rewrite Hrows.
  pose proof (merge_names_codes
                (combine (StockPool.intersection ah_codes shhk_codes) a_codes)
                (combine ah_codes names)
                (NoDup_fst_combine ah_codes names Hnd)) as Hc.
  rewrite map_fst_combine_same in Hc by (symmetry; exact Hlen).
  split.
  - apply sorted_map_filter. rewrite Hc.
    apply (sort_uniq_sorted String.leb String.eqb String.eqb_eq
                            String.leb_total string_leb_trans
                            String.leb_antisym).
  - apply (f_equal (@List.length string)) in Hc. rewrite length_map in Hc.
    rewrite <- Hc. apply filter_length_le.
Qed.

(** Witness of [pool_rows_sorted_by_H_code]: the sample terminal, whose AH
    list has three distinct codes. *)
Lemma pool_rows_sorted_by_H_code_witness :
  exists r0 rows,
    fst (StockPool.get_ah_shhk_connect_stocks Fixtures.sample_terminal 739003)
    = Returned (r0 :: rows) /\
    StronglySorted (slt String.leb)
                   (map StockPool.row_H_stock_code (r0 :: rows)).
Proof.
  destruct (fst (StockPool.get_ah_shhk_connect_stocks
                   Fixtures.sample_terminal 739003))
    as [[|r0 rows]|] eqn:E; try (vm_compute in E; discriminate).
  exists r0, rows. split; [reflexivity|].
  destruct (pool_rows_sorted_by_H_code Fixtures.sample_terminal 739003 r0 rows E)
    as [latest [ah_df [ah_codes [shhk_df [shhk_codes
         [Hl [Hf [Hc [_ [_ H]]]]]]]]]].
  apply H.
  vm_compute in Hl. injection Hl as <-.
  vm_compute in Hf. injection Hf as <-.
  vm_compute in Hc. injection Hc as <-.
  repeat constructor; simpl; intuition discriminate.
Defined.

(** X23: the pool function asks nothing when the session does not come up,
    and returns the empty pool.  Otherwise its queries are, in order and as
    far as it gets: the trading-day query for today, the AH constituents and
    the Connect constituents of the latest trading day that query returned,
    and the A-code lookup.  A trading-day answer with error code 0 and no
    date makes the call raise after that first query rather than return the
    empty pool. *)
Theorem pool_query_discipline :
  forall t today_str,
    let out := StockPool.get_ah_shhk_connect_stocks t today_str in
    (StockPool.connects t = false -> out = (Returned [], [])) /\
    (StockPool.connects t = true ->
     td_ErrorCode (StockPool.tdaysoffset t today_str) = 0 ->
     hd_error (hd [] (td_Data (StockPool.tdaysoffset t today_str))) = None ->
     out = (Raised, [StockPool.QTdays today_str])) /\
    (StockPool.connects t = true ->
     snd out = [StockPool.QTdays today_str] \/
     exists latest,
       hd_error (hd [] (td_Data (StockPool.tdaysoffset t today_str)))
       = Some latest /\
       (snd out = [StockPool.QTdays today_str;
                   StockPool.QWset latest StockPool.AH_SECTOR] \/
        snd out = [StockPool.QTdays today_str;
                   StockPool.QWset latest StockPool.AH_SECTOR;
                   StockPool.QWset latest StockPool.CONNECT_SECTOR] \/
        exists codes,
          codes <> [] /\
          snd out = [StockPool.QTdays today_str;
                     StockPool.QWset latest StockPool.AH_SECTOR;
                     StockPool.QWset latest StockPool.CONNECT_SECTOR;
                     StockPool.QWss codes])).
Proof.
  intros t today_str out. unfold out, StockPool.get_ah_shhk_connect_stocks.
  split; [intros ->; reflexivity|]. split.
  - intros -> Ht Hd. cbn [negb]. cbv iota. rewrite Ht. cbn [Z.eqb negb].
    cbv iota.
    destruct (td_Data (StockPool.tdaysoffset t today_str))
      as [|[|latest more1] more2]; try reflexivity.
    discriminate Hd.
  - intros ->. cbn [negb]. cbv iota.
    destruct (negb (td_ErrorCode _ =? 0)); [now left|].
    destruct (td_Data (StockPool.tdaysoffset t today_str))
      as [|[|latest more1] more2]; try (now left).
    right. exists latest. split; [reflexivity|].
    destruct (negb (StockPool.ws_ErrorCode _ =? 0)); [now left|].
    destruct (StockPool.frame _) as [ah_df|]; [|now left].
    destruct (StockPool.column "wind_code" ah_df) as [ah_codes|]; [|now left].
    destruct (negb (StockPool.ws_ErrorCode _ =? 0)); [right; now left|].
    destruct (StockPool.frame _) as [shhk_df|]; [|right; now left].
    destruct (StockPool.column "wind_code" shhk_df) as [shhk_codes|];
      [|right; now left].
    destruct (StockPool.intersection ah_codes shhk_codes) as [|c codes];
      [right; now left|].
    right. right. exists (c :: codes). split; [discriminate|].
    unfold StockPool.assemble.
    destruct (negb (StockPool.wss_ErrorCode _ =? 0)); [reflexivity|].
    destruct (StockPool.wss_Data _) as [|a_codes more3]; [reflexivity|].
    destruct (negb (List.length a_codes =? _)%nat); [reflexivity|].
    destruct (StockPool.column "sec_name" ah_df); reflexivity.
Qed.

(** Witness of [pool_query_discipline]: a terminal that answers the
    trading-day query with error code 0 and no date. *)
Lemma pool_query_discipline_witness :
  StockPool.get_ah_shhk_connect_stocks Fixtures.dateless_terminal 739003
  = (Raised, [StockPool.QTdays 739003]).
Proof.
  apply (proj1 (proj2 (pool_query_discipline Fixtures.dateless_terminal 739003)));
    reflexivity.
Defined.

(** ** The fetched rows have one row per stock and date *)

Lemma NoDup_flat_map_keys {A B KA KB : Type} (kA : A -> KA) (kB : B -> KB)
      (f : A -> list B) (l : list A) :
  NoDup (map kA l) ->
  (forall a, In a l -> NoDup (map kB (f a))) ->
  (forall a a' b b', In a l -> In a' l -> In b (f a) -> In b' (f a') ->
                     kB b = kB b' -> kA a = kA a') ->
  NoDup (map kB (flat_map f l)).
Proof.
  induction l as [|a l IH]; intros Hnd Hin Hk; [constructor|].
  cbn [flat_map map] in *. rewrite map_app.
  apply NoDup_cons_iff in Hnd. destruct Hnd as [Ha Hnd].
  apply NoDup_app.
  - apply Hin. now left.
  - apply IH; [exact Hnd| |].
    + intros x Hx. apply Hin. now right.
    + intros x x' b b' Hx Hx'. apply Hk; now right.
  - intros k Hk1 Hk2.
    apply in_map_iff in Hk1. destruct Hk1 as [b [<- Hb]].
    apply in_map_iff in Hk2. destruct Hk2 as [b' [E Hb']].
    apply in_flat_map in Hb'. destruct Hb' as [a' [Ha' Hb']].
    apply Ha. rewrite (Hk a a' b b'); auto.
    + now apply in_map.
    + now left.
    + now right.
Qed.

Lemma NoDup_map_inj_on {A B : Type} (f : A -> B) (l : list A) (x y : A) :
  NoDup (map f l) -> In x l -> In y l -> f x = f y -> x = y.
Proof.
  induction l as [|a l IH]; intros Hnd Hx Hy E; [destruct Hx|].
  cbn [map] in Hnd. apply NoDup_cons_iff in Hnd. destruct Hnd as [Ha Hnd].
  destruct Hx as [->|Hx], Hy as [->|Hy]; auto.
  - elim Ha. rewrite E. now apply in_map.
  - elim Ha. rewrite <- E. now apply in_map.
Qed.

Lemma NoDup_map_compose {A B C : Type} (f : A -> B) (g : B -> C) (l : list A) :
  (forall x y, g x = g y -> x = y) -> NoDup (map f l) ->
  NoDup (map (fun a => g (f a)) l).
Proof.
  intros Hg. induction l as [|a l IH]; cbn [map]; intros Hnd; [constructor|].
  apply NoDup_cons_iff in Hnd. destruct Hnd as [Ha Hnd].
  constructor; [|now apply IH].
  intros Hin. apply in_map_iff in Hin. destruct Hin as [x [E Hx]].
  apply Hg in E. apply Ha. rewrite <- E. now apply in_map.
Qed.

(** At most one row of a table with distinct keys passes a test that fixes
    the key. *)
Lemma filter_key_at_most_one {A K : Type} (k : A -> K) (p : A -> bool) (k0 : K)
      (l : list A) :
  NoDup (map k l) -> (forall x, p x = true -> k x = k0) ->
  (List.length (filter p l) <= 1)%nat.
Proof.
  intros Hnd Hp.
  destruct (filter p l) as [|x [|y rest]] eqn:E; simpl; try lia.
  exfalso.
  assert (NoDup (map k (filter p l))) as H by now apply NoDup_map_filter.
  assert (k x = k0 /\ k y = k0) as [Hx Hy].
  { assert (In x (filter p l) /\ In y (filter p l)) as [Ix Iy]
        by (rewrite E; simpl; auto).
    apply filter_In in Ix. apply filter_In in Iy.
    split; apply Hp; tauto. }
  rewrite E in H. cbn [map] in H.
  apply NoDup_cons_iff in H. destruct H as [H _]. apply H.
  left. congruence.
Qed.

Lemma left_matches_at_most_one {R K : Type} (k : R -> K) (p : R -> bool)
      (k0 : K) (val : R -> fval) (right : list R) :
  NoDup (map k right) -> (forall x, p x = true -> k x = k0) ->
  (List.length (left_matches p val right) <= 1)%nat.
Proof.
  intros Hnd Hp. unfold left_matches.
  pose proof (filter_key_at_most_one k p k0 right Hnd Hp) as H.
  destruct (filter p right) as [|x rest]; simpl in *; [lia|].
  rewrite length_map. exact H.
Qed.

Lemma NoDup_short {A : Type} (l : list A) : (List.length l <= 1)%nat -> NoDup l.
Proof.
  destruct l as [|x [|y l]]; simpl; intros H; try lia; repeat constructor.
  intros [].
Qed.

Lemma melt_keys_NoDup (d : WsdData) :
  NoDup (Codes d) -> NoDup (Times d) -> NoDup (map fst (melt d)).
Proof.
  intros Hc Ht. unfold melt.
  apply (NoDup_flat_map_keys fst fst).
  - now apply NoDup_fst_combine.
  - intros [c row] _. cbn [fst snd]. rewrite map_map. cbn [fst].
    apply (NoDup_map_compose fst (fun t => (t, c))).
    + intros x y E. now injection E.
    + now apply NoDup_fst_combine.
  - intros [c row] [c' row'] b b' _ _ Hb Hb' E. cbn [fst snd] in *.
    apply in_map_iff in Hb. destruct Hb as [tv [<- _]].
    apply in_map_iff in Hb'. destruct Hb' as [tv' [<- _]].
    cbn [fst] in E. now injection E.
Qed.

Lemma integrate_keys_NoDup pool price_data fx :
  NoDup (map pool_stock_name pool) ->
  NoDup (Codes price_data) -> NoDup (Times price_data) ->
  NoDup (map fst fx) ->
  NoDup (map key (integrate pool price_data fx)).
Proof.
  intros Hn Hc Ht Hfx. unfold integrate.
  pose proof (melt_keys_NoDup price_data Hc Ht) as Hm.
  eapply Permutation_NoDup;
    [apply Permutation_map, sort_values_perm|].
  apply NoDup_map_filter. rewrite map_map.
  change (fun x => key (with_premium x))
    with (fun x : MergedA * fval * fval => name_date (fst (fst x))).
  unfold merge_left_fx.
  apply (NoDup_flat_map_keys (fun mh : MergedA * fval => name_date (fst mh))).
  2:{ intros mh _. rewrite map_map. cbn [fst]. apply NoDup_short.
      rewrite length_map.
      apply (left_matches_at_most_one fst _ (ma_date (fst mh))); [exact Hfx|].
      intros x Hx. now apply Z.eqb_eq in Hx. }
  2:{ intros mh mh' b b' _ _ Hb Hb' E.
      apply in_map_iff in Hb. destruct Hb as [v [<- _]].
      apply in_map_iff in Hb'. destruct Hb' as [v' [<- _]].
      exact E. }
  unfold merge_left_h.
  apply (NoDup_flat_map_keys name_date).
  2:{ intros m _. rewrite map_map. cbn [fst]. apply NoDup_short.
      rewrite length_map.
      apply (left_matches_at_most_one
               fst _ (ma_date m, pool_H_stock_code (ma_entry m)));
        [now apply NoDup_map_filter|].
      intros [[t c] v] Hx. cbn [fst snd] in *.
      apply andb_true_iff in Hx. destruct Hx as [H1 H2].
      apply Z.eqb_eq in H1. apply String.eqb_eq in H2. congruence. }
  2:{ intros m m' b b' _ _ Hb Hb' E.
      apply in_map_iff in Hb. destruct Hb as [v [<- _]].
      apply in_map_iff in Hb'. destruct Hb' as [v' [<- _]].
      exact E. }
  unfold merge_inner_pool.
  apply (NoDup_flat_map_keys fst name_date).
  - now apply NoDup_map_filter.
  - intros [[t c] v] _. cbn [fst snd]. rewrite map_map.
    unfold name_date. cbn [ma_entry ma_date].
    apply (NoDup_map_compose pool_stock_name (fun n => (n, t))).
    + intros x y E. now injection E.
    + now apply NoDup_map_filter.
  - intros [[t c] v] [[t' c'] v'] b b' _ _ Hb Hb' E. cbn [fst snd] in *.
    apply in_map_iff in Hb. destruct Hb as [e [<- He]].
    apply in_map_iff in Hb'. destruct Hb' as [e' [<- He']].
    apply filter_In in He. destruct He as [He Hce].
    apply filter_In in He'. destruct He' as [He' Hce'].
    apply String.eqb_eq in Hce. apply String.eqb_eq in Hce'.
    unfold name_date in E. cbn [ma_entry ma_date] in E.
    injection E as En Et.
    assert (e = e') by (eapply NoDup_map_inj_on; eauto).
    congruence.
Qed.

Lemma exchange_rate_column_dates (d : WsdData) fx :
  exchange_rate_column d = Some fx -> NoDup (Times d) -> NoDup (map fst fx).
Proof.
  unfold exchange_rate_column. destruct (find _ _) as [cv|]; [|discriminate].
  intros E Ht. injection E as <-. now apply NoDup_fst_combine.
Qed.

(** X24: when the pool names no stock twice and the provider's two answers
    repeat no code and no date, the returned rows hold at most one row per
    (stock_name, date), so the de-duplication of the pivot removes none of
    them. *)
Theorem fetched_rows_have_distinct_keys :
  forall avail w pool start_date end_date,
    NoDup (map pool_stock_name pool) ->
    (forall q,
        In q (snd (get_ah_premium_data avail w (Some pool) start_date end_date)) ->
        NoDup (Codes (w q)) /\ NoDup (Times (w q))) ->
    let rows :=
      Fetcher.rows_of
        (fst (get_ah_premium_data avail w (Some pool) start_date end_date)) in
    NoDup (map key rows) /\ drop_duplicates rows = rows.
Proof.
  intros avail w pool s e Hn Hw rows.
  assert (NoDup (map key rows)) as H; [|split; [exact H|]; now apply drop_duplicates_fixpoint].
  unfold rows. clear rows. revert Hw. unfold get_ah_premium_data.
  destruct (negb avail); [constructor|].
  destruct pool as [|p0 pool]; [constructor|].
  destruct (failed _); [constructor|].
  destruct (frame _) as [price_df|] eqn:E1; [|constructor].
  destruct (failed _); [constructor|].
  match goal with
  | |- context [frame ?d] =>
      destruct (frame d) as [exchange_rate_df|] eqn:E2; [|constructor]
  end.
  destruct (exchange_rate_column _) as [fx|] eqn:Efx; [|constructor].
  cbn [fst snd Fetcher.rows_of]. intros Hw.
  destruct (Hw _ (or_introl eq_refl)) as [Hc Ht].
  destruct (Hw _ (or_intror (or_introl eq_refl))) as [_ Ht2].
  destruct (frame_labels _ _ E1) as [Ec Et].
  destruct (frame_labels _ _ E2) as [_ Et2].
  apply integrate_keys_NoDup; auto.
  - now rewrite Ec.
  - now rewrite Et.
  - eapply exchange_rate_column_dates; [exact Efx|]. now rewrite Et2.
Qed.

(** Witness of [fetched_rows_have_distinct_keys]: the sample fetch. *)
Lemma fetched_rows_have_distinct_keys_witness :
  drop_duplicates Samples.sample_long = Samples.sample_long.
Proof.
  refine (proj2 (fetched_rows_have_distinct_keys
                   true Samples.sample_provider Samples.sample_pool
                   10 (Some 11) _ _)).
  - vm_compute. repeat constructor. intros [].
  - intros q Hq. vm_compute in Hq.
    destruct Hq as [<-|[<-|[]]]; vm_compute; split;
      repeat constructor; simpl; intuition discriminate.
Defined.
